(** * Vencord plugins: MessageLoggerv2, VoiceChannelLogger, AutoMuter

    A shallow embedding of the log stores and event handlers of the
    repository, and the properties of bounded retention, soft deletion,
    session accounting, toast suppression and import that hold of them.

    Layout: the definitions come first, one module per source file
    ([Json] for the platform's JSON.parse and Map constructor, [Storage]
    for MessageLoggerv2/storage.ts, [MessageLogger], [VoiceChannelLogger]
    and [AutoMuter] for the three plugin files); the theorems follow. *)

From Stdlib Require Import PrimFloat.
From Stdlib Require Import ZArith QArith Qround Qabs Ascii String List Lia Bool.
From stdpp Require Import gmap strings list.
From Stdlib Require Import DecimalString.

Local Open Scope Z_scope.

(* ===================================================================== *)
(** * JSON text, as [JSON.parse] reads it                                 *)
(* ===================================================================== *)

Module Json.

(** A JavaScript string is a sequence of UTF-16 code units. *)
Definition jsstring := list N.

(** A Rocq string literal read as code units (one per character). *)
Definition js (s : string) : jsstring :=
  map N_of_ascii (list_ascii_of_string s).

(** The values [JSON.parse] builds.  A number is kept as the exact decimal
    [m * 10^e] its literal denotes (the rounding to binary64 is not
    modelled).  An object is its list of own properties, one binding per
    key. *)
#[warnings="-register-all"]
Inductive json : Type :=
| JNull
| JBool (b : bool)
| JNum (m e : Z)
| JStr (s : jsstring)
| JArr (items : list json)
| JObj (props : list (jsstring * json)).

Definition jsstring_eqb (a b : jsstring) : bool := bool_decide (a = b).

(** [o[k] = v] on the property list of an object being built: an existing
    key keeps its place and takes the new value, a new key goes last. *)
Fixpoint obj_set (k : jsstring) (v : json) (ps : list (jsstring * json))
  : list (jsstring * json) :=
  match ps with
  | [] => [(k, v)]
  | (k', v') :: tl =>
      if jsstring_eqb k k' then (k, v) :: tl else (k', v') :: obj_set k v tl
  end.

Fixpoint obj_get (k : jsstring) (ps : list (jsstring * json)) : option json :=
  match ps with
  | [] => None
  | (k', v) :: tl => if jsstring_eqb k k' then Some v else obj_get k tl
  end.

(** ** Lexical level *)

Definition is_ws (c : N) : bool :=
  N.eqb c 9 || N.eqb c 10 || N.eqb c 13 || N.eqb c 32.

Fixpoint skip_ws (s : jsstring) : jsstring :=
  match s with
  | c :: tl => if is_ws c then skip_ws tl else s
  | [] => []
  end.

Definition digit (c : N) : option Z :=
  if N.leb 48 c && N.leb c 57 then Some (Z.of_N c - 48) else None.

Definition hexdigit (c : N) : option N :=
  if N.leb 48 c && N.leb c 57 then Some (c - 48)%N
  else if N.leb 65 c && N.leb c 70 then Some (c - 55)%N
  else if N.leb 97 c && N.leb c 102 then Some (c - 87)%N
  else None.

(** The longest run of decimal digits at the head of [s]. *)
Fixpoint take_digits (s : jsstring) : list Z * jsstring :=
  match s with
  | c :: tl =>
      match digit c with
      | Some d => let '(ds, rest) := take_digits tl in (d :: ds, rest)
      | None => ([], s)
      end
  | [] => ([], [])
  end.

Definition digits_value (ds : list Z) : Z :=
  fold_left (fun acc d => 10 * acc + d) ds 0.

Fixpoint strip_prefix (p s : jsstring) : option jsstring :=
  match p, s with
  | [], _ => Some s
  | a :: p', b :: s' => if N.eqb a b then strip_prefix p' s' else None
  | _ :: _, [] => None
  end.

(** The characters of a string literal after its opening quote, up to and
    including the closing quote.  Control characters must be escaped; the
    escapes are the nine of the JSON grammar. *)
Fixpoint parse_chars (s : jsstring) (acc : jsstring)
  : option (jsstring * jsstring) :=
  match s with
  | [] => None
  | c :: tl =>
      if N.eqb c 34 then Some (rev acc, tl)
      else if N.eqb c 92 then
        match tl with
        | [] => None
        | x :: tl' =>
            if N.eqb x 34 then parse_chars tl' (34%N :: acc)
            else if N.eqb x 92 then parse_chars tl' (92%N :: acc)
            else if N.eqb x 47 then parse_chars tl' (47%N :: acc)
            else if N.eqb x 98 then parse_chars tl' (8%N :: acc)
            else if N.eqb x 102 then parse_chars tl' (12%N :: acc)
            else if N.eqb x 110 then parse_chars tl' (10%N :: acc)
            else if N.eqb x 114 then parse_chars tl' (13%N :: acc)
            else if N.eqb x 116 then parse_chars tl' (9%N :: acc)
            else if N.eqb x 117 then
              match tl' with
              | h1 :: h2 :: h3 :: h4 :: tl'' =>
                  match hexdigit h1, hexdigit h2, hexdigit h3, hexdigit h4 with
                  | Some a, Some b, Some c', Some d =>
                      parse_chars tl'' ((((a * 16 + b) * 16 + c') * 16 + d)%N :: acc)
                  | _, _, _, _ => None
                  end
              | _ => None
              end
            else None
        end
      else if N.ltb c 32 then None
      else parse_chars tl (c :: acc)
  end.

(** A number literal: an optional minus sign; an integer part that is a
    single 0 or starts with a non-zero digit; an optional fraction (a dot
    and at least one digit); an optional exponent (e or E, an optional
    sign, at least one digit). *)
Definition parse_int_part (s : jsstring) : option (list Z * jsstring) :=
  match s with
  | c :: tl =>
      if N.eqb c 48 then Some ([0], tl)
      else match digit c with
           | Some _ => Some (take_digits s)
           | None => None
           end
  | [] => None
  end.

Definition parse_frac_part (s : jsstring) : option (list Z * jsstring) :=
  match s with
  | c :: tl =>
      if N.eqb c 46 then
        match take_digits tl with
        | ([], _) => None
        | (ds, rest) => Some (ds, rest)
        end
      else Some ([], s)
  | [] => Some ([], [])
  end.

Definition parse_exp_digits (neg : bool) (s : jsstring) : option (Z * jsstring) :=
  match take_digits s with
  | ([], _) => None
  | (ds, rest) =>
      Some (if neg then - digits_value ds else digits_value ds, rest)
  end.

Definition parse_exp_part (s : jsstring) : option (Z * jsstring) :=
  match s with
  | c :: tl =>
      if N.eqb c 101 || N.eqb c 69 then
        match tl with
        | sg :: tl' =>
            if N.eqb sg 43 then parse_exp_digits false tl'
            else if N.eqb sg 45 then parse_exp_digits true tl'
            else parse_exp_digits false tl
        | [] => None
        end
      else Some (0, s)
  | [] => Some (0, [])
  end.

Definition parse_number (s : jsstring) : option (json * jsstring) :=
  let '(neg, s1) :=
    match s with
    | c :: tl => if N.eqb c 45 then (true, tl) else (false, s)
    | [] => (false, s)
    end in
  match parse_int_part s1 with
  | None => None
  | Some (ints, s2) =>
      match parse_frac_part s2 with
      | None => None
      | Some (fracs, s3) =>
          match parse_exp_part s3 with
          | None => None
          | Some (ex, s4) =>
              let m := digits_value (ints ++ fracs) in
              Some (JNum (if neg then - m else m)
                         (ex - Z.of_nat (length fracs)), s4)
          end
      end
  end.

(** ** Values *)

(** A value that is not an object or an array, [c] being its first
    character: a string, one of the three literals, or a number. *)
Definition parse_scalar (c : N) (tl : jsstring) : option (json * jsstring) :=
  if N.eqb c 34 then
    match parse_chars tl [] with
    | Some (str, rest) => Some (JStr str, rest)
    | None => None
    end
  else if N.eqb c 110 then
    option_map (fun r => (JNull, r)) (strip_prefix (js "ull") tl)
  else if N.eqb c 116 then
    option_map (fun r => (JBool true, r)) (strip_prefix (js "rue") tl)
  else if N.eqb c 102 then
    option_map (fun r => (JBool false, r)) (strip_prefix (js "alse") tl)
  else parse_number (c :: tl).

Fixpoint parse_value (fuel : nat) (s : jsstring) : option (json * jsstring) :=
  match fuel with
  | O => None
  | S fuel' =>
      match skip_ws s with
      | [] => None
      | c :: tl =>
          if N.eqb c 123 then
            match skip_ws tl with
            | c' :: tl' =>
                if N.eqb c' 125 then Some (JObj [], tl')
                else parse_members fuel' (skip_ws tl) []
            | [] => None
            end
          else if N.eqb c 91 then
            match skip_ws tl with
            | c' :: tl' =>
                if N.eqb c' 93 then Some (JArr [], tl')
                else parse_elements fuel' tl []
            | [] => None
            end
          else parse_scalar c tl
      end
  end

(** [parse_elements] is at the start of an element of a non-empty array;
    [acc] holds the elements read so far, last first. *)
with parse_elements (fuel : nat) (s : jsstring) (acc : list json)
  : option (json * jsstring) :=
  match fuel with
  | O => None
  | S fuel' =>
      match parse_value fuel' s with
      | None => None
      | Some (v, rest) =>
          match skip_ws rest with
          | c :: tl =>
              if N.eqb c 44 then parse_elements fuel' tl (v :: acc)
              else if N.eqb c 93 then Some (JArr (rev (v :: acc)), tl)
              else None
          | [] => None
          end
      end
  end

(** [parse_members] is at the opening quote of a member name of a
    non-empty object; [acc] holds the properties set so far. *)
with parse_members (fuel : nat) (s : jsstring) (acc : list (jsstring * json))
  : option (json * jsstring) :=
  match fuel with
  | O => None
  | S fuel' =>
      match s with
      | q :: tl =>
          if N.eqb q 34 then
            match parse_chars tl [] with
            | None => None
            | Some (k, rest) =>
                match skip_ws rest with
                | c :: tl' =>
                    if N.eqb c 58 then
                      match parse_value fuel' tl' with
                      | None => None
                      | Some (v, rest') =>
                          match skip_ws rest' with
                          | c' :: tl'' =>
                              if N.eqb c' 44
                              then parse_members fuel' (skip_ws tl'') (obj_set k v acc)
                              else if N.eqb c' 125
                              then Some (JObj (obj_set k v acc), tl'')
                              else None
                          | [] => None
                          end
                      end
                    else None
                | [] => None
                end
            end
          else None
      | [] => None
      end
  end.

(** [JSON.parse(text)]: one value, surrounded by white space only.  [None]
    stands for the SyntaxError it throws.  Every recursive call has read at
    least one character, so twice the length of the text is fuel enough
    ([JSON_parse_fuel] below). *)
Definition JSON_parse (text : jsstring) : option json :=
  match parse_value (2 * length text + 2) text with
  | Some (v, rest) =>
      match skip_ws rest with
      | [] => Some v
      | _ :: _ => None
      end
  | None => None
  end.

(** A parser with fuel has fuel enough when a result it gives consumes
    input and is given again by any amount of fuel that is at least twice
    the number of characters consumed. *)
Definition fuel_enough {A} (parse : nat -> jsstring -> A -> option (json * jsstring))
    (n : nat) : Prop :=
  forall s a v rest,
    parse n s a = Some (v, rest) ->
    (length rest < length s)%nat
    /\ forall m, (2 * (length s - length rest) <= m)%nat ->
                 parse m s a = Some (v, rest).

(** ** The Map constructor on a parsed value *)

(** A JavaScript value that came out of [JSON.parse], or [undefined]. *)
Definition jsval := option json.

(** SameValueZero, the key equality of Map.  Arrays and objects are equal
    only to themselves, and every array or object in a parsed value is a
    fresh one, so two of them are never the same key. *)
Definition same_value_zero (a b : jsval) : bool :=
  match a, b with
  | None, None => true
  | Some JNull, Some JNull => true
  | Some (JBool x), Some (JBool y) => Bool.eqb x y
  | Some (JNum m1 e1), Some (JNum m2 e2) =>
      let k := Z.min e1 e2 in
      Z.eqb (m1 * 10 ^ (e1 - k)) (m2 * 10 ^ (e2 - k))
  | Some (JStr x), Some (JStr y) => jsstring_eqb x y
  | _, _ => false
  end.

(** A Map as its entries in insertion order. *)
Definition RawMap := list (jsval * jsval).

Fixpoint map_set (k v : jsval) (m : RawMap) : RawMap :=
  match m with
  | [] => [(k, v)]
  | (k', v') :: tl =>
      if same_value_zero k k' then (k', v) :: tl else (k', v') :: map_set k v tl
  end.

(** What the constructor reads of one item of the iterable: the item must
    be an object (an array is one), and its properties 0 and 1 are the key
    and the value.  [None] is the TypeError for an item that is not an
    object. *)
Definition entry_of (item : json) : option (jsval * jsval) :=
  match item with
  | JArr l => Some (l !! 0%nat, l !! 1%nat)
  | JObj ps => Some (obj_get (js "0") ps, obj_get (js "1") ps)
  | JNull | JBool _ | JNum _ _ | JStr _ => None
  end.

Definition add_entry (acc : option RawMap) (item : json) : option RawMap :=
  match acc, entry_of item with
  | Some m, Some (k, v) => Some (map_set k v m)
  | _, _ => None
  end.

Definition is_object (item : json) : bool :=
  match item with
  | JArr _ | JObj _ => true
  | JNull | JBool _ | JNum _ _ | JStr _ => false
  end.

(** The parsed values the Map constructor accepts. *)
Definition iterable_of_entries (data : json) : bool :=
  match data with
  | JNull => true
  | JArr items => forallb is_object items
  | JStr s => bool_decide (s = [])
  | JBool _ | JNum _ _ | JObj _ => false
  end.

(** [new Map(data)].  [null] gives the empty Map; an array is iterated;
    a string is iterated by characters, none of which is an object, so only
    the empty string succeeds; a boolean, a number and a plain object are
    not iterable.  [None] is the TypeError thrown. *)
Definition Map_new (data : json) : option RawMap :=
  match data with
  | JNull => Some []
  | JArr items => fold_left add_entry items (Some [])
  | JStr [] => Some []
  | JStr (_ :: _) => None
  | JBool _ | JNum _ _ | JObj _ => None
  end.

End Json.

(* ===================================================================== *)
(** * MessageLoggerv2/storage.ts                                         *)
(* ===================================================================== *)

Module Storage.
Import Json.

Record Attachment := { content_type : option string }.
Record Embed := { image : bool; thumbnail : bool }.

Record Author := {
  author_id : string;
  author_username : string;
  author_globalName : option string;
  author_avatar : option string }.

Record LoggedMessage := {
  msg_id : string;
  msg_content : string;
  msg_timestamp : string;
  msg_author : Author;
  msg_attachments : list Attachment;
  msg_embeds : list Embed;
  msg_sticker_items : list string;
  msg_channel_id : string;
  msg_guild_id : option string;
  msg_edited_timestamp : option string;
  msg_deleted : option bool;
  msg_deleted_timestamp : option string }.

Record UserMessageLog := {
  userId : string;
  messages : list LoggedMessage;
  lastUpdated : Z }.

(** The object: its [storage] Map, and the item the class keeps in the
    browser's localStorage.  The item is represented by the Map whose
    entries were serialised into it by the last successful write; [None]
    until this object has written it.  [M] is the type of the Map: the
    class declares [Map<string, UserMessageLog>], and the import path puts
    there whatever [JSON.parse] returned. *)
Record MessageStorage (M : Type) := mkStorage {
  storage : M;
  localStorage : option M }.
Arguments mkStorage {M} _ _.
Arguments storage {M} _.
Arguments localStorage {M} _.

Abbreviation Store := (gmap string UserMessageLog).

Definition maxMessagesPerUser : nat := 1000.

(** [saveToLocalStorage]: the write is inside a try/catch of its own; when
    [setItem] throws (the quota is full: [ok = false]) the error is logged
    and nothing changes. *)
Definition saveToLocalStorage {M} (ok : bool) (st : MessageStorage M)
  : MessageStorage M :=
  if ok then mkStorage (storage st) (Some (storage st)) else st.

(** [Array.prototype.findIndex]; [None] is the -1 of no match. *)
Fixpoint findIndex {A} (p : A -> bool) (l : list A) : option nat :=
  match l with
  | [] => None
  | x :: tl => if p x then Some O else option_map S (findIndex p tl)
  end.

(** The edit check of [addMessage]: a message whose id is already in the
    log takes the place of the entry that has it, any other goes to the
    front. *)
Definition upsert (message : LoggedMessage) (msgs : list LoggedMessage)
  : list LoggedMessage :=
  match findIndex (fun m => String.eqb (msg_id m) (msg_id message)) msgs with
  | Some existingIndex => <[existingIndex := message]> msgs
  | None => message :: msgs
  end.

(** The limit of [addMessage]: [slice(0, maxMessagesPerUser)] when longer. *)
Definition limit (msgs : list LoggedMessage) : list LoggedMessage :=
  if (maxMessagesPerUser <? length msgs)%nat
  then take maxMessagesPerUser msgs else msgs.

(** [addMessage].  [now] is the reading of [Date.now()] that ends in
    [lastUpdated] (the reading taken when the log is created is overwritten
    before the call returns). *)
Definition addMessage (uid : string) (message : LoggedMessage)
    (now : Z) (ok : bool) (st : MessageStorage Store) : MessageStorage Store :=
  let userLog :=
    match storage st !! uid with
    | Some l => l
    | None => {| userId := uid; messages := []; lastUpdated := now |}
    end in
  let msgs := limit (upsert message (messages userLog)) in
  saveToLocalStorage ok
    (mkStorage
       (<[uid := {| userId := userId userLog; messages := msgs;
                    lastUpdated := now |}]> (storage st))
       (localStorage st)).

Definition getMessages (uid : string) (st : MessageStorage Store)
  : list LoggedMessage :=
  match storage st !! uid with
  | Some l => messages l
  | None => []
  end.

Definition getMessageCount (uid : string) (st : MessageStorage Store) : nat :=
  match storage st !! uid with
  | Some l => length (messages l)
  | None => O
  end.

Definition clearMessages (uid : string) (ok : bool) (st : MessageStorage Store)
  : MessageStorage Store :=
  saveToLocalStorage ok (mkStorage (delete uid (storage st)) (localStorage st)).

Definition clearAllMessages (ok : bool) (st : MessageStorage Store)
  : MessageStorage Store :=
  saveToLocalStorage ok (mkStorage ∅ (localStorage st)).

Definition cleanDMMessages (targetUserId currentUserId : string)
    (now : Z) (ok : bool) (st : MessageStorage Store) : MessageStorage Store :=
  let keep (m : LoggedMessage) :=
    negb (String.eqb (author_id (msg_author m)) currentUserId
          && bool_decide (msg_guild_id m = None)) in
  saveToLocalStorage ok
    (mkStorage
       (match storage st !! targetUserId with
        | Some l =>
            <[targetUserId := {| userId := userId l;
                                 messages := List.filter keep (messages l);
                                 lastUpdated := now |}]> (storage st)
        | None => storage st
        end)
       (localStorage st)).

(** No two entries of a user's log have the same message id. *)
Definition ids_unique (st : MessageStorage Store) : Prop :=
  forall uid, NoDup (msg_id <$> getMessages uid st).

(** A call of [addMessage], with what it reads of its environment. *)
Record AddCall := {
  call_user : string;
  call_message : LoggedMessage;
  call_now : Z;
  call_ok : bool }.

Definition run_call (st : MessageStorage Store) (c : AddCall)
  : MessageStorage Store :=
  addMessage (call_user c) (call_message c) (call_now c) (call_ok c) st.

Definition run_calls (cs : list AddCall) (st : MessageStorage Store)
  : MessageStorage Store :=
  fold_left run_call cs st.

(** [importData].  Both [JSON.parse] and the Map constructor are inside the
    try; the assignment to [this.storage] comes after them. *)
Definition importData (jsonData : jsstring) (ok : bool)
    (st : MessageStorage RawMap) : bool * MessageStorage RawMap :=
  match JSON_parse jsonData with
  | None => (false, st)
  | Some data =>
      match Map_new data with
      | None => (false, st)
      | Some m => (true, saveToLocalStorage ok (mkStorage m (localStorage st)))
      end
  end.

End Storage.

(* ===================================================================== *)
(** * MessageLoggerv2: the plugin                                        *)
(* ===================================================================== *)

Module MessageLogger.
Import Storage.

(** The host's message objects, as far as the plugin reads them. *)
Record User := {
  user_id : string;
  username : string;
  globalName : option string;
  avatar : option string;
  bot : bool }.

Record Message := {
  id : string;
  content : string;
  timestamp : string;
  author : option User;
  attachments : list Attachment;
  embeds : list Embed;
  sticker_items : list string;
  channel_id : string;
  edited_timestamp : option string;
  deleted : bool }.

Record Settings := {
  maxMessages : Z;
  logImages : bool;
  logStickers : bool;
  logGifs : bool;
  logEmbeds : bool;
  logSelfMessages : bool }.

Definition default_settings : Settings :=
  {| maxMessages := 1000; logImages := true; logStickers := true;
     logGifs := true; logEmbeds := true; logSelfMessages := false |}.

(** What a handler reads of the host while it runs: the stores, the clock
    and whether the browser storage accepts a write. *)
Record Host := {
  currentUserId : option string;        (* UserStore.getCurrentUser()?.id *)
  currentGuildId : option string;       (* getCurrentGuild()?.id *)
  getMessage : string -> string -> option Message; (* MessageStore.getMessage *)
  nowISO : string;                      (* new Date().toISOString() *)
  now : Z;                              (* Date.now() *)
  storageOk : bool }.

(** Truthiness of a string that may be undefined. *)
Definition truthy (o : option string) : bool :=
  match o with
  | Some s => negb (String.eqb s EmptyString)
  | None => false
  end.

Definition is_gif (a : Attachment) : bool :=
  match content_type a with
  | Some t => String.prefix "image/gif" t
  | None => false
  end.

Definition shouldLog (cfg : Settings) (message : Message) (isDeleted : bool) : bool :=
  negb (String.eqb (content message) EmptyString)
  || (logImages cfg
      && (negb (Nat.eqb (length (attachments message)) 0)
          || existsb (fun e => image e || thumbnail e) (embeds message)))
  || (logStickers cfg && negb (Nat.eqb (length (sticker_items message)) 0))
  || (logGifs cfg && existsb is_gif (attachments message))
  || (logEmbeds cfg && negb (Nat.eqb (length (embeds message)) 0))
  || isDeleted.

(** The record [logMessage] hands to [addMessage]. *)
Definition logged (h : Host) (a : User) (message : Message) (isDeleted : bool)
  : LoggedMessage :=
  {| msg_id := id message;
     msg_content := content message;
     msg_timestamp := timestamp message;
     msg_author := {| author_id := user_id a;
                      author_username := username a;
                      author_globalName := globalName a;
                      author_avatar := avatar a |};
     msg_attachments := attachments message;
     msg_embeds := embeds message;
     msg_sticker_items := sticker_items message;
     msg_channel_id := channel_id message;
     msg_guild_id := if truthy (currentGuildId h) then currentGuildId h else None;
     msg_edited_timestamp := edited_timestamp message;
     msg_deleted := Some isDeleted;
     msg_deleted_timestamp := if isDeleted then Some (nowISO h) else None |}.

Definition logMessage (cfg : Settings) (h : Host) (message : Message)
    (isDeleted : bool) (st : MessageStorage Store) : MessageStorage Store :=
  match author message with
  | None => st
  | Some a =>
      if bot a then st
      else if negb (logSelfMessages cfg)
              && bool_decide (Some (user_id a) = currentUserId h) then st
      else if shouldLog cfg message isDeleted
      then addMessage (user_id a) (logged h a message isDeleted)
                      (now h) (storageOk h) st
      else st
  end.

Definition onMessage (cfg : Settings) (h : Host) (message : Message)
    (st : MessageStorage Store) : MessageStorage Store :=
  logMessage cfg h message false st.

Definition onMessageUpdate (cfg : Settings) (h : Host) (message : Message)
    (st : MessageStorage Store) : MessageStorage Store :=
  if truthy (edited_timestamp message) then logMessage cfg h message false st
  else st.

(** The channel's message cache handed to [handleDelete]: the messages by
    id.  [cache.update(id, f)] applies [f] to the message under [id] when
    there is one; the callback sets [deleted]. *)
Abbreviation Cache := (gmap string Message).

Definition set_deleted (m : Message) : Message :=
  {| id := id m; content := content m; timestamp := timestamp m;
     author := author m; attachments := attachments m; embeds := embeds m;
     sticker_items := sticker_items m; channel_id := channel_id m;
     edited_timestamp := edited_timestamp m; deleted := true |}.

Record DeleteEvent := {
  ev_ids : option (list string);
  ev_id : string;
  ev_channelId : string }.

Definition is_bot (m : Message) : bool :=
  match author m with
  | Some a => bot a
  | None => false
  end.

(** One turn of the loop of [handleDelete]. *)
Definition delete_one (cfg : Settings) (h : Host) (channelId : string)
    (acc : Cache * MessageStorage Store) (i : string)
  : Cache * MessageStorage Store :=
  match getMessage h channelId i with
  | Some message =>
      if negb (is_bot message)
      then (alter set_deleted i (fst acc), logMessage cfg h message true (snd acc))
      else acc
  | None => acc
  end.

(** [handleDelete]: the ids of the event, one turn each.  The host is read
    as it is when the handler starts; its calls are taken to return, so the
    try/catch around the loop has nothing to catch. *)
Definition handleDelete (cfg : Settings) (h : Host) (cache : Cache)
    (data : DeleteEvent) (isBulk : bool) (st : MessageStorage Store)
  : Cache * MessageStorage Store :=
  match (if isBulk then ev_ids data else Some [ev_id data]) with
  | None => (cache, st)
  | Some ids => fold_left (delete_one cfg h (ev_channelId data)) ids (cache, st)
  end.

End MessageLogger.

(* ===================================================================== *)
(** * VoiceChannelLogger                                                 *)
(* ===================================================================== *)

Module VoiceChannelLogger.

Local Open Scope string_scope.
Local Open Scope Z_scope.

(** ** Strings: [trim], [split(",")] and [slice(-4)] *)

Definition is_space (c : ascii) : bool :=
  let n := nat_of_ascii c in
  (Nat.leb 9 n && Nat.leb n 13) || Nat.eqb n 32.

Fixpoint trim_start (s : string) : string :=
  match s with
  | String c tl => if is_space c then trim_start tl else s
  | EmptyString => EmptyString
  end.

(** White space is the ASCII part of what [String.prototype.trim] strips. *)
Definition trim (s : string) : string :=
  String.rev (trim_start (String.rev (trim_start s))).

(** [s.split(",")]: the pieces between the commas, the piece being read
    kept in [cur], last character first. *)
Fixpoint split_comma (s : string) (cur : string) : list string :=
  match s with
  | EmptyString => [String.rev cur]
  | String c tl =>
      if Ascii.eqb c ","%char then String.rev cur :: split_comma tl EmptyString
      else split_comma tl (String c cur)
  end.

Definition slice_last4 (s : string) : string :=
  String.substring (String.length s - 4) 4 s.

Definition truthy (o : option string) : bool :=
  match o with
  | Some s => negb (String.eqb s EmptyString)
  | None => false
  end.

(** [a || b] on strings that may be undefined. *)
Definition or_else (a b : option string) : option string :=
  if truthy a then a else b.

(** ** Data *)

(** A voice state update; [deaf], [mute], [selfDeaf] and [selfMute] are
    never read. *)
Record VoiceState := {
  userId : string;
  channelId : option string;
  oldChannelId : option string }.

Inductive Action := join | leave.

Definition Action_eqb (a b : Action) : bool :=
  match a, b with
  | join, join | leave, leave => true
  | _, _ => false
  end.

(** A log record.  [userData], which repeats the user's id, names, avatar
    and discriminator, is left out. *)
Record LogEntry := {
  timestamp : Z;
  entry_userId : string;
  username : string;
  globalName : option string;
  entry_channelId : option string;
  channelName : string;
  guildId : option string;
  guildName : option string;
  action : Action;
  sessionDuration : option Z;
  userAvatar : option string;
  userAvatarUrl : option string;
  userDiscriminator : option string }.

Record Settings := {
  enableFileLogging : bool;
  trackSessionDuration : bool;
  maxLogEntries : Z;
  logOwnActions : bool;
  onlyLogJoins : bool;
  userFilter : string;
  showToastNotifications : bool;
  suppressToastsForExistingUsers : bool;
  toastDuration : Z;
  enableDebugLogging : bool }.

Definition default_settings : Settings :=
  {| enableFileLogging := true; trackSessionDuration := true;
     maxLogEntries := 1000; logOwnActions := false; onlyLogJoins := false;
     userFilter := EmptyString; showToastNotifications := true;
     suppressToastsForExistingUsers := true; toastDuration := 3;
     enableDebugLogging := false |}.

Definition TOAST_SUPPRESSION_DURATION : Z := 2000.
Definition INITIALIZATION_SUPPRESSION_DURATION : Z := 5000.

(** The host's user and channel objects. [user_getAvatarURL] is [None] when
    the object has no such method, [Some None] when the call throws. *)
Record HostUser := {
  user_id : string;
  user_username : string;
  user_globalName : option string;
  user_avatar : option string;
  user_discriminator : option string;
  user_getAvatarURL : option (option string) }.

Record HostChannel := {
  channel_name : string;
  channel_guild_id : option string }.

Record Host := {
  currentUser : option string;          (* UserStore.getCurrentUser(), its id *)
  myChannelId : option string;          (* SelectedChannelStore.getVoiceChannelId() *)
  usersInChannel : option (list string);(* keys of getVoiceStatesForChannel *)
  getUser : string -> option HostUser;
  getChannel : option string -> option HostChannel;
  getGuildName : string -> option string; (* GuildStore.getGuild(id)?.name *)
  dataStoreOk : bool }.                 (* DataStore.update succeeds *)

Record Toast := {
  toast_message : string;
  toast_success : bool;                 (* Toasts.Type.SUCCESS, else MESSAGE *)
  toast_duration : Z }.

(** The plugin's module-level variables, the log kept in the DataStore
    under [LOG_KEY] ([None]: no value there yet) and the toasts shown so
    far, the latest first. *)
Record State := {
  lastUserChannelId : option string;
  suppressToastsUntil : Z;
  pluginInitialized : bool;
  initializationSuppressUntil : Z;
  initializationStartTime : Z;
  processedUsersDuringInit : gset string;
  userSessions : gmap string Z;
  logs : option (list LogEntry);
  toasts : list Toast }.

Definition initial_state : State :=
  {| lastUserChannelId := None; suppressToastsUntil := 0;
     pluginInitialized := false; initializationSuppressUntil := 0;
     initializationStartTime := 0; processedUsersDuringInit := ∅;
     userSessions := ∅; logs := None; toasts := [] |}.

(** The readings of [Date.now()] one run of the handler takes before its
    loop, and those one turn of the loop takes, in the order of the code. *)
Record Prelude := {
  p_start : Z;      (* initializationStartTime = Date.now() *)
  p_until : Z;      (* Date.now() + INITIALIZATION_SUPPRESSION_DURATION *)
  p_switch : Z;     (* Date.now() + TOAST_SUPPRESSION_DURATION *)
  p_sweep : Z }.    (* Date.now() > initializationSuppressUntil *)

Record Ticks := {
  t_window : Z;     (* Date.now() < initializationSuppressUntil *)
  t_session : Z;    (* userSessions.set / Date.now() - joinTime *)
  t_stamp : Z;      (* timestamp: Date.now() *)
  t_toast : Z }.    (* Date.now() < suppressToastsUntil *)

(** ** Saving and showing *)

(** The update [saveLogEntry] hands to [DataStore.update]. *)
Definition push_entry (cfg : Settings) (entry : LogEntry)
    (old : option (list LogEntry)) : list LogEntry :=
  let l := entry :: default [] old in
  let maxEntries := maxLogEntries cfg in
  if (0 <? maxEntries) && (maxEntries <? Z.of_nat (length l))
  then take (Z.to_nat maxEntries) l else l.

(** [saveLogEntry]; a failing update is caught and logged. *)
Definition saveLogEntry (cfg : Settings) (ok : bool) (entry : LogEntry)
    (old : option (list LogEntry)) : option (list LogEntry) :=
  if negb (enableFileLogging cfg) then old
  else if ok then Some (push_entry cfg entry old) else old.

(** A sequence of [saveLogEntry] calls, each with the outcome of its
    update. *)
Definition run_saves (cfg : Settings) (calls : list (bool * LogEntry))
    (old : option (list LogEntry)) : option (list LogEntry) :=
  fold_left (fun l c => saveLogEntry cfg (fst c) (snd c) l) calls old.

Definition displayName (entry : LogEntry) : string :=
  match or_else (globalName entry) (Some (username entry)) with
  | Some n => n
  | None => EmptyString
  end.

Definition toast_of (cfg : Settings) (entry : LogEntry) : Toast :=
  let actionText := match action entry with join => "joined" | leave => "left" end in
  let location := if truthy (guildName entry)
                  then " in " +:+ default EmptyString (guildName entry) else EmptyString in
  {| toast_message := displayName entry +:+ " " +:+ actionText +:+ " "
                      +:+ channelName entry +:+ location;
     toast_success := Action_eqb (action entry) join;
     toast_duration := toastDuration cfg * 1000 |}.

Definition with_output (st : State) (l : option (list LogEntry))
    (ts : list Toast) : State :=
  {| lastUserChannelId := lastUserChannelId st;
     suppressToastsUntil := suppressToastsUntil st;
     pluginInitialized := pluginInitialized st;
     initializationSuppressUntil := initializationSuppressUntil st;
     initializationStartTime := initializationStartTime st;
     processedUsersDuringInit := processedUsersDuringInit st;
     userSessions := userSessions st;
     logs := l; toasts := ts |}.

(** [logVoiceEvent]: save, then show the toast unless suppressed or
    switched off.  (The console line of the debug mode is not modelled.) *)
Definition logVoiceEvent (cfg : Settings) (ok : bool) (entry : LogEntry)
    (suppressToast : bool) (st : State) : State :=
  let l := if enableFileLogging cfg then saveLogEntry cfg ok entry (logs st)
           else logs st in
  let ts := if showToastNotifications cfg && negb suppressToast
            then toast_of cfg entry :: toasts st else toasts st in
  with_output st l ts.

(** ** The handler of VOICE_STATE_UPDATES *)

Definition set_init (st : State) (lastCh : option string) (until start : Z)
    (seen : gset string) : State :=
  {| lastUserChannelId := lastCh;
     suppressToastsUntil := suppressToastsUntil st;
     pluginInitialized := true;
     initializationSuppressUntil := until;
     initializationStartTime := start;
     processedUsersDuringInit := seen;
     userSessions := userSessions st;
     logs := logs st; toasts := toasts st |}.

(** First run with a user and a voice channel: the plugin is initialised,
    and with [suppressToastsForExistingUsers] the start-up window opens and
    the users already in the channel count as seen. *)
Definition initialize (cfg : Settings) (h : Host) (p : Prelude) (st : State)
  : State :=
  match currentUser h with
  | Some me =>
      if negb (pluginInitialized st) && truthy (myChannelId h) then
        if suppressToastsForExistingUsers cfg then
          set_init st (myChannelId h)
            (p_until p + INITIALIZATION_SUPPRESSION_DURATION) (p_start p)
            (match usersInChannel h with
             | Some us =>
                 list_to_set (List.filter (fun u => negb (String.eqb u me)) us)
             | None => ∅
             end)
        else
          set_init st (myChannelId h) (initializationSuppressUntil st)
            (p_start p) ∅
      else st
  | None => st
  end.

Definition set_switch (st : State) (lastCh : option string) (until : Z) : State :=
  {| lastUserChannelId := lastCh;
     suppressToastsUntil := until;
     pluginInitialized := pluginInitialized st;
     initializationSuppressUntil := initializationSuppressUntil st;
     initializationStartTime := initializationStartTime st;
     processedUsersDuringInit := processedUsersDuringInit st;
     userSessions := userSessions st;
     logs := logs st; toasts := toasts st |}.

(** The current user's own state in the batch: a move into another channel
    opens the switch window. *)
Definition track_switch (cfg : Settings) (h : Host) (p : Prelude)
    (voiceStates : list VoiceState) (st : State) : State :=
  match currentUser h with
  | Some me =>
      match List.find (fun s => String.eqb (userId s) me) voiceStates with
      | Some myState =>
          let lastCh := or_else (channelId myState) None in
          if suppressToastsForExistingUsers cfg then
            let userJoinedNewChannel :=
              truthy (channelId myState)
              && negb (bool_decide (channelId myState = lastUserChannelId st)) in
            set_switch st lastCh
              (if userJoinedNewChannel && pluginInitialized st
               then p_switch p + TOAST_SUPPRESSION_DURATION
               else suppressToastsUntil st)
          else if pluginInitialized st then
            set_switch st lastCh (suppressToastsUntil st)
          else
            set_init st lastCh (initializationSuppressUntil st) (p_start p) ∅
      | None => st
      end
  | None => st
  end.

Definition with_tracking (st : State) (seen : gset string)
    (sessions : gmap string Z) : State :=
  {| lastUserChannelId := lastUserChannelId st;
     suppressToastsUntil := suppressToastsUntil st;
     pluginInitialized := pluginInitialized st;
     initializationSuppressUntil := initializationSuppressUntil st;
     initializationStartTime := initializationStartTime st;
     processedUsersDuringInit := seen;
     userSessions := sessions;
     logs := logs st; toasts := toasts st |}.

(** Once the start-up window is over the set of seen users is emptied. *)
Definition sweep (p : Prelude) (st : State) : State :=
  if (initializationSuppressUntil st <? p_sweep p)
     && negb (Nat.eqb (size (processedUsersDuringInit st)) 0)
  then with_tracking st ∅ (userSessions st)
  else st.

Definition passes_filter (cfg : Settings) (uid : string) : bool :=
  if negb (String.eqb (userFilter cfg) EmptyString)
     && negb (String.eqb (trim (userFilter cfg)) EmptyString)
  then existsb (String.eqb uid)
         (List.map trim (split_comma (userFilter cfg) EmptyString))
  else true.

(** The action of a state relative to the current user's channel; [None]
    when the state is skipped before any action is determined, or has
    none. *)
Definition action_of (cfg : Settings) (me myCh : string) (s : VoiceState)
  : option Action :=
  if String.eqb (userId s) EmptyString then None
  else if String.eqb (userId s) me && negb (logOwnActions cfg) then None
  else if negb (passes_filter cfg (userId s)) then None
  else
    let joiningMyChannel := bool_decide (channelId s = Some myCh) in
    let leavingMyChannel := bool_decide (oldChannelId s = Some myCh) in
    if joiningMyChannel && negb leavingMyChannel then Some join
    else if leavingMyChannel && negb joiningMyChannel then
      if onlyLogJoins cfg then None else Some leave
    else None.

(** Session duration tracking: the duration to log and the sessions left. *)
Definition track_session (cfg : Settings) (act : Action) (uid : string)
    (t : Z) (sessions : gmap string Z) : option Z * gmap string Z :=
  if trackSessionDuration cfg then
    match act with
    | join => (None, <[uid := t]> sessions)
    | leave =>
        match sessions !! uid with
        | Some joinTime =>
            if negb (joinTime =? 0) then (Some (t - joinTime), delete uid sessions)
            else (None, sessions)
        | None => (None, sessions)
        end
    end
  else (None, sessions).

Definition fallback_user (uid : string) : HostUser :=
  {| user_id := uid; user_username := "User_" +:+ slice_last4 uid;
     user_globalName := None; user_avatar := None;
     user_discriminator := None; user_getAvatarURL := None |}.

Definition fallback_channel (relevant : option string) : HostChannel :=
  {| channel_name :=
       "Channel_" +:+ default "Unknown"
                        (or_else (option_map slice_last4 relevant) (Some "Unknown"));
     channel_guild_id := None |}.

Definition manual_avatar_url (user : HostUser) : option string :=
  match user_avatar user with
  | Some a =>
      if negb (String.eqb a EmptyString)
      then Some ("https://cdn.discordapp.com/avatars/" +:+ user_id user +:+ "/"
                 +:+ a +:+ ".png?size=32")
      else None
  | None => None
  end.

Definition avatar_url (user : HostUser) : option string :=
  match user_getAvatarURL user with
  | Some (Some url) => Some url
  | Some None => manual_avatar_url user
  | None => manual_avatar_url user
  end.

Definition make_entry (h : Host) (s : VoiceState) (act : Action)
    (duration : option Z) (stamp : Z) : LogEntry :=
  let user := default (fallback_user (userId s)) (getUser h (userId s)) in
  let relevantChannelId := or_else (channelId s) (oldChannelId s) in
  let channel := default (fallback_channel relevantChannelId)
                         (getChannel h relevantChannelId) in
  {| timestamp := stamp;
     entry_userId := user_id user;
     username := user_username user;
     globalName := user_globalName user;
     entry_channelId := relevantChannelId;
     channelName := if String.eqb (channel_name channel) EmptyString
                    then "Unknown Channel" else channel_name channel;
     guildId := channel_guild_id channel;
     guildName := if truthy (channel_guild_id channel)
                  then getGuildName h (default EmptyString (channel_guild_id channel))
                  else None;
     action := act;
     sessionDuration := duration;
     userAvatar := user_avatar user;
     userAvatarUrl := avatar_url user;
     userDiscriminator := user_discriminator user |}.

(** What one turn of the loop does with a state: skip it, or hand an entry
    to [logVoiceEvent] with the toast suppressed or not. *)
Inductive Outcome :=
| Skipped
| Logged (entry : LogEntry) (suppressToast : bool).

(** One turn of the loop, up to the call of [logVoiceEvent]. *)
Definition process_state (cfg : Settings) (h : Host) (me myCh : string)
    (st : State) (s : VoiceState) (tk : Ticks) : State * Outcome :=
  match action_of cfg me myCh s with
  | None => (st, Skipped)
  | Some act =>
      let isInInitializationSuppression :=
        t_window tk <? initializationSuppressUntil st in
      if isInInitializationSuppression && Action_eqb act join
         && bool_decide (userId s ∈ processedUsersDuringInit st)
      then (st, Skipped)
      else
        let seen :=
          if isInInitializationSuppression && Action_eqb act join
          then {[ userId s ]} ∪ processedUsersDuringInit st
          else processedUsersDuringInit st in
        let '(duration, sessions) :=
          track_session cfg act (userId s) (t_session tk) (userSessions st) in
        let entry := make_entry h s act duration (t_stamp tk) in
        let isInNormalSuppression := t_toast tk <? suppressToastsUntil st in
        let shouldSuppressToast :=
          suppressToastsForExistingUsers cfg
          && (isInNormalSuppression || isInInitializationSuppression)
          && Action_eqb act join in
        (with_tracking st seen sessions, Logged entry shouldSuppressToast)
  end.

Definition step (cfg : Settings) (h : Host) (me myCh : string)
    (st : State) (x : VoiceState * Ticks) : State :=
  match process_state cfg h me myCh st (fst x) (snd x) with
  | (st', Skipped) => st'
  | (st', Logged entry suppressToast) =>
      logVoiceEvent cfg (dataStoreOk h) entry suppressToast st'
  end.

(** The handler: a batch of voice states, each with the clock readings of
    its turn of the loop. *)
Definition VOICE_STATE_UPDATES (cfg : Settings) (h : Host) (p : Prelude)
    (voiceStates : list (VoiceState * Ticks)) (st : State) : State :=
  match voiceStates with
  | [] => st
  | _ :: _ =>
      let st1 := initialize cfg h p st in
      let st2 := track_switch cfg h p (List.map fst voiceStates) st1 in
      match currentUser h with
      | Some me =>
          if truthy (myChannelId h) then
            fold_left (step cfg h me (default EmptyString (myChannelId h)))
                      voiceStates (sweep p st2)
          else st2
      | None => st2
      end
  end.

(** [resetPluginState], run by [start] and [stop]. *)
Definition resetPluginState (st : State) : State :=
  {| lastUserChannelId := None; suppressToastsUntil := 0;
     pluginInitialized := false; initializationSuppressUntil := 0;
     initializationStartTime := 0; processedUsersDuringInit := ∅;
     userSessions := ∅; logs := logs st; toasts := toasts st |}.

End VoiceChannelLogger.

(* ===================================================================== *)
(** * AutoMuter                                                          *)
(* ===================================================================== *)

Module AutoMuter.

Local Open Scope Q_scope.

Record Settings := {
  enablePlugin : bool;
  friendVolume : Q;
  nonFriendVolume : Q;
  enableNoiseDetection : bool;
  noiseThreshold : float;
  muteDuration : Q }.

Definition default_settings : Settings :=
  {| enablePlugin := true; friendVolume := 75; nonFriendVolume := 50;
     enableNoiseDetection := true; noiseThreshold := 80%float;
     muteDuration := 5 |}.

Record VoiceState := {
  userId : string;
  channelId : option string }.

(** The closures handed to [setTimeout], one constructor per call site
    shape, with the variables each closure captures. *)
Inductive Callback :=
| AutoUnmute (uid : string) (unmuteTime : Q)
| ProcessUser (uid : string)
| ProcessExistingUsers.

(** The module-level variables, the host's local volume per user (what
    [setLocalVolume] writes and [getLocalVolume] reads) and the timeouts
    that are pending.  The audio levels and the threshold are the code's
    binary64 numbers: the decision to mute compares a mean that is rounded
    at each sum and at the quotient.  The code keeps no timer handle and never calls
    [clearTimeout]: a pending timeout leaves the list only by firing. *)
Record State := {
  processedUsers : gset string;
  mutedUsers : gmap string Q;
  audioLevels : gmap string (list float);
  currentChannelId : option string;
  localVolume : gmap string Q;
  timers : list Callback }.

Definition initial_state : State :=
  {| processedUsers := ∅; mutedUsers := ∅; audioLevels := ∅;
     currentChannelId := None; localVolume := ∅; timers := [] |}.

(** What a handler reads of the host while it runs. *)
Record Host := {
  currentUserId : option string;        (* UserStore.getCurrentUser()?.id *)
  isFriend : string -> bool;            (* getRelationshipType(id) === 1 *)
  myVoiceChannel : option string;       (* getVoiceStateForUser(me)?.channelId *)
  channelUsers : option (list string);  (* keys of getVoiceStatesForChannel *)
  now : Q }.                            (* Date.now() *)

Definition truthy (o : option string) : bool :=
  match o with
  | Some s => negb (String.eqb s EmptyString)
  | None => false
  end.

Definition set_volume (uid : string) (v : Q) (st : State) : State :=
  {| processedUsers := processedUsers st; mutedUsers := mutedUsers st;
     audioLevels := audioLevels st; currentChannelId := currentChannelId st;
     localVolume := <[uid := v]> (localVolume st); timers := timers st |}.

(** [Math.round]. *)
Definition round (x : Q) : Z := Qfloor (x + (1 # 2)).

(** [setUserVolume]: set, then read back and accept a difference of 2. *)
Definition setUserVolume (uid : string) (volume : Q) (st : State) : bool * State :=
  let st' := set_volume uid (volume / 100) st in
  match localVolume st' !! uid with
  | Some currentVolume =>
      (Qle_bool (Qabs (inject_Z (round (currentVolume * 100)) - volume)) 2, st')
  | None => (true, st')
  end.

Definition setUserMuted (uid : string) (muted : bool) (st : State) : bool * State :=
  (true, set_volume uid (if muted then 0 else 1) st).

Definition is_self (h : Host) (uid : string) : bool :=
  bool_decide (Some uid = currentUserId h).

Definition set_processed (st : State) (s : gset string) : State :=
  {| processedUsers := s; mutedUsers := mutedUsers st;
     audioLevels := audioLevels st; currentChannelId := currentChannelId st;
     localVolume := localVolume st; timers := timers st |}.

Definition processUser (cfg : Settings) (h : Host) (uid : string) (st : State)
  : State :=
  if negb (enablePlugin cfg) then st
  else if is_self h uid then st
  else if bool_decide (uid ∈ processedUsers st) then st
  else
    let targetVolume := if isFriend h uid then friendVolume cfg
                        else nonFriendVolume cfg in
    match setUserVolume uid targetVolume st with
    | (true, st') => set_processed st' ({[ uid ]} ∪ processedUsers st')
    | (false, st') => st'
    end.

Definition setTimeout (cb : Callback) (st : State) : State :=
  {| processedUsers := processedUsers st; mutedUsers := mutedUsers st;
     audioLevels := audioLevels st; currentChannelId := currentChannelId st;
     localVolume := localVolume st; timers := timers st ++ [cb] |}.

Definition set_levels (st : State) (m : gmap string (list float)) : State :=
  {| processedUsers := processedUsers st; mutedUsers := mutedUsers st;
     audioLevels := m; currentChannelId := currentChannelId st;
     localVolume := localVolume st; timers := timers st |}.

Definition set_muted (st : State) (m : gmap string Q) : State :=
  {| processedUsers := processedUsers st; mutedUsers := m;
     audioLevels := audioLevels st; currentChannelId := currentChannelId st;
     localVolume := localVolume st; timers := timers st |}.

(** [levels.push(audioLevel)], then [levels.shift()] when more than 10. *)
Definition push_level (levels : list float) (audioLevel : float) : list float :=
  let l := levels ++ [audioLevel] in
  if (10 <? length l)%nat then tail l else l.

(** The number a length is: counting up by 1 is exact in binary64 for
    every length an array can have. *)
Fixpoint number_of_nat (n : nat) : float :=
  match n with
  | O => 0%float
  | S k => PrimFloat.add (number_of_nat k) 1%float
  end.

(** [levels.reduce((a, b) => a + b, 0) / levels.length], in the binary64
    arithmetic of the code: each sum and the quotient are rounded. *)
Definition average (levels : list float) : float :=
  PrimFloat.div (fold_left PrimFloat.add levels 0%float)
                (number_of_nat (length levels)).

Definition monitorAudioLevel (cfg : Settings) (h : Host) (uid : string)
    (audioLevel : float) (st : State) : State :=
  if negb (enableNoiseDetection cfg) then st
  else if is_self h uid then st
  else
    let levels := push_level (default [] (audioLevels st !! uid)) audioLevel in
    let st1 := set_levels st (<[uid := levels]> (audioLevels st)) in
    if (5 <=? length levels)%nat then
      let avgLevel := average levels in
      if PrimFloat.ltb (noiseThreshold cfg) avgLevel
         && negb (bool_decide (is_Some (mutedUsers st1 !! uid)))
      then
        match setUserMuted uid true st1 with
        | (true, st2) =>
            let unmuteTime := now h + muteDuration cfg * 1000 in
            setTimeout (AutoUnmute uid unmuteTime)
                       (set_muted st2 (<[uid := unmuteTime]> (mutedUsers st2)))
        | (false, st2) => st2
        end
      else st1
    else st1.

(** The scheduled unmute: it acts only while [mutedUsers] still holds, for
    this user, the unmute time the closure captured. *)
Definition autoUnmute (cfg : Settings) (h : Host) (uid : string)
    (unmuteTime : Q) (st : State) : State :=
  match mutedUsers st !! uid with
  | Some t =>
      if Qeq_bool t unmuteTime then
        let st1 := snd (setUserMuted uid false st) in
        processUser cfg h uid (set_muted st1 (delete uid (mutedUsers st1)))
      else st
  | None => st
  end.

Definition processExistingUsers (cfg : Settings) (h : Host) (st : State) : State :=
  if negb (enablePlugin cfg) then st
  else
    match currentUserId h with
    | None => st
    | Some me =>
        if negb (truthy (myVoiceChannel h)) then st
        else
          match channelUsers h with
          | None => st
          | Some uids =>
              fold_left
                (fun acc uid =>
                   if negb (String.eqb uid me)
                   then setTimeout (ProcessUser uid) acc else acc)
                uids st
          end
    end.

Definition clear_channel (st : State) (ch : option string) : State :=
  {| processedUsers := ∅; mutedUsers := ∅; audioLevels := ∅;
     currentChannelId := ch; localVolume := localVolume st;
     timers := timers st |}.

Definition handleVoiceStateUpdate (cfg : Settings) (h : Host)
    (voiceStates : list VoiceState) (st : State) : State :=
  if negb (enablePlugin cfg) then st
  else
    match currentUserId h with
    | None => st
    | Some me =>
        if negb (truthy (myVoiceChannel h)) then clear_channel st None
        else
          let st1 :=
            if negb (bool_decide (currentChannelId st = myVoiceChannel h))
            then setTimeout ProcessExistingUsers
                   (clear_channel st (myVoiceChannel h))
            else st in
          fold_left
            (fun acc vs =>
               if bool_decide (channelId vs = currentChannelId st1)
                  && negb (String.eqb (userId vs) me)
               then setTimeout (ProcessUser (userId vs)) acc else acc)
            voiceStates st1
    end.

Definition handleRelationshipUpdate (cfg : Settings) (st : State) : State :=
  if negb (enablePlugin cfg) then st
  else setTimeout ProcessExistingUsers (set_processed st ∅).

Definition expired (t : Q) (unmuteTime : Q) : bool := Qle_bool unmuteTime t.

(** [cleanupExpiredMutes], run every five seconds by [setInterval]. *)
Definition cleanupExpiredMutes (h : Host) (st : State) : State :=
  let gone := filter (fun kv => expired (now h) (snd kv) = true) (mutedUsers st) in
  {| processedUsers := processedUsers st;
     mutedUsers := filter (fun kv => expired (now h) (snd kv) = false) (mutedUsers st);
     audioLevels := filter (fun kv => gone !! (fst kv) = None) (audioLevels st);
     currentChannelId := currentChannelId st;
     localVolume := localVolume st; timers := timers st |}.

Definition start (st : State) : State := setTimeout ProcessExistingUsers st.

Definition stop (st : State) : State := clear_channel st None.

Definition run_callback (cfg : Settings) (h : Host) (cb : Callback) (st : State)
  : State :=
  match cb with
  | AutoUnmute uid unmuteTime => autoUnmute cfg h uid unmuteTime st
  | ProcessUser uid => processUser cfg h uid st
  | ProcessExistingUsers => processExistingUsers cfg h st
  end.

Definition set_timers (st : State) (l : list Callback) : State :=
  {| processedUsers := processedUsers st; mutedUsers := mutedUsers st;
     audioLevels := audioLevels st; currentChannelId := currentChannelId st;
     localVolume := localVolume st; timers := l |}.

(** What can happen to the plugin.  [Fire n] is the [n]-th pending timeout
    coming due: it leaves the list and its callback runs. *)
Inductive Event :=
| MonitorAudio (uid : string) (audioLevel : float)
| VoiceStateUpdates (voiceStates : list VoiceState)
| RelationshipUpdate
| CleanupTick
| Start
| Stop
| Fire (n : nat).

Definition step (cfg : Settings) (st : State) (x : Host * Event) : State :=
  let h := fst x in
  match snd x with
  | MonitorAudio uid audioLevel => monitorAudioLevel cfg h uid audioLevel st
  | VoiceStateUpdates vs => handleVoiceStateUpdate cfg h vs st
  | RelationshipUpdate => handleRelationshipUpdate cfg st
  | CleanupTick => cleanupExpiredMutes h st
  | Start => start st
  | Stop => stop st
  | Fire n =>
      match timers st !! n with
      | Some cb => run_callback cfg h cb (set_timers st (delete n (timers st)))
      | None => st
      end
  end.

Definition run (cfg : Settings) (trace : list (Host * Event)) (st : State) : State :=
  fold_left (step cfg) trace st.

Definition is_fire (e : Event) : bool :=
  match e with
  | Fire _ => true
  | _ => false
  end.

(** No user's retained audio levels are more than 10. *)
Definition levels_bounded (st : State) : Prop :=
  forall uid levels,
    audioLevels st !! uid = Some levels -> (length levels <= 10)%nat.

End AutoMuter.

(* ===================================================================== *)
(** * Sample data                                                        *)
(* ===================================================================== *)

Module Samples.
Import Json Storage.

Local Open Scope string_scope.

Definition ann : Author :=
  {| author_id := "42"; author_username := "ann";
     author_globalName := Some "Ann"; author_avatar := None |}.

Definition note (i text : string) : LoggedMessage :=
  {| msg_id := i; msg_content := text; msg_timestamp := "2024-05-01T10:00:00.000Z";
     msg_author := ann; msg_attachments := []; msg_embeds := [];
     msg_sticker_items := []; msg_channel_id := "7"; msg_guild_id := None;
     msg_edited_timestamp := None; msg_deleted := Some false;
     msg_deleted_timestamp := None |}.

Definition empty_storage : MessageStorage Store := mkStorage ∅ None.

Definition two_calls : list AddCall :=
  [ {| call_user := "42"; call_message := note "1" "hello";
       call_now := 100; call_ok := true |};
    {| call_user := "42"; call_message := note "1" "hello again";
       call_now := 200; call_ok := true |} ].

(** A message id for each number: that many strokes. *)
Fixpoint strokes (n : nat) : string :=
  match n with
  | O => EmptyString
  | S k => String "|" (strokes k)
  end.

(** A store whose log for user 42 is full. *)
Definition full_storage : MessageStorage Store :=
  mkStorage
    {[ "42" := {| userId := "42";
                  messages := List.map (fun n => note (strokes n) "x")
                                       (seq 1 maxMessagesPerUser);
                  lastUpdated := 0 |} ]}
    None.

(** A text written with an apostrophe where it has a double quote. *)
Definition text (s : string) : jsstring :=
  List.map (fun c => if N.eqb c 39 then 34%N else c) (js s).

Definition one_entry : MessageStorage RawMap :=
  mkStorage [(Some (JStr (js "42")), Some (JObj []))] None.

(** MessageLoggerv2: a message of user 42 in channel 7, and a host in
    which user [me] is logged in and the message store holds it. *)
Definition ann_user : MessageLogger.User :=
  {| MessageLogger.user_id := "42"; MessageLogger.username := "ann";
     MessageLogger.globalName := Some "Ann"; MessageLogger.avatar := None;
     MessageLogger.bot := false |}.

Definition hello : MessageLogger.Message :=
  {| MessageLogger.id := "1"; MessageLogger.content := "hello";
     MessageLogger.timestamp := "2024-05-01T10:00:00.000Z";
     MessageLogger.author := Some ann_user;
     MessageLogger.attachments := []; MessageLogger.embeds := [];
     MessageLogger.sticker_items := []; MessageLogger.channel_id := "7";
     MessageLogger.edited_timestamp := None; MessageLogger.deleted := false |}.

Definition logger_host (me : string) : MessageLogger.Host :=
  {| MessageLogger.currentUserId := Some me;
     MessageLogger.currentGuildId := None;
     MessageLogger.getMessage := fun c i =>
       if String.eqb c "7" && String.eqb i "1" then Some hello else None;
     MessageLogger.nowISO := "2024-05-01T10:05:00.000Z";
     MessageLogger.now := 300; MessageLogger.storageOk := true |}.

Definition hello_cache : MessageLogger.Cache := {[ "1" := hello ]}.

Definition delete_hello : MessageLogger.DeleteEvent :=
  {| MessageLogger.ev_ids := None; MessageLogger.ev_id := "1";
     MessageLogger.ev_channelId := "7" |}.

(** VoiceChannelLogger: the current user [me] sits in voice channel vc1. *)
Definition voice_host : VoiceChannelLogger.Host :=
  {| VoiceChannelLogger.currentUser := Some "me";
     VoiceChannelLogger.myChannelId := Some "vc1";
     VoiceChannelLogger.usersInChannel := Some ["me"; "8"];
     VoiceChannelLogger.getUser := fun _ => None;
     VoiceChannelLogger.getChannel := fun _ => None;
     VoiceChannelLogger.getGuildName := fun _ => None;
     VoiceChannelLogger.dataStoreOk := true |}.

Definition joins (uid : string) : VoiceChannelLogger.VoiceState :=
  {| VoiceChannelLogger.userId := uid;
     VoiceChannelLogger.channelId := Some "vc1";
     VoiceChannelLogger.oldChannelId := None |}.

Definition leaves (uid : string) : VoiceChannelLogger.VoiceState :=
  {| VoiceChannelLogger.userId := uid;
     VoiceChannelLogger.channelId := None;
     VoiceChannelLogger.oldChannelId := Some "vc1" |}.

(** All the clock readings of a turn, or of a prelude, at one instant. *)
Definition at_time (t : Z) : VoiceChannelLogger.Ticks :=
  {| VoiceChannelLogger.t_window := t; VoiceChannelLogger.t_session := t;
     VoiceChannelLogger.t_stamp := t; VoiceChannelLogger.t_toast := t |}.

Definition prelude_at (t : Z) : VoiceChannelLogger.Prelude :=
  {| VoiceChannelLogger.p_start := t; VoiceChannelLogger.p_until := t;
     VoiceChannelLogger.p_switch := t; VoiceChannelLogger.p_sweep := t |}.

Definition voice_entry (t : Z) : VoiceChannelLogger.LogEntry :=
  VoiceChannelLogger.make_entry voice_host (joins "9")
    VoiceChannelLogger.join None t.

Definition unlimited : VoiceChannelLogger.Settings :=
  {| VoiceChannelLogger.enableFileLogging := true;
     VoiceChannelLogger.trackSessionDuration := true;
     VoiceChannelLogger.maxLogEntries := 0;
     VoiceChannelLogger.logOwnActions := false;
     VoiceChannelLogger.onlyLogJoins := false;
     VoiceChannelLogger.userFilter := EmptyString;
     VoiceChannelLogger.showToastNotifications := true;
     VoiceChannelLogger.suppressToastsForExistingUsers := true;
     VoiceChannelLogger.toastDuration := 3;
     VoiceChannelLogger.enableDebugLogging := false |}.

Definition keep_two : VoiceChannelLogger.Settings :=
  {| VoiceChannelLogger.enableFileLogging := true;
     VoiceChannelLogger.trackSessionDuration := true;
     VoiceChannelLogger.maxLogEntries := 2;
     VoiceChannelLogger.logOwnActions := false;
     VoiceChannelLogger.onlyLogJoins := false;
     VoiceChannelLogger.userFilter := EmptyString;
     VoiceChannelLogger.showToastNotifications := true;
     VoiceChannelLogger.suppressToastsForExistingUsers := true;
     VoiceChannelLogger.toastDuration := 3;
     VoiceChannelLogger.enableDebugLogging := false |}.

(** The state after the first batch, read at time 1000, in which user 9
    joins: the plugin is initialised and the start-up window is open. *)
Definition started : VoiceChannelLogger.State :=
  VoiceChannelLogger.VOICE_STATE_UPDATES VoiceChannelLogger.default_settings
    voice_host (prelude_at 1000) [(joins "9", at_time 1000)]
    VoiceChannelLogger.initial_state.

(** AutoMuter: user 9 is loud for five samples in a row. *)
Definition muter_host (t : Q) : AutoMuter.Host :=
  {| AutoMuter.currentUserId := Some "me"; AutoMuter.isFriend := fun _ => false;
     AutoMuter.myVoiceChannel := Some "vc1";
     AutoMuter.channelUsers := Some ["me"; "9"]; AutoMuter.now := t |}.

Definition loud : list (AutoMuter.Host * AutoMuter.Event) :=
  List.map (fun t => (muter_host (inject_Z t),
                      AutoMuter.MonitorAudio "9" 95%float))
           [1000; 1100; 1200; 1300; 1400].

Definition muted_state : AutoMuter.State :=
  AutoMuter.run AutoMuter.default_settings loud AutoMuter.initial_state.

End Samples.

(* ===================================================================== *)
(** * storage.ts: the queries and the constructor                        *)
(* ===================================================================== *)

Module StorageQueries.
Import Json Storage.

(** The values of the Map.  (The Map is kept as a finite map, which does not
    remember the order of insertion: the order of this list is the map's
    own.) *)
Definition values (st : MessageStorage Store) : list UserMessageLog :=
  snd <$> map_to_list (storage st).

Definition getAllMessages (st : MessageStorage Store) : list LoggedMessage :=
  concat (messages <$> values st).

(** [loadFromLocalStorage], [item] being what [localStorage.getItem] gives:
    no item and the empty text leave the store; a text that parses and that
    the Map constructor accepts becomes the store; any other text leaves an
    empty store. *)
Definition loadFromLocalStorage (item : option jsstring)
    (st : MessageStorage RawMap) : MessageStorage RawMap :=
  match item with
  | None => st
  | Some [] => st
  | Some data =>
      match JSON_parse data with
      | Some parsed =>
          match Map_new parsed with
          | Some m => mkStorage m (localStorage st)
          | None => mkStorage [] (localStorage st)
          end
      | None => mkStorage [] (localStorage st)
      end
  end.

(** [new MessageStorage()]: an empty Map, then the load. *)
Definition construct (item : option jsstring) : MessageStorage RawMap :=
  loadFromLocalStorage item (mkStorage [] None).

(** Every log is within the limit. *)
Definition bounded (st : MessageStorage Store) : Prop :=
  forall uid, (length (getMessages uid st) <= maxMessagesPerUser)%nat.

(** Every message is in the log of its author. *)
Definition keyed_by_author (st : MessageStorage Store) : Prop :=
  forall uid m, m ∈ getMessages uid st -> author_id (msg_author m) = uid.

(** The test of [cleanDMMessages] for a message to be kept. *)
Definition kept (currentUserId : string) (m : LoggedMessage) : bool :=
  negb (String.eqb (author_id (msg_author m)) currentUserId
        && bool_decide (msg_guild_id m = None)).

(** The three together. *)
Definition kept_well (st : MessageStorage Store) : Prop :=
  bounded st /\ ids_unique st /\ keyed_by_author st.

End StorageQueries.

(* ===================================================================== *)
(** * MessageLoggerv2: what happens to the store                         *)
(* ===================================================================== *)

Module LoggerEvents.
Import Storage MessageLogger.

(** The calls that reach the store: the three patched handlers of the
    plugin, and the two buttons of the modal (Clear, and Clean DM, which
    goes through the plugin's [cleanDMMessages]). *)
Inductive Event :=
| MessageCreate (message : Message)
| MessageUpdate (message : Message)
| MessageDelete (cache : Cache) (data : DeleteEvent) (isBulk : bool)
| ClearMessages (uid : string)
| CleanDM (targetUserId : string).

(** The store part of the plugin's [cleanDMMessages]: nothing without a
    current user. *)
Definition plugin_cleanDM (h : Host) (targetUserId : string)
    (st : MessageStorage Store) : MessageStorage Store :=
  match currentUserId h with
  | Some me =>
      if String.eqb me EmptyString then st
      else cleanDMMessages targetUserId me (now h) (storageOk h) st
  | None => st
  end.

Definition step (cfg : Settings) (st : MessageStorage Store) (x : Host * Event)
  : MessageStorage Store :=
  let h := fst x in
  match snd x with
  | MessageCreate message => onMessage cfg h message st
  | MessageUpdate message => onMessageUpdate cfg h message st
  | MessageDelete cache data isBulk => snd (handleDelete cfg h cache data isBulk st)
  | ClearMessages uid => clearMessages uid (storageOk h) st
  | CleanDM targetUserId => plugin_cleanDM h targetUserId st
  end.

Definition run (cfg : Settings) (trace : list (Host * Event))
    (st : MessageStorage Store) : MessageStorage Store :=
  fold_left (step cfg) trace st.

(** The ids of a deletion whose turn of the loop of [handleDelete] marks
    the cache: those the message store holds a message for that is not a
    bot's. *)
Definition marked (h : Host) (ch : string) (ids : list string) (j : string)
  : bool :=
  bool_decide (j ∈ ids)
  && match getMessage h ch j with
     | Some m => negb (is_bot m)
     | None => false
     end.

(** The browser storage after some calls, by whether their writes went
    through: it follows the store, or it stays as it was. *)
Definition snapshot_rule (b : bool) (st0 st : MessageStorage Store) : Prop :=
  if b then localStorage st0 = Some (storage st0) ->
            localStorage st = Some (storage st)
  else localStorage st = localStorage st0.

End LoggerEvents.

(* ===================================================================== *)
(** * VoiceChannelLogger: formatting and the logs modal                  *)
(* ===================================================================== *)

Module VoiceView.
Import VoiceChannelLogger.

Local Open Scope string_scope.
Local Open Scope Z_scope.

(** An integer in a template literal: its decimal digits. *)
Definition show (n : Z) : string := NilZero.string_of_int (Z.to_int n).

(** [formatDuration]; [ms] is a whole number of milliseconds.
    [Math.floor] of a quotient is [/], the remainder [%] is [Z.rem]. *)
Definition formatDuration (ms : Z) : string :=
  let seconds := ms / 1000 in
  let minutes := seconds / 60 in
  let hours := minutes / 60 in
  if 0 <? hours then
    show hours +:+ "h " +:+ show (Z.rem minutes 60) +:+ "m "
    +:+ show (Z.rem seconds 60) +:+ "s"
  else if 0 <? minutes then
    show minutes +:+ "m " +:+ show (Z.rem seconds 60) +:+ "s"
  else show seconds +:+ "s".

(** The logs modal.  [LOGS_PER_PAGE], from the stored setting logsPerPage,
    a whole number when there is one; the plugin's options define none, so
    that without a stored value the read gives undefined. *)
Definition LOGS_PER_PAGE (logsPerPage : option Z) : Z :=
  Z.max 10 (Z.min (match logsPerPage with
                   | Some n => if n =? 0 then 50 else n
                   | None => 50
                   end) 200).

(** The filter by action of the modal; [None] is the choice "all". *)
Definition matchesFilter (filter : option Action) (log : LogEntry) : bool :=
  match filter with
  | None => true
  | Some a => Action_eqb (action log) a
  end.

(** [Math.max(1, Math.ceil(length / LOGS_PER_PAGE))]. *)
Definition totalPages (logsPerPage : option Z) (filteredLogs : list LogEntry)
  : Z :=
  Z.max 1 (- ((- Z.of_nat (length filteredLogs)) / LOGS_PER_PAGE logsPerPage)).

(** [filteredLogs.slice(startIndex, endIndex)]. *)
Definition currentPageLogs (logsPerPage : option Z)
    (filteredLogs : list LogEntry) (currentPage : nat) : list LogEntry :=
  let per := Z.to_nat (LOGS_PER_PAGE logsPerPage) in
  take per (drop (currentPage * per) filteredLogs).

(** The statistics of the dashboard. *)
Definition is_action (a : Action) (l : LogEntry) : bool := Action_eqb (action l) a.

Definition has_duration (l : LogEntry) : bool :=
  match sessionDuration l with
  | Some d => negb (d =? 0)
  | None => false
  end.

Definition joinCount (logs : list LogEntry) : nat :=
  length (List.filter (is_action join) logs).

Definition leaveCount (logs : list LogEntry) : nat :=
  length (List.filter (is_action leave) logs).

Definition uniqueUsers (logs : list LogEntry) : nat :=
  size (list_to_set (entry_userId <$> logs) : gset string).

Definition totalSessions (logs : list LogEntry) : nat :=
  length (List.filter has_duration logs).

(** A batch of the handler with the clock readings of its prelude and what
    the host showed. *)
Record Batch := {
  batch_host : Host;
  batch_prelude : Prelude;
  batch_states : list (VoiceState * Ticks) }.

Definition run_batch (cfg : Settings) (st : State) (b : Batch) : State :=
  VOICE_STATE_UPDATES cfg (batch_host b) (batch_prelude b) (batch_states b) st.

Definition run (cfg : Settings) (batches : list Batch) (st : State) : State :=
  fold_left (run_batch cfg) batches st.

(** The entries of the calls whose update went through, the latest first. *)
Definition saved_entries (calls : list (bool * LogEntry)) : list LogEntry :=
  rev (snd <$> List.filter fst calls).

End VoiceView.

(* ===================================================================== *)
(** * AutoMuter: what is asked of its states and traces                  *)
(* ===================================================================== *)

Module MuterSpec.
Import AutoMuter.

(** The samples of a user among some events. *)
Definition is_sample_of (uid : string) (x : Host * Event) : bool :=
  match snd x with
  | MonitorAudio u _ => String.eqb u uid
  | _ => false
  end.

Definition samples (uid : string) (trace : list (Host * Event)) : nat :=
  length (List.filter (is_sample_of uid) trace).

(** Every muted user has an unmute pending for the time of the mute. *)
Definition unmute_pending (st : State) : Prop :=
  forall uid t,
    mutedUsers st !! uid = Some t ->
    exists t', AutoUnmute uid t' ∈ timers st /\ Qeq_bool t t' = true.

(** The events that are not the plugin's own acting on a volume. *)
Definition leaves_volumes (e : Event) : bool :=
  match e with
  | MonitorAudio _ _ | Fire _ => false
  | VoiceStateUpdates _ | RelationshipUpdate | CleanupTick | Start | Stop => true
  end.

(** The volume [processUser] aims at. *)
Definition targetVolume (cfg : Settings) (h : Host) (uid : string) : Q :=
  if isFriend h uid then friendVolume cfg else nonFriendVolume cfg.

(** Nobody is muted, no unmute is pending, and every user has fewer than
    five levels retained even with the samples still to come in [rest]. *)
Definition unheard (st : State) (rest : list (Host * Event)) : Prop :=
  mutedUsers st = ∅
  /\ (forall uid t, AutoUnmute uid t ∉ timers st)
  /\ (forall uid,
        (length (default [] (audioLevels st !! uid)) + samples uid rest < 5)%nat).

End MuterSpec.

(* ===================================================================== *)
(** * More sample data                                                   *)
(* ===================================================================== *)

Module Scenarios.
Local Open Scope string_scope.

(** The message [hello] arrives and is deleted. *)
Definition create_then_delete
  : list (MessageLogger.Host * LoggerEvents.Event) :=
  [ (Samples.logger_host "me", LoggerEvents.MessageCreate Samples.hello);
    (Samples.logger_host "me",
     LoggerEvents.MessageDelete Samples.hello_cache Samples.delete_hello false) ].

(** A batch read at time [t] with one state. *)
Definition batch_of (s : VoiceChannelLogger.VoiceState) (t : Z) : VoiceView.Batch :=
  {| VoiceView.batch_host := Samples.voice_host;
     VoiceView.batch_prelude := Samples.prelude_at t;
     VoiceView.batch_states := [(s, Samples.at_time t)] |}.



(** A bulk deletion of the messages 1 and 2 of channel 7. *)
Definition delete_both : MessageLogger.DeleteEvent :=
  {| MessageLogger.ev_ids := Some ["1"; "2"]; MessageLogger.ev_id := EmptyString;
     MessageLogger.ev_channelId := "7" |}.

(** The first four of the five loud samples. *)
Definition four_loud : list (AutoMuter.Host * AutoMuter.Event) :=
  take 4 Samples.loud.

(** AutoMuter: the state after four of the five loud samples. *)
Definition nearly_muted : AutoMuter.State :=
  AutoMuter.run AutoMuter.default_settings four_loud AutoMuter.initial_state.

Definition stop_and_sweep : list (AutoMuter.Host * AutoMuter.Event) :=
  [ (Samples.muter_host 7000, AutoMuter.Stop);
    (Samples.muter_host 7000, AutoMuter.CleanupTick) ].

End Scenarios.

(* ===================================================================== *)
(** * Properties of the message store                                    *)
(* ===================================================================== *)

Section StorageFacts.
Import Storage.

Implicit Types (st : MessageStorage Store) (l msgs : list LoggedMessage).

Lemma storage_save {M} ok (s : MessageStorage M) :
  storage (saveToLocalStorage ok s) = storage s.
Proof. by destruct ok. Qed.

Lemma limit_take l : limit l = take maxMessagesPerUser l.
Proof.
  unfold limit. destruct (Nat.ltb_spec maxMessagesPerUser (length l)); [done|].
  by rewrite take_ge.
Qed.

Lemma limit_length l : (length (limit l) <= maxMessagesPerUser)%nat.
Proof. rewrite limit_take, length_take. lia. Qed.

Lemma getMessages_addMessage uid m now ok st :
  getMessages uid (addMessage uid m now ok st)
  = limit (upsert m (getMessages uid st)).
Proof.
  unfold getMessages, addMessage. rewrite storage_save. cbn [storage].
  rewrite lookup_insert_eq. by destruct (storage st !! uid).
Qed.

Lemma getMessages_addMessage_ne uid uid' m now ok st :
  uid <> uid' ->
  getMessages uid' (addMessage uid m now ok st) = getMessages uid' st.
Proof.
  intros Hne. unfold getMessages, addMessage. rewrite storage_save.
  cbn [storage]. by rewrite lookup_insert_ne.
Qed.

(** What [findIndex] finds: the first position that satisfies the test. *)
Lemma findIndex_Some {A} (p : A -> bool) (l : list A) i :
  findIndex p l = Some i ->
  exists x, l !! i = Some x /\ p x = true.
Proof.
  revert i. induction l as [|a l IH]; intros i; simpl; [done|].
  destruct (p a) eqn:Hp.
  - intros [= <-]. by exists a.
  - destruct (findIndex p l) as [j|]; [|done].
    intros [= <-]. destruct (IH j eq_refl) as (x & ? & ?). by exists x.
Qed.

Lemma findIndex_None {A} (p : A -> bool) (l : list A) :
  findIndex p l = None -> Forall (fun x => p x = false) l.
Proof.
  induction l as [|a l IH]; simpl; [by constructor|].
  destruct (p a) eqn:Hp; [done|].
  destruct (findIndex p l); [done|]. intros _. constructor; auto.
Qed.

Lemma run_calls_snoc cs c st :
  run_calls (cs ++ [c]) st = run_call (run_calls cs st) c.
Proof. unfold run_calls. by rewrite fold_left_app. Qed.

Lemma getMessages_run_call c uid st :
  getMessages uid (run_call st c)
  = if decide (call_user c = uid)
    then limit (upsert (call_message c) (getMessages uid st))
    else getMessages uid st.
Proof.
  unfold run_call. case_decide as Hu.
  - subst. apply getMessages_addMessage.
  - by apply getMessages_addMessage_ne.
Qed.

Lemma upsert_ids_NoDup m l :
  NoDup (msg_id <$> l) -> NoDup (msg_id <$> upsert m l).
Proof.
  intros Hnd. unfold upsert.
  destruct (findIndex _ l) as [i|] eqn:Hfind.
  - apply findIndex_Some in Hfind as (x & Hx & Heq).
    apply String.eqb_eq in Heq.
    rewrite list_fmap_insert, list_insert_id; [done|].
    by rewrite list_lookup_fmap, Hx, <- Heq.
  - apply findIndex_None in Hfind. rewrite fmap_cons.
    apply NoDup_cons. split; [|done].
    intros Hin. apply list_elem_of_fmap in Hin as (x & Hid & Hx).
    rewrite Forall_forall in Hfind. specialize (Hfind x Hx).
    apply String.eqb_neq in Hfind. congruence.
Qed.

Lemma limit_ids_NoDup l :
  NoDup (msg_id <$> l) -> NoDup (msg_id <$> limit l).
Proof.
  intros Hnd. rewrite limit_take, fmap_take.
  eapply sublist_NoDup; [|apply sublist_take]. done.
Qed.

(** C1.  Bounded retention: whenever a user's log is within the limit, or
    the user is the subject of one of the calls, the log holds at most
    1000 (maxMessagesPerUser) entries after any sequence of [addMessage]
    calls; and each further call leaves the user's log within the limit,
    equal to the first 1000 entries of the log with the message put in,
    which for a message with a new id is the message followed by the 999
    newest of the old entries. *)
Theorem addMessage_bounded_retention
    (cs : list AddCall) (st : MessageStorage Store) (uid : string) :
  (length (getMessages uid st) <= maxMessagesPerUser)%nat
    \/ uid ∈ (call_user <$> cs) ->
  (length (getMessages uid (run_calls cs st)) <= maxMessagesPerUser)%nat
  /\ (forall m now ok,
        let before := getMessages uid (run_calls cs st) in
        let after := getMessages uid (addMessage uid m now ok (run_calls cs st)) in
        (length after <= maxMessagesPerUser)%nat
        /\ after = take maxMessagesPerUser (upsert m before)
        /\ (findIndex (fun x => String.eqb (msg_id x) (msg_id m)) before = None ->
            after = m :: take (maxMessagesPerUser - 1) before)).
Proof.
  intros H. split.
  - revert H. induction cs as [|c cs IH] using rev_ind; intros H.
    + destruct H as [H|H]; [done|]. by apply elem_of_nil in H.
    + rewrite run_calls_snoc, getMessages_run_call. case_decide as Hu.
      * apply limit_length.
      * apply IH. destruct H as [H|H]; [by left|right].
        rewrite fmap_app in H. apply elem_of_app in H as [H|H]; [done|].
        apply list_elem_of_singleton in H. congruence.
  - intros m now ok before after. subst after.
    rewrite getMessages_addMessage. fold before. split; [apply limit_length|].
    split; [apply limit_take|].
    intros Hnew. rewrite limit_take. unfold upsert. by rewrite Hnew.
Qed.


Lemma addMessage_bounded_retention_witness :
  ((length (getMessages "42" Samples.empty_storage) <= maxMessagesPerUser)%nat
   \/ "42" ∈ (call_user <$> Samples.two_calls))
  /\ (length (getMessages "42" (run_calls Samples.two_calls Samples.empty_storage))
      <= maxMessagesPerUser)%nat.
Proof.
  assert (H : (length (getMessages "42" Samples.empty_storage) <= maxMessagesPerUser)%nat
              \/ "42" ∈ (call_user <$> Samples.two_calls)).
  { right. simpl. apply list_elem_of_here. }
  split; [exact H|].
  exact (proj1 (addMessage_bounded_retention
                  Samples.two_calls Samples.empty_storage "42" H)).
Defined.

(** A full log takes a new message at its head and drops its oldest. *)
Example addMessage_full_log :
  let m := Samples.note "new" "y" in
  let after := getMessages "42" (addMessage "42" m 5 true Samples.full_storage) in
  length (getMessages "42" Samples.full_storage) = 1000%nat
  /\ length after = 1000%nat
  /\ head after = Some m
  /\ last after = Some (Samples.note (Samples.strokes 999) "x").
Proof. vm_compute. done. Qed.

(** C10.  Id-uniqueness is kept: from a store whose logs have no two
    entries with the same message id, every state reached by [addMessage]
    calls has that property; and a message whose id is already in the
    user's log is written over the entry that has it, at the same index,
    the log not growing. *)
Theorem addMessage_ids_unique (cs : list AddCall) (st : MessageStorage Store) :
  ids_unique st ->
  ids_unique (run_calls cs st)
  /\ (forall uid m now ok existingIndex,
        let before := getMessages uid (run_calls cs st) in
        let after := getMessages uid (addMessage uid m now ok (run_calls cs st)) in
        findIndex (fun x => String.eqb (msg_id x) (msg_id m)) before
          = Some existingIndex ->
        after = take maxMessagesPerUser (<[existingIndex := m]> before)
        /\ length after = Nat.min maxMessagesPerUser (length before)
        /\ ((existingIndex < maxMessagesPerUser)%nat ->
            after !! existingIndex = Some m)).
Proof.
  intros Hst.
  assert (Hinv : ids_unique (run_calls cs st)).
  { induction cs as [|c cs IH] using rev_ind; [done|].
    intros uid. rewrite run_calls_snoc, getMessages_run_call.
    case_decide; [|apply IH].
    apply limit_ids_NoDup, upsert_ids_NoDup, IH. }
  split; [done|].
  intros uid m now ok i before after Hfind. subst after.
  rewrite getMessages_addMessage. fold before.
  rewrite limit_take. unfold upsert. rewrite Hfind.
  split; [done|]. split.
  - by rewrite length_take, length_insert.
  - intros Hi. rewrite lookup_take_lt by done.
    apply list_lookup_insert_eq.
    apply findIndex_Some in Hfind as (x & Hx & _).
    by eapply lookup_lt_Some.
Qed.




Lemma empty_storage_ids_unique : ids_unique Samples.empty_storage.
Proof. intros uid. unfold getMessages. simpl. rewrite lookup_empty. constructor. Qed.

Lemma addMessage_ids_unique_witness :
  ids_unique Samples.empty_storage
  /\ ids_unique (run_calls Samples.two_calls Samples.empty_storage).
Proof.
  split; [exact empty_storage_ids_unique|].
  exact (proj1 (addMessage_ids_unique Samples.two_calls Samples.empty_storage
                  empty_storage_ids_unique)).
Defined.

(** The second of the two calls is an edit: one entry, the later text. *)
Example addMessage_edit_in_place :
  getMessages "42" (run_calls Samples.two_calls Samples.empty_storage)
  = [Samples.note "1" "hello again"].
Proof. vm_compute. done. Qed.

End StorageFacts.

(* ===================================================================== *)
(** * The parser does not run out of fuel                                *)
(* ===================================================================== *)

Section FuelFacts.
Import Json.

Implicit Types (s rest : jsstring) (v : json).

Lemma skip_ws_length s : (length (skip_ws s) <= length s)%nat.
Proof. induction s as [|c s IH]; simpl; [done|]. destruct (is_ws c); simpl; lia. Qed.

Lemma take_digits_length s :
  (length (snd (take_digits s)) <= length s)%nat.
Proof.
  induction s as [|c s IH]; simpl; [done|].
  destruct (digit c); [|simpl; lia].
  destruct (take_digits s). simpl in *. lia.
Qed.

Lemma strip_prefix_length p s rest :
  strip_prefix p s = Some rest -> (length rest <= length s)%nat.
Proof.
  revert s. induction p as [|a p IH]; intros [|b s]; simpl; try done.
  - by intros [= <-].
  - by intros [= <-].
  - destruct (N.eqb a b); [|done]. intros H. apply IH in H. lia.
Qed.

Lemma parse_chars_length s acc r rest :
  parse_chars s acc = Some (r, rest) -> (length rest < length s)%nat.
Proof.
  remember (length s) as k eqn:Hk.
  revert s acc Hk. induction k as [k IH] using lt_wf_ind. intros s acc ->.
  assert (IH' : forall s' acc', (length s' < length s)%nat ->
                  parse_chars s' acc' = Some (r, rest) ->
                  (length rest < length s')%nat)
    by (intros s' acc' Hlt Hp; eapply IH; eauto).
  clear IH. destruct s as [|c tl]; [done|]. cbn [parse_chars].
  destruct (N.eqb c 34); [intros [= _ <-]; simpl; lia|].
  destruct (N.eqb c 92).
  - destruct tl as [|x tl']; [intros H; discriminate H|].
    repeat (match goal with
            | |- context [if N.eqb x ?k then _ else _] =>
                destruct (N.eqb x k);
                [intros H; apply IH' in H; simpl in *; lia |]
            end).
    intros H. destruct (N.eqb x 117); [|discriminate H].
    destruct tl' as [|h1 [|h2 [|h3 [|h4 tl'']]]]; try discriminate H.
    destruct (hexdigit h1), (hexdigit h2), (hexdigit h3), (hexdigit h4);
      try discriminate H.
    apply IH' in H; simpl in *; lia.
  - destruct (N.ltb c 32); [intros H; discriminate H|].
    intros H. apply IH' in H; simpl in *; lia.
Qed.

Lemma parse_number_length s v rest :
  parse_number s = Some (v, rest) -> (length rest < length s)%nat.
Proof.
  unfold parse_number.
  set (p := match s with
            | c :: tl => if N.eqb c 45 then (true, tl) else (false, s)
            | [] => (false, s)
            end).
  assert (Hp : (length (snd p) <= length s)%nat).
  { subst p. destruct s as [|c tl]; [done|]. destruct (N.eqb c 45); simpl; lia. }
  destruct p as [neg s1]. simpl in Hp.
  destruct (parse_int_part s1) as [[ints s2]|] eqn:Hint; [|done].
  assert (H2 : (length s2 < length s1)%nat).
  { unfold parse_int_part in Hint. destruct s1 as [|c tl]; [done|].
    destruct (N.eqb c 48); [injection Hint as _ <-; simpl; lia|].
    destruct (digit c) eqn:Hd; [|done]. injection Hint as Heq.
    simpl in Heq. rewrite Hd in Heq.
    pose proof (take_digits_length tl) as Hl.
    destruct (take_digits tl). injection Heq as _ <-. simpl in *. lia. }
  destruct (parse_frac_part s2) as [[fracs s3]|] eqn:Hfrac; [|done].
  assert (H3 : (length s3 <= length s2)%nat).
  { unfold parse_frac_part in Hfrac. destruct s2 as [|c tl]; [by injection Hfrac as _ <-|].
    destruct (N.eqb c 46); [|by injection Hfrac as _ <-].
    pose proof (take_digits_length tl) as Hl.
    destruct (take_digits tl) as [[|d ds] r]; [done|].
    injection Hfrac as _ <-. simpl in *. lia. }
  destruct (parse_exp_part s3) as [[ex s4]|] eqn:Hexp; [|done].
  assert (H4 : (length s4 <= length s3)%nat).
  { assert (Hd : forall neg0 t, parse_exp_digits neg0 t = Some (ex, s4) ->
                                (length s4 <= length t)%nat).
    { intros neg0 t. unfold parse_exp_digits.
      pose proof (take_digits_length t) as Hl.
      destruct (take_digits t) as [[|d ds] r]; [done|].
      intros [= _ <-]. simpl in *. lia. }
    unfold parse_exp_part in Hexp. destruct s3 as [|c tl]; [by injection Hexp as _ <-|].
    destruct (N.eqb c 101 || N.eqb c 69); [|by injection Hexp as _ <-].
    destruct tl as [|sg tl']; [done|].
    destruct (N.eqb sg 43); [apply Hd in Hexp; simpl in *; lia|].
    destruct (N.eqb sg 45); [apply Hd in Hexp; simpl in *; lia|].
    apply Hd in Hexp. simpl in *. lia. }
  intros [= _ <-]. lia.
Qed.

Lemma parse_scalar_length c tl v rest :
  parse_scalar c tl = Some (v, rest) -> (length rest <= length tl)%nat.
Proof.
  unfold parse_scalar.
  destruct (N.eqb c 34).
  { destruct (parse_chars tl []) as [[str r]|] eqn:Hc; [|done].
    intros [= _ <-]. apply parse_chars_length in Hc. lia. }
  assert (Hlit : forall (lit : json) p,
            option_map (fun r => (lit, r)) (strip_prefix p tl) = Some (v, rest) ->
            (length rest <= length tl)%nat).
  { intros lit p. destruct (strip_prefix p tl) as [r|] eqn:Hs; [|done].
    intros [= _ <-]. by eapply strip_prefix_length. }
  destruct (N.eqb c 110); [apply Hlit|].
  destruct (N.eqb c 116); [apply Hlit|].
  destruct (N.eqb c 102); [apply Hlit|].
  intros H. apply parse_number_length in H. simpl in H. lia.
Qed.

(** The step the three cases share: the fuel asked for is not 0, so the
    parser takes a turn. *)
Ltac more_fuel :=
  let m := fresh "m" in
  let Hm := fresh "Hm" in
  intros [|m] Hm; [lia|]; cbn [parse_value parse_elements parse_members].

Lemma parse_fuel n :
  fuel_enough (fun k s (_ : unit) => parse_value k s) n
  /\ fuel_enough parse_elements n
  /\ fuel_enough parse_members n.
Proof.
  induction n as [|n (IHv & IHe & IHm)];
    [split; [|split]; intros s a v rest H; discriminate H|].
  assert (Hv : fuel_enough (fun k s (_ : unit) => parse_value k s) (S n)).
  { intros s [] v rest H. cbn [parse_value] in H.
    pose proof (skip_ws_length s) as Hws.
    destruct (skip_ws s) as [|c tl] eqn:Hs; [done|]. simpl in Hws.
    destruct (N.eqb c 123) eqn:Hc1.
    { pose proof (skip_ws_length tl) as Hws'.
      destruct (skip_ws tl) as [|c' tl'] eqn:Htl; [done|]. simpl in Hws'.
      destruct (N.eqb c' 125) eqn:Hc2.
      - injection H as <- <-. split; [lia|].
        more_fuel. by rewrite Hs, Hc1, Htl, Hc2.
      - apply IHm in H as [Hlen Hfuel]. simpl in Hlen. split; [lia|].
        more_fuel. rewrite Hs, Hc1, Htl, Hc2.
        apply Hfuel. simpl. lia. }
    destruct (N.eqb c 91) eqn:Hc3.
    { pose proof (skip_ws_length tl) as Hws'.
      destruct (skip_ws tl) as [|c' tl'] eqn:Htl; [done|]. simpl in Hws'.
      destruct (N.eqb c' 93) eqn:Hc2.
      - injection H as <- <-. split; [lia|].
        more_fuel. by rewrite Hs, Hc1, Hc3, Htl, Hc2.
      - apply IHe in H as [Hlen Hfuel]. split; [lia|].
        more_fuel. rewrite Hs, Hc1, Hc3, Htl, Hc2.
        apply Hfuel. lia. }
    pose proof (parse_scalar_length _ _ _ _ H) as Hlen. split; [lia|].
    more_fuel. by rewrite Hs, Hc1, Hc3. }
  split; [exact Hv|]. split.
  - intros s acc v rest H. cbn [parse_elements] in H.
    destruct (parse_value n s) as [[v1 r1]|] eqn:Hval; [|done].
    apply (IHv s tt) in Hval as [Hlen1 Hfuel1].
    pose proof (skip_ws_length r1) as Hws.
    destruct (skip_ws r1) as [|c tl] eqn:Hr1; [done|]. simpl in Hws.
    destruct (N.eqb c 44) eqn:Hc1.
    + apply IHe in H as [Hlen Hfuel]. split; [lia|].
      more_fuel. rewrite Hfuel1 by lia. rewrite Hr1, Hc1. apply Hfuel. lia.
    + destruct (N.eqb c 93) eqn:Hc2; [|done]. injection H as <- <-.
      split; [lia|].
      more_fuel. rewrite Hfuel1 by lia. by rewrite Hr1, Hc1, Hc2.
  - intros s acc v rest H. cbn [parse_members] in H.
    destruct s as [|q tl]; [done|].
    destruct (N.eqb q 34) eqn:Hq; [|done].
    destruct (parse_chars tl []) as [[k r0]|] eqn:Hkey; [|done].
    pose proof (parse_chars_length _ _ _ _ Hkey) as Hlen0.
    pose proof (skip_ws_length r0) as Hws0.
    destruct (skip_ws r0) as [|c tl'] eqn:Hr0; [done|]. simpl in Hws0.
    destruct (N.eqb c 58) eqn:Hc; [|done].
    destruct (parse_value n tl') as [[v1 r1]|] eqn:Hval; [|done].
    apply (IHv tl' tt) in Hval as [Hlen1 Hfuel1].
    pose proof (skip_ws_length r1) as Hws1.
    destruct (skip_ws r1) as [|c' tl''] eqn:Hr1; [done|]. simpl in Hws1.
    destruct (N.eqb c' 44) eqn:Hc1.
    + pose proof (skip_ws_length tl'') as Hws2.
      apply IHm in H as [Hlen Hfuel]. simpl. split; [lia|].
      more_fuel. rewrite Hq, Hkey, Hr0, Hc. rewrite Hfuel1 by lia. rewrite Hr1, Hc1.
      apply Hfuel. lia.
    + destruct (N.eqb c' 125) eqn:Hc2; [|done]. injection H as <- <-.
      simpl. split; [lia|].
      more_fuel. rewrite Hq, Hkey, Hr0, Hc. rewrite Hfuel1 by lia. by rewrite Hr1, Hc1, Hc2.
Qed.

(** The fuel [JSON_parse] gives is enough: what any amount of fuel parses,
    it parses. *)
Theorem JSON_parse_fuel n text v rest :
  parse_value n text = Some (v, rest) ->
  parse_value (2 * length text + 2) text = Some (v, rest).
Proof.
  intros H. apply (proj1 (parse_fuel n) text tt) in H as [_ Hfuel].
  apply Hfuel. lia.
Qed.

(** [JSON.parse] succeeds on a text exactly when some amount of fuel reads
    a value off it and leaves white space only. *)
Corollary JSON_parse_complete text v :
  JSON_parse text = Some v <->
  exists n rest, parse_value n text = Some (v, rest) /\ skip_ws rest = [].
Proof.
  unfold JSON_parse. split.
  - destruct (parse_value _ text) as [[v' rest]|] eqn:Hp; [|done].
    destruct (skip_ws rest) eqn:Hr; [|done]. intros [= <-]. eauto.
  - intros (n & rest & Hp & Hr). apply JSON_parse_fuel in Hp.
    by rewrite Hp, Hr.
Qed.

End FuelFacts.

(* ===================================================================== *)
(** * Properties of the import                                           *)
(* ===================================================================== *)

Section ImportFacts.
Import Json Storage.

Lemma add_entry_None items : fold_left add_entry items None = None.
Proof. by induction items. Qed.

Lemma entry_of_object item : is_Some (entry_of item) <-> is_object item = true.
Proof. destruct item; simpl; split; intros H; try done; by inversion H. Qed.

Lemma fold_add_entry_Some items m :
  is_Some (fold_left add_entry items (Some m)) <-> forallb is_object items = true.
Proof.
  revert m. induction items as [|item items IH]; intros m; simpl.
  - split; eauto.
  - destruct (entry_of item) as [[k v]|] eqn:He.
    + assert (is_object item = true) as -> by (apply entry_of_object; eauto).
      simpl. apply IH.
    + rewrite add_entry_None.
      assert (is_object item = false) as ->.
      { destruct (is_object item) eqn:Ho; [|done].
        apply entry_of_object in Ho. rewrite He in Ho. by inversion Ho. }
      simpl. split; [by inversion 1|done].
Qed.

(** The Map constructor succeeds on [null], on the empty string and on an
    array all of whose items are arrays or objects, and on nothing else. *)
Lemma Map_new_accepts data :
  is_Some (Map_new data) <-> iterable_of_entries data = true.
Proof.
  destruct data as [| b | m e | s | items | props]; simpl.
  - split; eauto.
  - split; [by inversion 1|done].
  - split; [by inversion 1|done].
  - destruct s; simpl; split; eauto; done.
  - apply fold_add_entry_Some.
  - split; [by inversion 1|done].
Qed.

(** The parser on some texts. *)
Example JSON_parse_log :
  JSON_parse (Samples.text
    "[['42', {'userId': '42', 'messages': [], 'lastUpdated': 1.5e3}]]")
  = Some (JArr [JArr [JStr (js "42");
                      JObj [(js "userId", JStr (js "42"));
                            (js "messages", JArr []);
                            (js "lastUpdated", JNum 15 2)]]]).
Proof. reflexivity. Qed.

Example JSON_parse_escapes :
  JSON_parse (Samples.text "'a\n\u0041'") = Some (JStr [97; 10; 65]%N).
Proof. reflexivity. Qed.

Example JSON_parse_rejects :
  JSON_parse (js EmptyString) = None
  /\ JSON_parse (js "{") = None
  /\ JSON_parse (js "[1,]") = None
  /\ JSON_parse (js "01") = None
  /\ JSON_parse (Samples.text "{'a':1,}") = None
  /\ JSON_parse (js "nul") = None
  /\ JSON_parse (js "[1] x") = None.
Proof. repeat split; reflexivity. Qed.

Example Map_new_on_parsed :
  Map_new (JNum 5 0) = None
  /\ Map_new (JObj []) = None
  /\ Map_new (JStr (js "ab")) = None
  /\ Map_new (JArr [JNum 1 0]) = None
  /\ Map_new JNull = Some []
  /\ Map_new (JArr [JArr [JStr (js "k"); JNum 1 0];
                    JArr [JStr (js "k"); JNum 2 0]])
     = Some [(Some (JStr (js "k")), Some (JNum 2 0))].
Proof. repeat split; reflexivity. Qed.

(** C6, as the code has it.  [importData] returns true exactly when the
    text parses as JSON and the parsed value is one the Map constructor
    accepts (null, the empty string, or an array whose items are all arrays
    or objects); the store is then the Map built from the parsed value.  It
    returns false when parsing fails and also when the text parses to a
    value the Map constructor refuses. *)
Theorem importData_accepts (jsonData : jsstring) (ok : bool)
    (st : MessageStorage RawMap) :
  (fst (importData jsonData ok st) = true <->
     exists data, JSON_parse jsonData = Some data
                  /\ iterable_of_entries data = true)
  /\ (fst (importData jsonData ok st) = true ->
      exists data, JSON_parse jsonData = Some data
                   /\ Map_new data = Some (storage (snd (importData jsonData ok st))))
  /\ (fst (importData jsonData ok st) = false <->
      JSON_parse jsonData = None
      \/ exists data, JSON_parse jsonData = Some data
                      /\ iterable_of_entries data = false).
Proof.
  unfold importData.
  destruct (JSON_parse jsonData) as [data|] eqn:Hparse.
  - destruct (Map_new data) as [m|] eqn:Hmap; cbn [fst snd].
    + assert (Hacc : iterable_of_entries data = true)
        by (apply Map_new_accepts; eauto).
      rewrite storage_save. cbn [storage].
      split; [|split].
      * split; eauto.
      * eauto.
      * split; [done|]. intros [?|(d & [= <-] & Hd)]; congruence.
    + assert (Hrej : iterable_of_entries data = false).
      { destruct (iterable_of_entries data) eqn:Hacc; [|done].
        apply Map_new_accepts in Hacc. rewrite Hmap in Hacc. by inversion Hacc. }
      split; [|split].
      * split; [done|]. intros (d & [= <-] & Hd). congruence.
      * done.
      * split; eauto.
  - cbn [fst snd]. split; [|split].
    + split; [done|]. by intros (d & ? & _).
    + done.
    + split; eauto.
Qed.

Lemma importData_accepts_witness :
  (exists data, JSON_parse (js "[[1, 2], {}]") = Some data
                /\ iterable_of_entries data = true)
  /\ fst (importData (js "[[1, 2], {}]") true Samples.one_entry) = true.
Proof.
  assert (H : exists data, JSON_parse (js "[[1, 2], {}]") = Some data
                           /\ iterable_of_entries data = true).
  { eexists. split; reflexivity. }
  split; [exact H|].
  exact (proj2 (proj1 (importData_accepts (js "[[1, 2], {}]") true
                         Samples.one_entry)) H).
Defined.

(** C6, as stated, fails: the text 5 parses as JSON, and [importData]
    returns false on it and leaves the store as it was. *)
Lemma importData_parsed_but_refused :
  JSON_parse (js "5") = Some (JNum 5 0)
  /\ importData (js "5") true Samples.one_entry = (false, Samples.one_entry).
Proof. split; reflexivity. Qed.


(** An import that succeeds replaces the whole store. *)
Example importData_replaces :
  importData (js "[[1, 2], {}]") true Samples.one_entry
  = (true, mkStorage [(Some (JNum 1 0), Some (JNum 2 0)); (None, None)]
                     (Some [(Some (JNum 1 0), Some (JNum 2 0)); (None, None)])).
Proof. reflexivity. Qed.

(** C9.  A failed import changes nothing: when [importData] returns false,
    the object after the call, its store and its localStorage item, is the
    object before the call. *)
Theorem importData_atomic_on_failure (jsonData : jsstring) (ok : bool)
    (st : MessageStorage RawMap) :
  fst (importData jsonData ok st) = false ->
  snd (importData jsonData ok st) = st.
Proof.
  unfold importData.
  destruct (JSON_parse jsonData) as [data|]; [|done].
  by destruct (Map_new data).
Qed.

Lemma importData_atomic_on_failure_witness :
  fst (importData (js "[[1,2],3]") true Samples.one_entry) = false
  /\ snd (importData (js "[[1,2],3]") true Samples.one_entry) = Samples.one_entry.
Proof.
  split; [reflexivity|].
  apply (importData_atomic_on_failure (js "[[1,2],3]") true Samples.one_entry).
  reflexivity.
Defined.

End ImportFacts.

(* ===================================================================== *)
(** * Properties of the deletion handler                                 *)
(* ===================================================================== *)

Section DeleteFacts.
Import Storage MessageLogger.

Lemma limit_upsert_elem m l :
  (length l <= maxMessagesPerUser)%nat -> m ∈ limit (upsert m l).
Proof.
  intros Hlen. rewrite limit_take. unfold upsert.
  destruct (findIndex _ l) as [i|] eqn:Hfind.
  - apply findIndex_Some in Hfind as (x & Hx & _).
    apply lookup_lt_Some in Hx.
    rewrite take_ge by (rewrite length_insert; lia).
    apply list_elem_of_lookup. exists i. by apply list_lookup_insert_eq.
  - simpl. apply list_elem_of_here.
Qed.

(** [logMessage] either leaves the store or adds the record under its
    author. *)
Lemma logMessage_cases cfg h message isDeleted st :
  logMessage cfg h message isDeleted st = st
  \/ exists a, author message = Some a /\ bot a = false
       /\ (logSelfMessages cfg = true \/ currentUserId h <> Some (user_id a))
       /\ logMessage cfg h message isDeleted st
          = addMessage (user_id a) (logged h a message isDeleted)
                       (now h) (storageOk h) st.
Proof.
  unfold logMessage. destruct (author message) as [a|]; [|by left].
  destruct (bot a) eqn:Hbot; [by left|].
  destruct (logSelfMessages cfg) eqn:Hself; simpl.
  - destruct (shouldLog cfg message isDeleted); [|by left].
    right. exists a. eauto.
  - case_bool_decide as Hme; simpl; [by left|].
    destruct (shouldLog cfg message isDeleted); [|by left].
    right. exists a. repeat split; eauto.
Qed.



Lemma delete_fold_cache cfg h ch ids cache st :
  dom (fst (fold_left (delete_one cfg h ch) ids (cache, st))) = dom cache
  /\ forall j,
       fst (fold_left (delete_one cfg h ch) ids (cache, st)) !! j
       = if LoggerEvents.marked h ch ids j then set_deleted <$> cache !! j else cache !! j.
Proof.
  revert cache st. induction ids as [|i ids IH]; intros cache st.
  - split; [done|]. intros j. unfold LoggerEvents.marked.
    rewrite bool_decide_eq_false_2; [done|]. apply not_elem_of_nil.
  - simpl. unfold delete_one at 2 4. cbn [fst snd].
    assert (Hmark : forall j, LoggerEvents.marked h ch (i :: ids) j
              = (bool_decide (j = i)
                 && match getMessage h ch i with
                    | Some m => negb (is_bot m) | None => false end)
                || LoggerEvents.marked h ch ids j).
    { intros j. unfold LoggerEvents.marked. destruct (decide (j = i)) as [->|Hne].
      - rewrite (bool_decide_eq_true_2 (i ∈ i :: ids)) by left.
        rewrite (bool_decide_eq_true_2 (i = i)) by done. simpl.
        destruct (getMessage h ch i) as [m|]; [|by rewrite andb_false_r].
        destruct (is_bot m); simpl; by rewrite ?andb_false_r.
      - rewrite (bool_decide_eq_false_2 (j = i)) by done. simpl. f_equal.
        apply bool_decide_ext. rewrite elem_of_cons. tauto. }
    destruct (getMessage h ch i) as [message|] eqn:Hget.
    + destruct (is_bot message) eqn:Hbot; simpl.
      * destruct (IH cache st) as [Hd Hl]. split; [done|].
        intros j. rewrite Hl, Hmark. simpl. by rewrite andb_false_r.
      * destruct (IH (alter set_deleted i cache) (logMessage cfg h message true st))
          as [Hd Hl]. split; [by rewrite Hd, dom_alter_L|].
        intros j. rewrite Hl, Hmark. simpl. rewrite andb_true_r.
        destruct (decide (j = i)) as [->|Hne].
        -- rewrite lookup_alter_eq, bool_decide_eq_true_2 by done. simpl.
           destruct (LoggerEvents.marked h ch ids i); [|done].
           by destruct (cache !! i).
        -- rewrite lookup_alter_ne, bool_decide_eq_false_2 by done. done.
    + destruct (IH cache st) as [Hd Hl]. split; [done|].
      intros j. rewrite Hl, Hmark. by rewrite andb_false_r.
Qed.







(** The deletion of another user's message: logged as deleted, and kept in
    the cache with the mark. *)
Example handleDelete_logs_and_marks :
  let r := handleDelete default_settings (Samples.logger_host "me")
             Samples.hello_cache Samples.delete_hello false Samples.empty_storage in
  getMessages "42" (snd r)
    = [logged (Samples.logger_host "me") Samples.ann_user Samples.hello true]
  /\ fst r !! "1" = Some (set_deleted Samples.hello).
Proof. vm_compute. done. Qed.

(** A bulk deletion of the messages 1 and 2, of which the message store
    holds the first: it is logged as deleted and marked in the cache, and
    nothing is removed. *)
Example handleDelete_bulk_logs_and_marks :
  let r := handleDelete default_settings (Samples.logger_host "me")
             Samples.hello_cache Scenarios.delete_both true
             Samples.empty_storage in
  getMessages "42" (snd r)
    = [logged (Samples.logger_host "me") Samples.ann_user Samples.hello true]
  /\ fst r !! "1" = Some (set_deleted Samples.hello)
  /\ dom (fst r) = dom Samples.hello_cache.
Proof.
  split; [vm_compute; done|]. split; [vm_compute; done|].
  apply (proj1 (delete_fold_cache _ _ _ _ _ _)).
Qed.


End DeleteFacts.

(* ===================================================================== *)
(** * Properties of the voice log                                        *)
(* ===================================================================== *)

Section VoiceFacts.
Import VoiceChannelLogger.

Lemma push_entry_take cfg entry old :
  0 < maxLogEntries cfg ->
  push_entry cfg entry old
  = take (Z.to_nat (maxLogEntries cfg)) (entry :: default [] old).
Proof.
  intros Hpos. unfold push_entry.
  destruct (Z.ltb_spec 0 (maxLogEntries cfg)); [|lia]. cbn [andb].
  destruct (Z.ltb_spec (maxLogEntries cfg)
              (Z.of_nat (length (entry :: default [] old)))); [done|].
  rewrite take_ge; [done|lia].
Qed.

Lemma push_entry_length cfg entry old :
  0 < maxLogEntries cfg ->
  Z.of_nat (length (push_entry cfg entry old)) <= maxLogEntries cfg.
Proof. intros Hpos. rewrite push_entry_take by done. rewrite length_take. lia. Qed.

Lemma saveLogEntry_length cfg ok entry old :
  0 < maxLogEntries cfg ->
  Z.of_nat (length (default [] old)) <= maxLogEntries cfg ->
  Z.of_nat (length (default [] (saveLogEntry cfg ok entry old)))
    <= maxLogEntries cfg.
Proof.
  intros Hpos Hold. unfold saveLogEntry.
  destruct (enableFileLogging cfg); cbn [negb]; [|done].
  destruct ok; [|done]. cbn [default]. by apply push_entry_length.
Qed.

(** C2, as the code has it.  For a positive maxLogEntries the persisted log
    is bounded: from a log that is absent or within the maximum, it is
    within the maximum after any sequence of [saveLogEntry] calls; and a
    save that goes through leaves, whatever the log was, the new entry
    first and then the newest of the old ones, the maximum in all. *)
Theorem saveLogEntry_bounded (cfg : Settings) (calls : list (bool * LogEntry))
    (old : option (list LogEntry)) :
  0 < maxLogEntries cfg ->
  Z.of_nat (length (default [] old)) <= maxLogEntries cfg ->
  Z.of_nat (length (default [] (run_saves cfg calls old))) <= maxLogEntries cfg
  /\ (forall entry any,
        enableFileLogging cfg = true ->
        saveLogEntry cfg true entry any
        = Some (take (Z.to_nat (maxLogEntries cfg)) (entry :: default [] any))).
Proof.
  intros Hpos Hold. split.
  - unfold run_saves. revert old Hold.
    induction calls as [|c calls IH]; intros old Hold; [done|].
    cbn [fold_left]. apply IH. by apply saveLogEntry_length.
  - intros entry any Hlog. unfold saveLogEntry. rewrite Hlog. cbn [negb].
    by rewrite push_entry_take.
Qed.

Lemma saveLogEntry_bounded_witness :
  0 < maxLogEntries Samples.keep_two
  /\ Z.of_nat (length (default [] (@None (list LogEntry))))
     <= maxLogEntries Samples.keep_two
  /\ Z.of_nat (length (default []
        (run_saves Samples.keep_two
           [(true, Samples.voice_entry 1); (true, Samples.voice_entry 2);
            (true, Samples.voice_entry 3)] None)))
     <= maxLogEntries Samples.keep_two.
Proof.
  assert (H1 : 0 < maxLogEntries Samples.keep_two) by (simpl; lia).
  assert (H2 : Z.of_nat (length (default [] (@None (list LogEntry))))
               <= maxLogEntries Samples.keep_two) by (simpl; lia).
  split; [exact H1|]. split; [exact H2|].
  exact (proj1 (saveLogEntry_bounded Samples.keep_two
                  [(true, Samples.voice_entry 1); (true, Samples.voice_entry 2);
                   (true, Samples.voice_entry 3)] None H1 H2)).
Defined.

(** With a maximum of 2, three saves leave the two newest, newest first. *)
Example saveLogEntry_keeps_newest :
  run_saves Samples.keep_two
    [(true, Samples.voice_entry 1); (true, Samples.voice_entry 2);
     (true, Samples.voice_entry 3)] None
  = Some [Samples.voice_entry 3; Samples.voice_entry 2].
Proof. reflexivity. Qed.

(** C2, as stated, fails: with maxLogEntries set to 0 one save leaves a log
    of one entry, and three saves a log of three. *)
Lemma saveLogEntry_unlimited_at_zero :
  maxLogEntries Samples.unlimited = 0
  /\ saveLogEntry Samples.unlimited true (Samples.voice_entry 1) None
     = Some [Samples.voice_entry 1]
  /\ ~ (Z.of_nat (length (default []
          (run_saves Samples.unlimited
             [(true, Samples.voice_entry 1); (true, Samples.voice_entry 2);
              (true, Samples.voice_entry 3)] None)))
        <= maxLogEntries Samples.unlimited).
Proof. split; [reflexivity|]. split; [reflexivity|]. simpl. lia. Qed.










Lemma toasts_logVoiceEvent cfg ok e sup st :
  toasts (logVoiceEvent cfg ok e sup st)
  = if showToastNotifications cfg && negb sup
    then toast_of cfg e :: toasts st else toasts st.
Proof. reflexivity. Qed.





(** Two batches after the start at time 1000.  At 2000, inside the start-up
    window, the join of user 10 shows no toast and the leave of user 9
    does; at 7000, outside, both do. *)
Example toasts_inside_and_outside_the_window :
  List.map toast_message
    (toasts (VOICE_STATE_UPDATES default_settings Samples.voice_host
               (Samples.prelude_at 2000)
               [(Samples.joins "10", Samples.at_time 2000);
                (Samples.leaves "9", Samples.at_time 2001)] Samples.started))
  = ["User_9 left Channel_vc1"]
  /\ List.map toast_message
       (toasts (VOICE_STATE_UPDATES default_settings Samples.voice_host
                  (Samples.prelude_at 7000)
                  [(Samples.joins "10", Samples.at_time 7000);
                   (Samples.leaves "9", Samples.at_time 7001)] Samples.started))
     = ["User_9 left Channel_vc1"; "User_10 joined Channel_vc1"].
Proof. vm_compute. done. Qed.

End VoiceFacts.

(* ===================================================================== *)
(** * Properties of AutoMuter                                            *)
(* ===================================================================== *)

Section MuterFacts.
Import AutoMuter.

Implicit Types (st : State) (cfg : Settings) (h : Host).

Lemma push_level_length levels x :
  (length levels <= 10)%nat -> (length (push_level levels x) <= 10)%nat.
Proof.
  intros Hlen. unfold push_level.
  destruct (Nat.ltb_spec 10 (length (levels ++ [x]))) as [Hgt|Hle]; [|done].
  rewrite length_app in Hgt. simpl in Hgt.
  destruct levels; simpl in *; [lia|]. rewrite length_app. simpl. lia.
Qed.

(** [processUser] touches the volumes and the set of processed users. *)
Lemma processUser_frame cfg h uid st :
  audioLevels (processUser cfg h uid st) = audioLevels st
  /\ mutedUsers (processUser cfg h uid st) = mutedUsers st
  /\ timers (processUser cfg h uid st) = timers st.
Proof.
  unfold processUser. destruct (negb (enablePlugin cfg)); [done|].
  destruct (is_self h uid); [done|]. destruct (bool_decide _); [done|].
  unfold setUserVolume. cbn [localVolume set_volume].
  rewrite lookup_insert_eq. by destruct (Qle_bool _ _).
Qed.

(** A loop that only schedules timeouts. *)
Lemma fold_setTimeout_frame {A} (c : A -> bool) (k : A -> Callback)
    (l : list A) st :
  let st' := fold_left (fun acc x => if c x then setTimeout (k x) acc else acc) l st in
  audioLevels st' = audioLevels st /\ timers st `prefix_of` timers st'.
Proof.
  revert st. induction l as [|x l IH]; intros st; [done|].
  cbn [fold_left]. cbn zeta in *. destruct (IH (if c x then setTimeout (k x) st else st))
    as [-> Hpre].
  split; [by destruct (c x)|].
  etrans; [|exact Hpre]. destruct (c x); [|done]. by apply prefix_app_r.
Qed.

Lemma audioLevels_processExistingUsers cfg h st :
  audioLevels (processExistingUsers cfg h st) = audioLevels st.
Proof.
  unfold processExistingUsers. destruct (negb (enablePlugin cfg)); [done|].
  destruct (currentUserId h) as [me|]; [|done].
  destruct (negb (truthy (myVoiceChannel h))); [done|].
  destruct (channelUsers h) as [uids|]; [|done].
  apply (fold_setTimeout_frame (fun uid => negb (String.eqb uid me)) ProcessUser).
Qed.

Lemma audioLevels_run_callback cfg h cb st :
  audioLevels (run_callback cfg h cb st) = audioLevels st.
Proof.
  destruct cb as [uid t|uid|]; cbn [run_callback].
  - unfold autoUnmute. destruct (mutedUsers st !! uid) as [t'|]; [|done].
    destruct (Qeq_bool t' t); [|done].
    by rewrite (proj1 (processUser_frame _ _ _ _)).
  - apply processUser_frame.
  - apply audioLevels_processExistingUsers.
Qed.

Lemma monitorAudioLevel_levels cfg h uid x st :
  audioLevels (monitorAudioLevel cfg h uid x st)
  = if negb (enableNoiseDetection cfg) || is_self h uid then audioLevels st
    else <[uid := push_level (default [] (audioLevels st !! uid)) x]> (audioLevels st).
Proof.
  unfold monitorAudioLevel. destruct (negb (enableNoiseDetection cfg)); [done|].
  destruct (is_self h uid); [done|]. cbn [orb].
  destruct (5 <=? _)%nat; [|done].
  by destruct (PrimFloat.ltb _ _ && _).
Qed.

Lemma timers_monitorAudioLevel cfg h uid x st :
  timers st `prefix_of` timers (monitorAudioLevel cfg h uid x st).
Proof.
  unfold monitorAudioLevel. destruct (negb (enableNoiseDetection cfg)); [done|].
  destruct (is_self h uid); [done|].
  destruct (5 <=? _)%nat; [|done].
  destruct (PrimFloat.ltb _ _ && _); [|done].
  cbn. by apply prefix_app_r.
Qed.

Lemma levels_bounded_step cfg st x :
  levels_bounded st -> levels_bounded (step cfg st x).
Proof.
  intros Hinv. destruct x as [h [uid lvl|vs| | | | |n]]; unfold step; cbn [fst snd].
  - intros u l. rewrite monitorAudioLevel_levels.
    destruct (_ || _); [apply Hinv|].
    destruct (decide (uid = u)) as [->|Hne].
    + rewrite lookup_insert_eq. intros [= <-]. apply push_level_length.
      destruct (audioLevels st !! u) as [l0|] eqn:Hl0; [by eapply Hinv|simpl; lia].
    + rewrite lookup_insert_ne by done. apply Hinv.
  - unfold handleVoiceStateUpdate. destruct (negb (enablePlugin cfg)); [done|].
    destruct (currentUserId h) as [me|]; [|done].
    destruct (negb (truthy (myVoiceChannel h))); [by intros u l|].
    intros u l.
    rewrite (proj1 (fold_setTimeout_frame
               (fun vs0 => bool_decide (channelId vs0 = _)
                           && negb (String.eqb (userId vs0) me))
               (fun vs0 => ProcessUser (userId vs0)) _ _)).
    destruct (negb (bool_decide _)); [done|apply Hinv].
  - unfold handleRelationshipUpdate. by destruct (negb (enablePlugin cfg)).
  - intros u l. cbn [cleanupExpiredMutes audioLevels].
    intros Hl. apply map_lookup_filter_Some in Hl as [Hl _]. by eapply Hinv.
  - done.
  - by intros u l.
  - destruct (timers st !! n) as [cb|]; [|done].
    intros u l. rewrite audioLevels_run_callback. apply Hinv.
Qed.

(** C8.  The audio-level buffer is bounded: in every state the plugin
    reaches from its initial one, whatever the events, no user's retained
    levels are more than 10.  A call of [monitorAudioLevel] that is not
    turned away (noise detection on, not the current user) leaves the
    user's levels with the new one appended, and without the oldest when
    there were 10 already. *)
Theorem audioLevels_bounded (cfg : Settings) :
  (forall trace, levels_bounded (run cfg trace initial_state))
  /\ (forall h uid audioLevel st,
        enableNoiseDetection cfg = true -> is_self h uid = false ->
        audioLevels (monitorAudioLevel cfg h uid audioLevel st) !! uid
        = Some (push_level (default [] (audioLevels st !! uid)) audioLevel))
  /\ (forall levels audioLevel,
        (length levels <= 10)%nat ->
        push_level levels audioLevel
        = if (length levels =? 10)%nat
          then tail levels ++ [audioLevel] else levels ++ [audioLevel]).
Proof.
  split; [|split].
  - intros trace. unfold run.
    assert (Hgen : forall st, levels_bounded st ->
                              levels_bounded (fold_left (step cfg) trace st)).
    { induction trace as [|x trace IH]; intros st Hst; [done|].
      cbn [fold_left]. by apply IH, levels_bounded_step. }
    apply Hgen. by intros u l.
  - intros h uid x st Hon Hself. rewrite monitorAudioLevel_levels, Hon, Hself.
    cbn. apply lookup_insert_eq.
  - intros levels x Hlen. unfold push_level. rewrite length_app. simpl.
    destruct (Nat.eqb_spec (length levels) 10) as [Heq|Hne].
    + rewrite Heq. simpl. destruct levels; [done|reflexivity].
    + destruct (Nat.ltb_spec 10 (length levels + 1)); [lia|done].
Qed.

Lemma audioLevels_bounded_witness :
  enableNoiseDetection default_settings = true
  /\ is_self (Samples.muter_host 1500) "9" = false
  /\ audioLevels (monitorAudioLevel default_settings (Samples.muter_host 1500)
                    "9" 40 Samples.muted_state) !! "9"
     = Some (push_level (default [] (audioLevels Samples.muted_state !! "9")) 40).
Proof.
  split; [reflexivity|]. split; [reflexivity|].
  exact (proj1 (proj2 (audioLevels_bounded default_settings))
           (Samples.muter_host 1500) "9" 40%float Samples.muted_state
           eq_refl eq_refl).
Defined.

(** Twelve samples leave the last ten. *)
Example push_level_drops_oldest :
  fold_left push_level [1; 2; 3; 4; 5; 6; 7; 8; 9; 10; 11; 12]%float []
  = [3; 4; 5; 6; 7; 8; 9; 10; 11; 12]%float.
Proof. reflexivity. Qed.

(** C7, as the code has it.  The scheduled unmute is guarded by the state:
    fired while [mutedUsers] has no entry for the user, or one with another
    unmute time than the one it was scheduled with, it changes nothing;
    fired while the entry is the one it was scheduled with, it removes the
    entry (and so changes the state).  After [stop], which empties
    [mutedUsers], and after a clean-up that found the mute expired, it
    changes nothing.  No timeout is ever cleared: an event
    other than the firing of a timeout leaves every pending timeout
    pending, and a firing runs the callback. *)
Theorem autoUnmute_guarded_by_state (cfg : Settings) (h : Host) (uid : string)
    (unmuteTime : Q) (st : State) :
  ((forall t, mutedUsers st !! uid = Some t -> Qeq_bool t unmuteTime = false) ->
   autoUnmute cfg h uid unmuteTime st = st)
  /\ (forall t, mutedUsers st !! uid = Some t -> Qeq_bool t unmuteTime = true ->
      mutedUsers (autoUnmute cfg h uid unmuteTime st) !! uid = None
      /\ autoUnmute cfg h uid unmuteTime st <> st)
  /\ autoUnmute cfg h uid unmuteTime (stop st) = stop st
  /\ (forall h' t, mutedUsers st !! uid = Some t -> expired (now h') t = true ->
      autoUnmute cfg h uid unmuteTime (cleanupExpiredMutes h' st)
      = cleanupExpiredMutes h' st)
  /\ (forall e, is_fire e = false ->
      timers st `prefix_of` timers (step cfg st (h, e)))
  /\ (forall n cb, timers st !! n = Some cb ->
      step cfg st (h, Fire n)
      = run_callback cfg h cb (set_timers st (delete n (timers st)))).
Proof.
  split; [|split; [|split; [|split; [|split]]]].
  - intros Hguard. unfold autoUnmute.
    destruct (mutedUsers st !! uid) as [t|]; [|done].
    by rewrite (Hguard t eq_refl).
  - intros t Ht Heq. unfold autoUnmute. rewrite Ht, Heq.
    assert (Hm : mutedUsers (processUser cfg h uid
                  (set_muted (snd (setUserMuted uid false st))
                     (delete uid (mutedUsers (snd (setUserMuted uid false st))))))
                 !! uid = None).
    { rewrite (proj1 (proj2 (processUser_frame _ _ _ _))). cbn.
      apply lookup_delete_eq. }
    split; [done|]. intros Heq'. rewrite Heq' in Hm. congruence.
  - unfold autoUnmute, stop. cbn. by rewrite lookup_empty.
  - intros h' t Ht Hexp. unfold autoUnmute.
    assert (mutedUsers (cleanupExpiredMutes h' st) !! uid = None) as ->; [|done].
    cbn [cleanupExpiredMutes mutedUsers]. apply map_lookup_filter_None.
    right. intros t' Ht'. cbn. congruence.
  - intros e He. unfold step. cbn [fst snd].
    destruct e as [u lvl|vs| | | | |n]; try done.
    + apply timers_monitorAudioLevel.
    + unfold handleVoiceStateUpdate. destruct (negb (enablePlugin cfg)); [done|].
      destruct (currentUserId h) as [me|]; [|done].
      destruct (negb (truthy (myVoiceChannel h))); [done|].
      etrans; [|apply (fold_setTimeout_frame
                         (fun vs0 => bool_decide (channelId vs0 = _)
                                     && negb (String.eqb (userId vs0) me))
                         (fun vs0 => ProcessUser (userId vs0)))].
      destruct (negb (bool_decide _)); [|done]. cbn. by apply prefix_app_r.
    + unfold handleRelationshipUpdate. destruct (negb (enablePlugin cfg)); [done|].
      cbn. by apply prefix_app_r.
    + cbn. by apply prefix_app_r.
  - intros n cb Hn. unfold step. cbn [fst snd]. by rewrite Hn.
Qed.

Lemma autoUnmute_guarded_by_state_witness :
  mutedUsers Samples.muted_state !! "9" = Some 6400%Q
  /\ Qeq_bool 6400 6400 = true
  /\ mutedUsers (autoUnmute default_settings (Samples.muter_host 6400) "9" 6400
                   Samples.muted_state) !! "9" = None.
Proof.
  assert (H1 : mutedUsers Samples.muted_state !! "9" = Some 6400%Q)
    by (vm_compute; reflexivity).
  assert (H2 : Qeq_bool 6400 6400 = true) by reflexivity.
  split; [exact H1|]. split; [exact H2|].
  exact (proj1 (proj1 (proj2 (autoUnmute_guarded_by_state default_settings
                  (Samples.muter_host 6400) "9" 6400%Q Samples.muted_state))
                  6400%Q H1 H2)).
Defined.

(** C7, as stated, fails: user 9 has been muted and the unmute is pending;
    [stop] clears no timeout; the timeout fires, and the callback changes
    nothing but its own leaving of the list: the user's volume stays 0. *)
Lemma autoUnmute_noop_after_stop :
  let h := Samples.muter_host 6400 in
  let stopped := stop Samples.muted_state in
  timers Samples.muted_state = [AutoUnmute "9" 6400]
  /\ timers stopped = [AutoUnmute "9" 6400]
  /\ step default_settings stopped (h, Fire 0) = set_timers stopped []
  /\ localVolume (step default_settings stopped (h, Fire 0)) !! "9" = Some 0%Q.
Proof. vm_compute. done. Qed.

(** Left alone, the same timeout unmutes the user. *)
Example autoUnmute_acts_when_still_muted :
  let fired := step default_settings Samples.muted_state
                 (Samples.muter_host 6400, Fire 0) in
  mutedUsers fired !! "9" = None
  /\ timers fired = []
  /\ localVolume fired !! "9" = Some ((50 # 1) / (100 # 1))%Q.
Proof. vm_compute. done. Qed.

End MuterFacts.

(* ===================================================================== *)
(** * The message store: queries, clearing and cleaning                 *)
(* ===================================================================== *)

Section StoreQueryFacts.
Import Json Storage StorageQueries.
Local Open Scope string_scope.
Local Open Scope list_scope.

Implicit Types (st : MessageStorage Store) (l msgs : list LoggedMessage).

Lemma getMessages_clearMessages uid u ok st :
  getMessages u (clearMessages uid ok st)
  = if decide (uid = u) then [] else getMessages u st.
Proof.
  unfold getMessages, clearMessages. rewrite storage_save. cbn [storage].
  case_decide as Hu.
  - subst. by rewrite lookup_delete_eq.
  - by rewrite lookup_delete_ne.
Qed.

Lemma getMessages_cleanDMMessages target me now ok u st :
  getMessages u (cleanDMMessages target me now ok st)
  = if decide (target = u) then List.filter (kept me) (getMessages u st)
    else getMessages u st.
Proof.
  unfold getMessages, cleanDMMessages. rewrite storage_save. cbn [storage].
  case_decide as Hu.
  - subst. destruct (storage st !! u) as [lg|] eqn:Hl.
    + by rewrite lookup_insert_eq.
    + by rewrite Hl.
  - destruct (storage st !! target) as [lg|] eqn:Hl; [|done].
    by rewrite lookup_insert_ne.
Qed.

(** X1.  Clearing.  [clearMessages] leaves the user with no messages and a
    count of 0, and the logs of the other users as they were; a message
    added after it is the only one of the user's log; [clearAllMessages]
    leaves every user with no messages. *)
Theorem clearMessages_then_addMessage (uid : string) (m : LoggedMessage)
    (now : Z) (ok ok' : bool) (st : MessageStorage Store) :
  getMessages uid (clearMessages uid ok st) = []
  /\ getMessageCount uid (clearMessages uid ok st) = 0%nat
  /\ (forall other, other <> uid ->
      getMessages other (clearMessages uid ok st) = getMessages other st)
  /\ getMessages uid (addMessage uid m now ok' (clearMessages uid ok st)) = [m]
  /\ (forall u, getMessages u (clearAllMessages ok st) = []).
Proof.
  split; [|split; [|split; [|split]]].
  - rewrite getMessages_clearMessages. by rewrite decide_True.
  - unfold getMessageCount, clearMessages. rewrite storage_save. cbn [storage].
    by rewrite lookup_delete_eq.
  - intros other Hne. rewrite getMessages_clearMessages. by rewrite decide_False.
  - rewrite getMessages_addMessage, getMessages_clearMessages.
    by rewrite decide_True.
  - intros u. unfold getMessages, clearAllMessages. rewrite storage_save.
    cbn [storage]. by rewrite lookup_empty.
Qed.

Lemma filter_twice {A} (p : A -> bool) (l : list A) :
  List.filter p (List.filter p l) = List.filter p l.
Proof.
  induction l as [|x l IH]; [done|]. simpl.
  destruct (p x) eqn:Hp; [|exact IH]. simpl. rewrite Hp. by f_equal.
Qed.

Lemma filter_sublist {A} (p : A -> bool) (l : list A) :
  List.filter p l `sublist_of` l.
Proof.
  induction l as [|x l IH]; [done|]. simpl.
  destruct (p x); [by apply sublist_skip|by apply sublist_cons].
Qed.

Lemma filter_all {A} (p : A -> bool) (l : list A) :
  Forall (fun x => p x = true) l -> List.filter p l = l.
Proof. induction 1 as [|x l Hx _ IH]; [done|]. simpl. rewrite Hx. by f_equal. Qed.

(** What is kept is not a direct message of the current user. *)
Lemma kept_spec me m :
  kept me m = true <->
  ~ (author_id (msg_author m) = me /\ msg_guild_id m = None).
Proof.
  unfold kept. rewrite negb_true_iff, andb_false_iff, String.eqb_neq.
  rewrite bool_decide_eq_false. split.
  - intros [H|H] [H1 H2]; auto.
  - intros H. destruct (decide (author_id (msg_author m) = me)); [|by left].
    right. intros Hn. by apply H.
Qed.

(** X2.  [cleanDMMessages] of the store keeps, of the target's log, the
    messages that are not both written by the current user and without a
    guild, in their order, and leaves the other logs; a second run changes
    nothing more; the bound and the uniqueness of the ids are kept.  In a
    store that holds every message under its author, the log of a target
    other than the current user keeps all its messages. *)
Theorem cleanDMMessages_removes_own_DMs (target me : string) (now : Z)
    (ok : bool) (st : MessageStorage Store) :
  let st' := cleanDMMessages target me now ok st in
  getMessages target st' = List.filter (kept me) (getMessages target st)
  /\ (forall m, m ∈ getMessages target st' <->
                m ∈ getMessages target st
                /\ ~ (author_id (msg_author m) = me /\ msg_guild_id m = None))
  /\ (forall other, other <> target ->
      getMessages other st' = getMessages other st)
  /\ (forall now' ok',
      getMessages target (cleanDMMessages target me now' ok' st')
      = getMessages target st')
  /\ (bounded st -> bounded st')
  /\ (ids_unique st -> ids_unique st')
  /\ (keyed_by_author st -> target <> me ->
      getMessages target st' = getMessages target st).
Proof.
  intros st'. subst st'.
  assert (Hget : getMessages target (cleanDMMessages target me now ok st)
                 = List.filter (kept me) (getMessages target st)).
  { rewrite getMessages_cleanDMMessages. by rewrite decide_True. }
  split; [exact Hget|]. split; [|split; [|split; [|split; [|split]]]].
  - intros m. rewrite Hget, !list_elem_of_In, filter_In, kept_spec. tauto.
  - intros other Hne. rewrite getMessages_cleanDMMessages. by rewrite decide_False.
  - intros now' ok'. rewrite getMessages_cleanDMMessages, decide_True by done.
    rewrite Hget. apply filter_twice.
  - intros Hb u. rewrite getMessages_cleanDMMessages. case_decide; [|apply Hb].
    etrans; [|apply (Hb u)]. apply sublist_length, filter_sublist.
  - intros Hu u. rewrite getMessages_cleanDMMessages. case_decide; [|apply Hu].
    eapply sublist_NoDup; [apply Hu|]. apply fmap_sublist, filter_sublist.
  - intros Hkey Hne. rewrite Hget. apply filter_all.
    apply Forall_forall. intros m Hm. apply kept_spec. intros [Ha _].
    apply Hne. rewrite <- Ha. symmetry. by apply Hkey.
Qed.

(** [findIndex] returns the first match, and nothing before it matches. *)
Lemma findIndex_first {A} (p : A -> bool) (l : list A) i :
  findIndex p l = Some i ->
  forall j y, (j < i)%nat -> l !! j = Some y -> p y = false.
Proof.
  revert i. induction l as [|a l IH]; intros i; simpl; [done|].
  destruct (p a) eqn:Hp.
  - intros [= <-] j y Hj. lia.
  - destruct (findIndex p l) as [k|] eqn:Hk; [|done].
    intros [= <-] [|j] y Hj; simpl; [by intros [= <-]|].
    intros Hy. eapply (IH k eq_refl j); [lia|done].
Qed.

Lemma findIndex_intro {A} (p : A -> bool) (l : list A) i x :
  l !! i = Some x -> p x = true ->
  (forall j y, (j < i)%nat -> l !! j = Some y -> p y = false) ->
  findIndex p l = Some i.
Proof.
  revert i. induction l as [|a l IH]; intros [|i]; simpl; try done.
  - intros [= <-] Hp _. by rewrite Hp.
  - intros Hx Hp Hbefore.
    rewrite (Hbefore 0%nat a) by (done || lia).
    erewrite IH; eauto. intros j y Hj Hy. apply (Hbefore (S j) y); [lia|done].
Qed.

Lemma NoDup_fmap_eq {A B} (f : A -> B) (l : list A) x y :
  NoDup (f <$> l) -> x ∈ l -> y ∈ l -> f x = f y -> x = y.
Proof.
  induction l as [|a l IH]; [by intros _ Hx; apply elem_of_nil in Hx|].
  rewrite fmap_cons, NoDup_cons. intros [Hnotin Hnd] Hx Hy Hf.
  apply elem_of_cons in Hx as [->|Hx], Hy as [->|Hy]; auto.
  - exfalso. apply Hnotin. rewrite Hf. by apply list_elem_of_fmap_2.
  - exfalso. apply Hnotin. rewrite <- Hf. by apply list_elem_of_fmap_2.
Qed.

Lemma limit_upsert_subset m l x :
  x ∈ limit (upsert m l) -> x = m \/ x ∈ l.
Proof.
  rewrite limit_take. intros Hx. apply subseteq_take in Hx. unfold upsert in Hx.
  destruct (findIndex _ l) as [i|]; [|by apply elem_of_cons in Hx].
  apply list_elem_of_lookup in Hx as [j Hj].
  destruct (decide (i = j)) as [->|Hne].
  - destruct (decide (j < length l)%nat).
    + rewrite list_lookup_insert_eq in Hj by done. left. congruence.
    + rewrite list_insert_ge in Hj by lia. right. by eapply list_elem_of_lookup_2.
  - rewrite list_lookup_insert_ne in Hj by done. right.
    by eapply list_elem_of_lookup_2.
Qed.

(** The entries with one id, in a log without duplicates that holds [m]. *)
Lemma filter_same_id m l :
  NoDup (msg_id <$> l) -> m ∈ l ->
  List.filter (fun x => String.eqb (msg_id x) (msg_id m)) l = [m].
Proof.
  induction l as [|a l IH]; intros Hnd Hin; [by apply elem_of_nil in Hin|].
  simpl. rewrite fmap_cons, NoDup_cons in Hnd. destruct Hnd as [Hnotin Hnd].
  destruct (String.eqb_spec (msg_id a) (msg_id m)) as [Heq|Hne].
  - assert (a = m) as ->.
    { apply elem_of_cons in Hin as [->|Hin]; [done|].
      exfalso. apply Hnotin. rewrite Heq. by apply list_elem_of_fmap_2. }
    f_equal. clear -Hnotin. induction l as [|b l IH]; [done|]. simpl.
    rewrite fmap_cons, not_elem_of_cons in Hnotin. destruct Hnotin as [Hb Hl].
    destruct (String.eqb_spec (msg_id b) (msg_id m)); [congruence|]. by apply IH.
  - apply IH; [done|]. apply elem_of_cons in Hin as [->|Hin]; done.
Qed.

(** X3.  Insert, then look up.  After [addMessage] on a log within the limit
    and without two entries of one id, the message is in the user's log,
    it is the only entry with its id, and every other entry was there
    before. *)
Theorem addMessage_then_find (uid : string) (m : LoggedMessage) (now : Z)
    (ok : bool) (st : MessageStorage Store) :
  (length (getMessages uid st) <= maxMessagesPerUser)%nat ->
  NoDup (msg_id <$> getMessages uid st) ->
  let after := getMessages uid (addMessage uid m now ok st) in
  m ∈ after
  /\ (forall x, x ∈ after -> msg_id x = msg_id m -> x = m)
  /\ List.filter (fun x => String.eqb (msg_id x) (msg_id m)) after = [m]
  /\ (forall x, x ∈ after -> x = m \/ x ∈ getMessages uid st).
Proof.
  intros Hlen Hnd after. subst after. rewrite getMessages_addMessage.
  set (before := getMessages uid st) in *.
  assert (Hin : m ∈ limit (upsert m before)) by by apply limit_upsert_elem.
  assert (Hnd' : NoDup (msg_id <$> limit (upsert m before)))
    by by apply limit_ids_NoDup, upsert_ids_NoDup.
  split; [done|]. split; [|split].
  - intros x Hx Hid. by eapply (NoDup_fmap_eq msg_id).
  - by apply filter_same_id.
  - intros x. apply limit_upsert_subset.
Qed.

Lemma findIndex_lt {A} (p : A -> bool) (l : list A) i :
  findIndex p l = Some i -> (i < length l)%nat.
Proof.
  intros H. apply findIndex_Some in H as (x & Hx & _).
  by eapply lookup_lt_Some.
Qed.

Lemma upsert_limit_upsert m l :
  (length l <= maxMessagesPerUser)%nat ->
  upsert m (limit (upsert m l)) = limit (upsert m l).
Proof.
  intros Hlen. rewrite limit_take. unfold upsert at 2 3.
  destruct (findIndex _ l) as [i|] eqn:Hfind.
  - pose proof (findIndex_lt _ _ _ Hfind) as Hi.
    rewrite take_ge by (rewrite length_insert; lia).
    unfold upsert.
    assert (Hagain : findIndex (fun x => String.eqb (msg_id x) (msg_id m))
                       (<[i:=m]> l) = Some i).
    { apply (findIndex_intro _ _ i m).
      - by rewrite list_lookup_insert_eq.
      - apply String.eqb_refl.
      - intros j y Hj Hy. rewrite list_lookup_insert_ne in Hy by lia.
        exact (findIndex_first _ _ _ Hfind j y Hj Hy). }
    rewrite Hagain. by rewrite list_insert_insert_eq.
  - unfold maxMessagesPerUser. cbn [take]. unfold upsert. cbn [findIndex].
    by rewrite String.eqb_refl.
Qed.

Lemma getMessageCount_length uid st :
  getMessageCount uid st = length (getMessages uid st).
Proof. unfold getMessageCount, getMessages. by destruct (storage st !! uid). Qed.

(** X4.  Adding twice.  On a log within the limit, a second [addMessage] of
    the same message leaves the messages and the count of every user as
    the first left them. *)
Theorem addMessage_twice (uid : string) (m : LoggedMessage) (now now' : Z)
    (ok ok' : bool) (st : MessageStorage Store) :
  (length (getMessages uid st) <= maxMessagesPerUser)%nat ->
  let once := addMessage uid m now ok st in
  let twice := addMessage uid m now' ok' once in
  getMessages uid twice = getMessages uid once
  /\ (forall other, getMessages other twice = getMessages other once)
  /\ getMessageCount uid twice = getMessageCount uid once.
Proof.
  intros Hlen once twice. subst once twice.
  assert (Hsame : getMessages uid (addMessage uid m now' ok' (addMessage uid m now ok st))
                  = getMessages uid (addMessage uid m now ok st)).
  { rewrite !getMessages_addMessage.
    rewrite (upsert_limit_upsert m _ Hlen). rewrite !limit_take.
    by rewrite take_take. }
  split; [done|]. split.
  - intros other. destruct (decide (uid = other)) as [<-|Hne]; [done|].
    by rewrite getMessages_addMessage_ne.
  - by rewrite !getMessageCount_length, Hsame.
Qed.

Lemma elem_of_concat {A} (x : A) (ls : list (list A)) :
  x ∈ concat ls <-> exists xs : list A, x ∈ xs /\ xs ∈ ls.
Proof.
  induction ls as [|a ls IH]; simpl.
  - split; [by intros H; apply elem_of_nil in H|].
    by intros (xs & _ & H); apply elem_of_nil in H.
  - rewrite elem_of_app, IH. split.
    + intros [H|(xs & Hx & Hxs)]; [exists a; split; [done|left]|].
      exists xs. split; [done|by right].
    + intros (xs & Hx & Hxs). apply elem_of_cons in Hxs as [->|Hxs]; [by left|].
      right. by exists xs.
Qed.

(** X5.  [getAllMessages] holds the messages of the users' logs, and only
    those. *)
Theorem getAllMessages_elem (st : MessageStorage Store) (m : LoggedMessage) :
  m ∈ getAllMessages st <-> exists uid, m ∈ getMessages uid st.
Proof.
  unfold getAllMessages, values, getMessages. rewrite elem_of_concat. split.
  - intros (l & Hm & Hl).
    apply list_elem_of_fmap in Hl as (log & -> & Hlog).
    apply list_elem_of_fmap in Hlog as ([uid log'] & -> & Hin).
    apply elem_of_map_to_list in Hin. exists uid. by rewrite Hin.
  - intros (uid & Hm). destruct (storage st !! uid) as [log|] eqn:Hlog;
      [|by apply elem_of_nil in Hm].
    exists (messages log). split; [done|].
    apply list_elem_of_fmap. exists log. split; [done|].
    apply list_elem_of_fmap. exists (uid, log). split; [done|].
    by apply elem_of_map_to_list.
Qed.

(** X6.  A new storage object.  Nothing has been written to the browser
    storage by it; without a stored item it is empty; with one it holds the
    Map [importData] makes of the same text when [importData] accepts the
    text, and is empty when [importData] refuses it (the empty text
    included). *)
Theorem construct_loads_item (item : option jsstring) :
  localStorage (construct item) = None
  /\ match item with
     | None => storage (construct item) = []
     | Some text =>
         forall ok (old : MessageStorage RawMap),
           storage (construct item)
           = match importData text ok old with
             | (true, st') => storage st'
             | (false, _) => []
             end
     end.
Proof.
  split; [unfold construct, loadFromLocalStorage;
          by repeat (case_match; try done)|].
  destruct item as [text|]; [|done]. intros ok old.
  unfold construct, loadFromLocalStorage, importData.
  destruct text as [|c text].
  - by vm_compute.
  - destruct (JSON_parse (c :: text)) as [v|]; [|done].
    destruct (Map_new v); [|done]. by rewrite storage_save.
Qed.

Lemma empty_log_within_limit uid :
  (length (getMessages uid Samples.empty_storage) <= maxMessagesPerUser)%nat.
Proof.
  unfold getMessages. cbn [storage Samples.empty_storage].
  rewrite lookup_empty. cbn [length]. lia.
Qed.

Lemma empty_log_NoDup uid :
  NoDup (msg_id <$> getMessages uid Samples.empty_storage).
Proof.
  unfold getMessages. cbn [storage Samples.empty_storage].
  rewrite lookup_empty. constructor.
Qed.

Lemma empty_storage_kept_well : kept_well Samples.empty_storage.
Proof.
  split; [intros uid; apply empty_log_within_limit|].
  split; [intros uid; apply empty_log_NoDup|].
  intros uid m. unfold getMessages. cbn [storage Samples.empty_storage].
  rewrite lookup_empty. intros Hm. by apply elem_of_nil in Hm.
Qed.

Lemma addMessage_then_find_witness :
  (length (getMessages "42" Samples.empty_storage) <= maxMessagesPerUser)%nat
  /\ NoDup (msg_id <$> getMessages "42" Samples.empty_storage)
  /\ Samples.note "1" "hello"
     ∈ getMessages "42" (addMessage "42" (Samples.note "1" "hello") 100 true
                           Samples.empty_storage).
Proof.
  split; [apply empty_log_within_limit|]. split; [apply empty_log_NoDup|].
  exact (proj1 (addMessage_then_find "42" (Samples.note "1" "hello") 100 true
                  Samples.empty_storage (empty_log_within_limit "42")
                  (empty_log_NoDup "42"))).
Defined.

Lemma addMessage_twice_witness :
  (length (getMessages "42" Samples.empty_storage) <= maxMessagesPerUser)%nat
  /\ getMessages "42"
       (addMessage "42" (Samples.note "1" "hello") 200 true
          (addMessage "42" (Samples.note "1" "hello") 100 true
             Samples.empty_storage))
     = getMessages "42"
         (addMessage "42" (Samples.note "1" "hello") 100 true
            Samples.empty_storage).
Proof.
  split; [apply empty_log_within_limit|].
  exact (proj1 (addMessage_twice "42" (Samples.note "1" "hello") 100 200 true true
                  Samples.empty_storage (empty_log_within_limit "42"))).
Defined.

End StoreQueryFacts.

(* ===================================================================== *)
(** * MessageLoggerv2: the plugin's calls on the store                  *)
(* ===================================================================== *)

Section LoggerFacts.
Import Storage StorageQueries MessageLogger LoggerEvents.
Local Open Scope string_scope.
Local Open Scope list_scope.

Implicit Types (st : MessageStorage Store) (l msgs : list LoggedMessage).

Lemma addMessage_kept_well uid m now ok st :
  author_id (msg_author m) = uid ->
  kept_well st -> kept_well (addMessage uid m now ok st).
Proof.
  intros Hauthor (Hb & Hu & Hk). split; [|split].
  - intros u. destruct (decide (uid = u)) as [<-|Hne].
    + rewrite getMessages_addMessage. apply limit_length.
    + rewrite getMessages_addMessage_ne by done. apply Hb.
  - intros u. destruct (decide (uid = u)) as [<-|Hne].
    + rewrite getMessages_addMessage. by apply limit_ids_NoDup, upsert_ids_NoDup.
    + rewrite getMessages_addMessage_ne by done. apply Hu.
  - intros u x. destruct (decide (uid = u)) as [<-|Hne].
    + rewrite getMessages_addMessage. intros Hx.
      apply limit_upsert_subset in Hx as [->|Hx]; [done|by apply Hk].
    + rewrite getMessages_addMessage_ne by done. apply Hk.
Qed.

Lemma logMessage_kept_well cfg h message isDeleted st :
  kept_well st -> kept_well (logMessage cfg h message isDeleted st).
Proof.
  intros Hst. destruct (logMessage_cases cfg h message isDeleted st)
    as [->|(a & _ & _ & _ & ->)]; [done|].
  by apply addMessage_kept_well.
Qed.

Lemma handleDelete_store_ind (P : MessageStorage Store -> Prop) cfg h cache
    data isBulk st :
  (forall message s, P s -> P (logMessage cfg h message true s)) ->
  P st -> P (snd (handleDelete cfg h cache data isBulk st)).
Proof.
  intros Hstep. unfold handleDelete.
  destruct (if isBulk then ev_ids data else Some [ev_id data]) as [ids|]; [|done].
  revert cache st. induction ids as [|i ids IH]; intros cache st Hst; [done|].
  simpl. unfold delete_one at 2. cbn [fst snd].
  destruct (getMessage h (ev_channelId data) i) as [message|]; [|by apply IH].
  destruct (negb (is_bot message)); [|by apply IH].
  apply IH. by apply Hstep.
Qed.

Lemma step_kept_well cfg st x : kept_well st -> kept_well (step cfg st x).
Proof.
  intros Hst. destruct x as [h [message|message|cache data isBulk|uid|target]];
    unfold step; cbn [fst snd].
  - by apply logMessage_kept_well.
  - unfold onMessageUpdate. destruct (truthy _); [|done].
    by apply logMessage_kept_well.
  - apply handleDelete_store_ind; [|done].
    intros message s. apply logMessage_kept_well.
  - destruct Hst as (Hb & Hu & Hk). split; [|split]; intros u;
      [specialize (Hb u)|specialize (Hu u)|specialize (Hk u)];
      rewrite getMessages_clearMessages; case_decide; try done.
    + simpl. lia.
    + simpl. constructor.
    + intros m Hm. by apply elem_of_nil in Hm.
  - unfold plugin_cleanDM. destruct (currentUserId h) as [me|]; [|done].
    destruct (String.eqb me EmptyString); [done|].
    destruct Hst as (Hb & Hu & Hk). split; [|split]; intros u;
      [specialize (Hb u)|specialize (Hu u)|specialize (Hk u)];
      rewrite getMessages_cleanDMMessages; case_decide; try done.
    + pose proof (filter_sublist (kept me) (getMessages u st)) as Hs.
      apply sublist_length in Hs. lia.
    + eapply sublist_NoDup; [apply Hu|].
      apply fmap_sublist, filter_sublist.
    + intros m Hm. apply Hk.
      apply list_elem_of_In, filter_In in Hm as [Hm _].
      by apply list_elem_of_In.
Qed.

(** X7.  The store under the plugin.  Whatever messages arrive, are edited
    or deleted, and whatever logs are cleared or cleaned, a store that
    starts with every log within the limit, no two entries of one id in a
    log and every message under its author stays so. *)
Theorem logger_store_invariants (cfg : Settings) (trace : list (Host * Event))
    (st : MessageStorage Store) :
  bounded st -> ids_unique st -> keyed_by_author st ->
  let st' := run cfg trace st in
  bounded st' /\ ids_unique st' /\ keyed_by_author st'.
Proof.
  intros Hb Hu Hk. cbn zeta. change (kept_well (run cfg trace st)).
  assert (Hst : kept_well st) by done. clear Hb Hu Hk.
  revert st Hst. unfold run.
  induction trace as [|x trace IH]; intros st Hst; [done|].
  simpl. by apply IH, step_kept_well.
Qed.

(** X8.  What is never logged.  A message without an author, a bot's
    message, and with logSelfMessages off a message of the current user
    leave the store as it is, in [logMessage], [onMessage] and
    [onMessageUpdate]; and with logSelfMessages off no deletion, single or
    bulk, changes the current user's log. *)
Theorem own_and_bot_messages_not_logged (cfg : Settings) (h : Host)
    (st : MessageStorage Store) :
  (forall message isDeleted,
     match author message with
     | None => True
     | Some a => bot a = true
                 \/ (logSelfMessages cfg = false
                     /\ currentUserId h = Some (user_id a))
     end ->
     logMessage cfg h message isDeleted st = st
     /\ onMessage cfg h message st = st
     /\ onMessageUpdate cfg h message st = st)
  /\ (forall me cache data isBulk,
        logSelfMessages cfg = false -> currentUserId h = Some me ->
        getMessages me (snd (handleDelete cfg h cache data isBulk st))
        = getMessages me st).
Proof.
  split.
  - intros message isDeleted Hskip.
    assert (Hlog : forall d, logMessage cfg h message d st = st).
    { intros d. unfold logMessage. destruct (author message) as [a|]; [|done].
      destruct Hskip as [->|[-> Hme]]; [done|].
      destruct (bot a); [done|]. by rewrite bool_decide_eq_true_2. }
    split; [apply Hlog|]. split; [apply Hlog|].
    unfold onMessageUpdate. destruct (truthy _); [apply Hlog|done].
  - intros me cache data isBulk Hself Hme.
    apply (handleDelete_store_ind
             (fun s => getMessages me s = getMessages me st)); [|done].
    intros message s Hs.
    destruct (logMessage_cases cfg h message true s)
      as [->|(a & _ & _ & [Hon|Hne] & ->)]; [done|congruence|].
    rewrite getMessages_addMessage_ne; [done|]. congruence.
Qed.




(** X11.  Where [addMessage] puts a message.  A message with a new id goes to
    the front, and of the result the first 1000 are kept; a message whose
    id is in the log, the log being within the limit and without two
    entries of one id, replaces that entry at its place. *)
Theorem addMessage_front_or_in_place (uid : string) (m : LoggedMessage)
    (now : Z) (ok : bool) (st : MessageStorage Store) :
  let before := getMessages uid st in
  let after := getMessages uid (addMessage uid m now ok st) in
  ((forall x, x ∈ before -> msg_id x <> msg_id m) ->
   after = take maxMessagesPerUser (m :: before))
  /\ (forall i x, before !! i = Some x -> msg_id x = msg_id m ->
        NoDup (msg_id <$> before) ->
        (length before <= maxMessagesPerUser)%nat ->
        after = <[i := m]> before).
Proof.
  intros before after. subst after. rewrite getMessages_addMessage.
  fold before. rewrite limit_take. split.
  - intros Hnew. unfold upsert.
    destruct (findIndex _ before) as [i|] eqn:Hfind; [|done].
    apply findIndex_Some in Hfind as (x & Hx & Heq).
    apply String.eqb_eq in Heq. apply list_elem_of_lookup_2 in Hx.
    by destruct (Hnew x Hx).
  - intros i x Hx Hid Hnd Hlen. unfold upsert.
    assert (Hfind : findIndex (fun y => String.eqb (msg_id y) (msg_id m)) before
                    = Some i).
    { apply (findIndex_intro _ _ i x); [done|by apply String.eqb_eq|].
      intros j y Hj Hy. apply String.eqb_neq. intros Hyid.
      assert (Hij : j = i); [|lia].
      eapply NoDup_lookup; [exact Hnd| |].
      - by rewrite list_lookup_fmap, Hy.
      - rewrite list_lookup_fmap, Hx. simpl. congruence. }
    rewrite Hfind. rewrite take_ge; [done|]. by rewrite length_insert.
Qed.

Lemma logMessage_snapshot cfg h message isDeleted st :
  logMessage cfg h message isDeleted st = st
  \/ localStorage (logMessage cfg h message isDeleted st)
     = if storageOk h
       then Some (storage (logMessage cfg h message isDeleted st))
       else localStorage st.
Proof.
  destruct (logMessage_cases cfg h message isDeleted st)
    as [->|(a & _ & _ & _ & ->)]; [by left|right].
  unfold addMessage. by destruct (storageOk h).
Qed.

Lemma step_snapshot cfg st h e b :
  storageOk h = b ->
  snapshot_rule b st (step cfg st (h, e)).
Proof.
  intros Hok.
  assert (Hlog : forall message d s, snapshot_rule b s (logMessage cfg h message d s)).
  { intros message d s. destruct (logMessage_snapshot cfg h message d s) as [->|Hs].
    - unfold snapshot_rule. by destruct b.
    - unfold snapshot_rule. rewrite Hs, Hok. by destruct b. }
  destruct e as [message|message|cache data isBulk|uid|target];
    unfold step; cbn [fst snd].
  - apply Hlog.
  - unfold onMessageUpdate. destruct (truthy _); [apply Hlog|].
    unfold snapshot_rule. by destruct b.
  - unfold snapshot_rule. destruct b.
    + intros Hsync.
      apply (handleDelete_store_ind (fun s => localStorage s = Some (storage s)));
        [|done].
      intros message s Hs. by apply (Hlog message true s).
    + apply (handleDelete_store_ind (fun s => localStorage s = localStorage st));
        [|done].
      intros message s Hs. rewrite <- Hs. apply (Hlog message true s).
  - unfold clearMessages, snapshot_rule. rewrite Hok. by destruct b.
  - unfold plugin_cleanDM, snapshot_rule.
    destruct (currentUserId h) as [me|]; [|by destruct b].
    destruct (String.eqb me EmptyString); [by destruct b|].
    unfold cleanDMMessages. rewrite Hok. by destruct b.
Qed.

(** X12.  The browser storage under the plugin.  Along events whose writes
    all go through, a browser storage that holds the Map of the store
    holds it afterwards; along events whose writes all fail, the browser
    storage holds afterwards what it held before. *)
Theorem localStorage_follows_writes (cfg : Settings)
    (trace : list (Host * Event)) (st : MessageStorage Store) (b : bool) :
  Forall (fun x => storageOk (fst x) = b) trace ->
  let st' := run cfg trace st in
  if b then localStorage st = Some (storage st) ->
            localStorage st' = Some (storage st')
  else localStorage st' = localStorage st.
Proof.
  intros Hall. cbn zeta. change (snapshot_rule b st (run cfg trace st)).
  revert st. unfold run. induction Hall as [|[h e] trace Hok _ IH]; intros st.
  - unfold snapshot_rule. by destruct b.
  - simpl. specialize (IH (step cfg st (h, e))).
    pose proof (step_snapshot cfg st h e b Hok) as Hstep.
    unfold snapshot_rule in *. destruct b; [auto|congruence].
Qed.
Lemma logger_store_invariants_witness :
  bounded Samples.empty_storage /\ ids_unique Samples.empty_storage
  /\ keyed_by_author Samples.empty_storage
  /\ bounded (run default_settings Scenarios.create_then_delete
                Samples.empty_storage).
Proof.
  destruct empty_storage_kept_well as (Hb & Hu & Hk).
  split; [exact Hb|]. split; [exact Hu|]. split; [exact Hk|].
  exact (proj1 (logger_store_invariants default_settings
                  Scenarios.create_then_delete Samples.empty_storage Hb Hu Hk)).
Defined.


Lemma localStorage_follows_writes_witness :
  Forall (fun x => storageOk (fst x) = true) Scenarios.create_then_delete
  /\ localStorage (run_calls Samples.two_calls Samples.empty_storage)
     = Some (storage (run_calls Samples.two_calls Samples.empty_storage))
  /\ localStorage (run default_settings Scenarios.create_then_delete
                     (run_calls Samples.two_calls Samples.empty_storage))
     = Some (storage (run default_settings Scenarios.create_then_delete
                        (run_calls Samples.two_calls Samples.empty_storage))).
Proof.
  assert (H : Forall (fun x => storageOk (fst x) = true)
                Scenarios.create_then_delete)
    by (repeat constructor).
  split; [exact H|]. split; [reflexivity|].
  exact (localStorage_follows_writes default_settings
           Scenarios.create_then_delete
           (run_calls Samples.two_calls Samples.empty_storage) true H eq_refl).
Defined.

End LoggerFacts.

(* ===================================================================== *)
(** * VoiceChannelLogger: the handler, the log and the modal            *)
(* ===================================================================== *)

Section VoiceViewFacts.
Import VoiceChannelLogger VoiceView.
Local Open Scope string_scope.
Local Open Scope list_scope.
Local Open Scope Z_scope.

(** X13.  [formatDuration].  For a duration that is not negative the three
    numbers printed are the hours, the minutes below 60 and the seconds
    below 60 of the whole seconds of the duration; the hours are printed
    when positive, the minutes when they or the hours are; a negative
    duration is printed as its (negative) seconds alone. *)
Theorem formatDuration_parts (ms : Z) :
  (0 <= ms ->
   let total := ms / 1000 in
   let h := total / 3600 in
   let m := (total / 60) mod 60 in
   let s := total mod 60 in
   total = h * 3600 + m * 60 + s
   /\ 0 <= m < 60 /\ 0 <= s < 60 /\ 0 <= h
   /\ formatDuration ms
      = if 0 <? h then show h +:+ "h " +:+ show m +:+ "m " +:+ show s +:+ "s"
        else if 0 <? m then show m +:+ "m " +:+ show s +:+ "s"
        else show s +:+ "s")
  /\ (ms < 0 -> formatDuration ms = show (ms / 1000) +:+ "s").
Proof.
  split.
  - intros Hms total h m s.
    assert (Ht : 0 <= total) by (subst total; apply Z.div_pos; lia).
    assert (Hh : h = total / 60 / 60)
      by (subst h; rewrite Z.div_div by lia; done).
    assert (Hm : m = Z.rem (total / 60) 60).
    { subst m. rewrite Z.rem_mod_nonneg; [done| |lia]. apply Z.div_pos; lia. }
    assert (Hs : s = Z.rem total 60)
      by (subst s; rewrite Z.rem_mod_nonneg; [done|lia|lia]).
    pose proof (Z.mod_pos_bound (total / 60) 60 ltac:(lia)) as Hmb.
    pose proof (Z.mod_pos_bound total 60 ltac:(lia)) as Hsb.
    assert (Hh0 : 0 <= h) by (subst h; apply Z.div_pos; lia).
    split; [|split; [done|split; [done|split; [done|]]]].
    + pose proof (Z.div_mod total 60 ltac:(lia)) as H1.
      pose proof (Z.div_mod (total / 60) 60 ltac:(lia)) as H2.
      rewrite <- Hh in H2. subst m s. lia.
    + unfold formatDuration. fold total. rewrite <- Hh, <- Hm, <- Hs.
      destruct (Z.ltb_spec 0 h) as [Hpos|Hzero]; [done|].
      assert (h = 0) by lia.
      assert (Hmin : m = total / 60).
      { subst m. pose proof (Z.div_mod (total / 60) 60 ltac:(lia)) as H2.
        rewrite <- Hh in H2. lia. }
      rewrite <- Hmin.
      destruct (Z.ltb_spec 0 m) as [Hmpos|Hmzero]; [done|].
      assert (m = 0) by lia.
      assert (s = total).
      { subst s. pose proof (Z.div_mod total 60 ltac:(lia)) as H1. lia. }
      congruence.
  - intros Hneg. unfold formatDuration.
    assert (Hs : ms / 1000 < 0) by (apply Z.div_lt_upper_bound; lia).
    assert (Hm : ms / 1000 / 60 < 0) by (apply Z.div_lt_upper_bound; lia).
    assert (Hh : ms / 1000 / 60 / 60 < 0) by (apply Z.div_lt_upper_bound; lia).
    destruct (Z.ltb_spec 0 (ms / 1000 / 60 / 60)); [lia|].
    destruct (Z.ltb_spec 0 (ms / 1000 / 60)); [lia|]. done.
Qed.

Lemma take_cons_take {A} n (x : A) l :
  take n (x :: take n l) = take n (x :: l).
Proof.
  destruct n as [|n]; [done|]. simpl. f_equal.
  rewrite take_take. f_equal. lia.
Qed.

Lemma saved_entries_snoc calls c :
  saved_entries (calls ++ [c])
  = if fst c then snd c :: saved_entries calls else saved_entries calls.
Proof.
  unfold saved_entries. rewrite List.filter_app. simpl.
  destruct (fst c); simpl.
  - by rewrite fmap_app, rev_app_distr.
  - by rewrite app_nil_r.
Qed.

Lemma run_saves_snoc cfg calls c old :
  run_saves cfg (calls ++ [c]) old
  = saveLogEntry cfg (fst c) (snd c) (run_saves cfg calls old).
Proof. unfold run_saves. by rewrite fold_left_app. Qed.

(** X14.  The stored log after a sequence of [saveLogEntry] calls.  With file
    logging off, or when no update went through, it is what it was;
    otherwise it is the entries of the updates that went through, the
    latest first, followed by the old entries, cut to maxLogEntries when
    that is positive. *)
Theorem run_saves_closed_form (cfg : Settings) (calls : list (bool * LogEntry))
    (old : option (list LogEntry)) :
  let saved := saved_entries calls in
  (enableFileLogging cfg = false -> run_saves cfg calls old = old)
  /\ (saved = [] -> run_saves cfg calls old = old)
  /\ (enableFileLogging cfg = true -> saved <> [] ->
      run_saves cfg calls old
      = Some (if 0 <? maxLogEntries cfg
              then take (Z.to_nat (maxLogEntries cfg)) (saved ++ default [] old)
              else saved ++ default [] old)).
Proof.
  cbn zeta. split; [|split].
  - intros Hoff. induction calls as [|c calls IH] using rev_ind; [done|].
    rewrite run_saves_snoc, IH. unfold saveLogEntry. by rewrite Hoff.
  - induction calls as [|c calls IH] using rev_ind; [done|].
    rewrite saved_entries_snoc, run_saves_snoc.
    destruct (fst c) eqn:Hc; [done|]. intros Hnil. rewrite IH by done.
    unfold saveLogEntry. by destruct (negb _).
  - intros Hon. induction calls as [|c calls IH] using rev_ind; [done|].
    rewrite saved_entries_snoc, run_saves_snoc.
    unfold saveLogEntry at 1. rewrite Hon. cbn [negb].
    destruct (fst c) eqn:Hc; [|exact IH]. intros _.
    destruct (saved_entries calls) as [|e es] eqn:Hsaved.
    + assert (Hold : run_saves cfg calls old = old).
      { clear IH. revert Hsaved. clear.
        induction calls as [|c calls IH] using rev_ind; [done|].
        rewrite saved_entries_snoc, run_saves_snoc.
        destruct (fst c) eqn:Hc; [done|]. intros Hnil. rewrite IH by done.
        unfold saveLogEntry. by destruct (negb _). }
      rewrite Hold. f_equal. unfold push_entry. cbn [app].
      destruct (Z.ltb_spec 0 (maxLogEntries cfg)); [|done]. cbn [andb].
      destruct (Z.ltb_spec (maxLogEntries cfg)
                  (Z.of_nat (length (snd c :: default [] old)))); [done|].
      rewrite take_ge; [done|lia].
    + rewrite IH by done. f_equal. cbn [default].
      destruct (Z.ltb_spec 0 (maxLogEntries cfg)) as [Hpos|Hle].
      * rewrite push_entry_take by done. cbn [default].
        apply take_cons_take.
      * unfold push_entry. cbn [default].
        destruct (Z.ltb_spec 0 (maxLogEntries cfg)); [lia|]. done.
Qed.

(** ** The handler *)

Lemma process_state_entry cfg h me myCh st s tk st' e sup :
  process_state cfg h me myCh st s tk = (st', Logged e sup) ->
  action_of cfg me myCh s = Some (action e)
  /\ e = make_entry h s (action e) (sessionDuration e) (t_stamp tk)
  /\ logs st' = logs st /\ toasts st' = toasts st.
Proof.
  unfold process_state. destruct (action_of cfg me myCh s) as [act|]; [|done].
  destruct (_ && _ && bool_decide _); [done|].
  destruct (track_session _ _ _ _ _) as [duration sessions].
  by intros [= <- <- <-].
Qed.

Lemma process_state_skip cfg h me myCh st s tk st' :
  process_state cfg h me myCh st s tk = (st', Skipped) -> st' = st.
Proof.
  unfold process_state. destruct (action_of cfg me myCh s) as [act|];
    [|by intros [= <-]].
  destruct (_ && _ && bool_decide _); [by intros [= <-]|].
  by destruct (track_session _ _ _ _ _).
Qed.

(** What [action_of] says of a state it gives an action for. *)
Lemma action_of_Some cfg me myCh s act :
  action_of cfg me myCh s = Some act ->
  userId s <> EmptyString
  /\ (userId s = me -> logOwnActions cfg = true)
  /\ passes_filter cfg (userId s) = true
  /\ match act with
     | join => channelId s = Some myCh /\ oldChannelId s <> Some myCh
     | leave => oldChannelId s = Some myCh /\ channelId s <> Some myCh
                /\ onlyLogJoins cfg = false
     end.
Proof.
  unfold action_of.
  destruct (String.eqb_spec (userId s) EmptyString) as [|Hne]; [done|].
  destruct (String.eqb_spec (userId s) me) as [Hme|Hme]; cbn [andb].
  - destruct (logOwnActions cfg) eqn:Hown; cbn [negb]; [|done].
    destruct (passes_filter cfg (userId s)); cbn [negb]; [|done].
    repeat case_bool_decide; cbn [andb negb]; try done.
    + by intros [= <-].
    + destruct (onlyLogJoins cfg) eqn:Honly; [done|]. by intros [= <-].
  - destruct (passes_filter cfg (userId s)); cbn [negb]; [|done].
    repeat case_bool_decide; cbn [andb negb]; try done.
    + by intros [= <-].
    + destruct (onlyLogJoins cfg) eqn:Honly; [done|]. by intros [= <-].
Qed.

Lemma push_entry_elem cfg e old x :
  x ∈ push_entry cfg e old -> x = e \/ x ∈ default [] old.
Proof.
  unfold push_entry. intros Hx.
  assert (Hin : x ∈ e :: default [] old).
  { destruct (_ && _); [by apply subseteq_take in Hx|done]. }
  by apply elem_of_cons in Hin.
Qed.

(** One turn of the loop either leaves the log or saves its entry. *)
Lemma step_logs cfg h me myCh st x :
  logs (step cfg h me myCh st x) = logs st
  \/ exists e,
       action_of cfg me myCh (fst x) = Some (action e)
       /\ e = make_entry h (fst x) (action e) (sessionDuration e) (t_stamp (snd x))
       /\ enableFileLogging cfg = true /\ dataStoreOk h = true
       /\ logs (step cfg h me myCh st x) = Some (push_entry cfg e (logs st)).
Proof.
  unfold step.
  destruct (process_state cfg h me myCh st (fst x) (snd x)) as [st' [|e sup]] eqn:Hp.
  - apply process_state_skip in Hp. left. by subst.
  - apply process_state_entry in Hp as (Hact & He & Hlogs & _).
    unfold logVoiceEvent, saveLogEntry. cbn [logs with_output].
    destruct (enableFileLogging cfg) eqn:Hon; [|by left]. cbn [negb].
    destruct (dataStoreOk h) eqn:Hok; [|by left].
    right. exists e. rewrite Hlogs. by repeat split.
Qed.

Lemma logs_initialize cfg h p st : logs (initialize cfg h p st) = logs st.
Proof.
  unfold initialize. destruct (currentUser h); [|done].
  destruct (_ && _); [|done]. by destruct (suppressToastsForExistingUsers cfg).
Qed.

Lemma logs_track_switch cfg h p vss st :
  logs (track_switch cfg h p vss st) = logs st.
Proof.
  unfold track_switch. destruct (currentUser h); [|done].
  destruct (List.find _ vss); [|done].
  destruct (suppressToastsForExistingUsers cfg); [done|].
  by destruct (pluginInitialized st).
Qed.

Lemma logs_sweep p st : logs (sweep p st) = logs st.
Proof. unfold sweep. by destruct (_ && _). Qed.

Lemma toasts_initialize cfg h p st : toasts (initialize cfg h p st) = toasts st.
Proof.
  unfold initialize. destruct (currentUser h); [|done].
  destruct (_ && _); [|done]. by destruct (suppressToastsForExistingUsers cfg).
Qed.

Lemma toasts_track_switch cfg h p vss st :
  toasts (track_switch cfg h p vss st) = toasts st.
Proof.
  unfold track_switch. destruct (currentUser h); [|done].
  destruct (List.find _ vss); [|done].
  destruct (suppressToastsForExistingUsers cfg); [done|].
  by destruct (pluginInitialized st).
Qed.

Lemma toasts_sweep p st : toasts (sweep p st) = toasts st.
Proof. unfold sweep. by destruct (_ && _). Qed.

Lemma sessions_initialize cfg h p st :
  userSessions (initialize cfg h p st) = userSessions st.
Proof.
  unfold initialize. destruct (currentUser h); [|done].
  destruct (_ && _); [|done]. by destruct (suppressToastsForExistingUsers cfg).
Qed.

Lemma sessions_track_switch cfg h p vss st :
  userSessions (track_switch cfg h p vss st) = userSessions st.
Proof.
  unfold track_switch. destruct (currentUser h); [|done].
  destruct (List.find _ vss); [|done].
  destruct (suppressToastsForExistingUsers cfg); [done|].
  by destruct (pluginInitialized st).
Qed.

(** The entries of a run of the loop: old ones, or entries of its turns. *)
Lemma fold_step_logs cfg h me myCh states st e :
  e ∈ default [] (logs (fold_left (step cfg h me myCh) states st)) ->
  e ∈ default [] (logs st)
  \/ exists x, x ∈ states
       /\ action_of cfg me myCh (fst x) = Some (action e)
       /\ e = make_entry h (fst x) (action e) (sessionDuration e) (t_stamp (snd x))
       /\ enableFileLogging cfg = true /\ dataStoreOk h = true.
Proof.
  induction states as [|x states IH] using rev_ind; [by left|].
  rewrite fold_left_app. cbn [fold_left]. intros He.
  destruct (step_logs cfg h me myCh (fold_left (step cfg h me myCh) states st) x)
    as [Heq|(e' & Hact & Hmk & Hon & Hok & Heq)]; rewrite Heq in He.
  - destruct (IH He) as [?|(y & Hy & ?)]; [by left|right].
    exists y. split; [|done]. apply elem_of_app. by left.
  - cbn [default] in He. apply push_entry_elem in He as [->|He].
    + right. exists x. split; [|done]. apply elem_of_app. right. by left.
    + destruct (IH He) as [?|(y & Hy & ?)]; [by left|right].
      exists y. split; [|done]. apply elem_of_app. by left.
Qed.

Lemma run_batch_logs cfg b st e :
  e ∈ default [] (logs (run_batch cfg st b)) ->
  e ∈ default [] (logs st)
  \/ exists s tk me myCh,
       (s, tk) ∈ batch_states b
       /\ currentUser (batch_host b) = Some me
       /\ myChannelId (batch_host b) = Some myCh /\ myCh <> EmptyString
       /\ action_of cfg me myCh s = Some (action e)
       /\ e = make_entry (batch_host b) s (action e) (sessionDuration e) (t_stamp tk)
       /\ enableFileLogging cfg = true /\ dataStoreOk (batch_host b) = true.
Proof.
  unfold run_batch, VOICE_STATE_UPDATES.
  destruct (batch_states b) as [|x0 states] eqn:Hstates; [by left|].
  destruct (currentUser (batch_host b)) as [me|] eqn:Hme;
    [|rewrite logs_track_switch, logs_initialize; by left].
  destruct (myChannelId (batch_host b)) as [myCh|] eqn:Hch;
    [|cbn [truthy]; rewrite logs_track_switch, logs_initialize; by left].
  cbn [truthy default].
  destruct (String.eqb_spec myCh EmptyString) as [Hempty|Hne]; cbn [negb];
    [rewrite logs_track_switch, logs_initialize; by left|].
  intros He. apply fold_step_logs in He as [He|([s tk] & Hx & Hact & Hmk & Hon & Hok)].
  - rewrite logs_sweep, logs_track_switch, logs_initialize in He. by left.
  - right. exists s, tk, me, myCh. by repeat split.
Qed.

(** X15.  Every entry of the log has a cause.  An entry of the log after any
    batches of voice states was in the log before, or it is the entry of a
    state of one of the batches, made while file logging was on and the
    update went through, with a current user in a voice channel: the
    state has a user id, is not the current user's unless logOwnActions is
    on, passes the user filter, and enters the current user's channel (a
    join) or leaves it (a leave, and then onlyLogJoins is off). *)
Theorem logged_entries_sound (cfg : Settings) (batches : list Batch)
    (st : State) (e : LogEntry) :
  e ∈ default [] (logs (run cfg batches st)) ->
  e ∈ default [] (logs st)
  \/ exists b s tk me myCh,
       b ∈ batches /\ (s, tk) ∈ batch_states b
       /\ currentUser (batch_host b) = Some me
       /\ myChannelId (batch_host b) = Some myCh /\ myCh <> EmptyString
       /\ enableFileLogging cfg = true /\ dataStoreOk (batch_host b) = true
       /\ e = make_entry (batch_host b) s (action e) (sessionDuration e) (t_stamp tk)
       /\ userId s <> EmptyString
       /\ (userId s = me -> logOwnActions cfg = true)
       /\ passes_filter cfg (userId s) = true
       /\ match action e with
          | join => channelId s = Some myCh /\ oldChannelId s <> Some myCh
          | leave => oldChannelId s = Some myCh /\ channelId s <> Some myCh
                     /\ onlyLogJoins cfg = false
          end.
Proof.
  unfold run. induction batches as [|b batches IH] using rev_ind; [by left|].
  rewrite fold_left_app. cbn [fold_left]. intros He.
  apply run_batch_logs in He
    as [He|(s & tk & me & myCh & Hx & Hme & Hch & Hne & Hact & Hmk & Hon & Hok)].
  - destruct (IH He) as [?|(b' & s & tk & me & myCh & Hb & Hrest)]; [by left|right].
    exists b', s, tk, me, myCh. split; [|done]. apply elem_of_app. by left.
  - right. exists b, s, tk, me, myCh.
    apply action_of_Some in Hact as (Hid & Hown & Hfilter & Hcase).
    split; [apply elem_of_app; right; by left|]. by repeat split.
Qed.

Lemma step_toasts cfg h me myCh st x :
  toasts (step cfg h me myCh st x) = toasts st
  \/ (showToastNotifications cfg = true
      /\ exists e, toasts (step cfg h me myCh st x) = toast_of cfg e :: toasts st).
Proof.
  unfold step.
  destruct (process_state cfg h me myCh st (fst x) (snd x)) as [st' [|e sup]] eqn:Hp.
  - apply process_state_skip in Hp. left. by subst.
  - apply process_state_entry in Hp as (_ & _ & _ & Hts).
    rewrite toasts_logVoiceEvent, Hts.
    destruct (showToastNotifications cfg); [|by left].
    destruct sup; [by left|]. right. split; [done|]. by exists e.
Qed.

Lemma fold_step_quiet (P : State -> Prop) cfg h me myCh states st :
  (forall s x, P s -> P (step cfg h me myCh s x)) ->
  P st -> P (fold_left (step cfg h me myCh) states st).
Proof.
  intros Hstep. revert st. induction states as [|x states IH]; intros st Hst;
    [done|]. simpl. by apply IH, Hstep.
Qed.

(** X16.  What the handler leaves alone.  With file logging off the log is
    never changed, and neither is it by batches whose updates fail; with
    toasts off no toast is shown; batches without a current user or
    without a voice channel change neither the log, the toasts nor the
    sessions. *)
Theorem handler_respects_switches (cfg : Settings) (batches : list Batch)
    (st : State) :
  let st' := run cfg batches st in
  (enableFileLogging cfg = false -> logs st' = logs st)
  /\ (showToastNotifications cfg = false -> toasts st' = toasts st)
  /\ (Forall (fun b => dataStoreOk (batch_host b) = false) batches ->
      logs st' = logs st)
  /\ (Forall (fun b => currentUser (batch_host b) = None
                       \/ truthy (myChannelId (batch_host b)) = false) batches ->
      logs st' = logs st /\ toasts st' = toasts st
      /\ userSessions st' = userSessions st).
Proof.
  cbn zeta. unfold run.
  assert (Hbatch : forall (P : Batch -> Prop) (f : State -> State -> Prop),
            (forall s, f s s) ->
            (forall s1 s2 s3, f s1 s2 -> f s2 s3 -> f s1 s3) ->
            (forall b s, P b -> f s (run_batch cfg s b)) ->
            Forall P batches ->
            f st (fold_left (run_batch cfg) batches st)).
  { intros P f Hrefl Htrans Hone Hall. revert st.
    induction Hall as [|b bs Hb _ IH]; intros st; [apply Hrefl|].
    simpl. eapply Htrans; [by apply Hone|apply IH]. }
  assert (Hpre_logs : forall b s,
            logs (track_switch cfg (batch_host b) (batch_prelude b)
                    (List.map fst (batch_states b))
                    (initialize cfg (batch_host b) (batch_prelude b) s))
            = logs s)
    by (intros; by rewrite logs_track_switch, logs_initialize).
  assert (Hpre_toasts : forall b s,
            toasts (track_switch cfg (batch_host b) (batch_prelude b)
                      (List.map fst (batch_states b))
                      (initialize cfg (batch_host b) (batch_prelude b) s))
            = toasts s)
    by (intros; by rewrite toasts_track_switch, toasts_initialize).
  split; [|split; [|split]].
  - intros Hoff.
    apply (Hbatch (fun _ => True) (fun s1 s2 => logs s2 = logs s1));
      [done|congruence| |by apply Forall_true].
    intros b s _. unfold run_batch, VOICE_STATE_UPDATES.
    destruct (batch_states b) as [|x0 states] eqn:Hstates; [done|].
    rewrite <- Hstates.
    destruct (currentUser (batch_host b)) as [me|]; [|apply Hpre_logs].
    destruct (truthy _); [|apply Hpre_logs].
    apply fold_step_quiet.
    + intros s' x Hs'. rewrite <- Hs'.
      destruct (step_logs cfg (batch_host b) me
                  (default EmptyString (myChannelId (batch_host b))) s' x)
        as [?|(e & _ & _ & Hon & _)]; [done|congruence].
    + rewrite logs_sweep. apply Hpre_logs.
  - intros Hoff.
    apply (Hbatch (fun _ => True) (fun s1 s2 => toasts s2 = toasts s1));
      [done|congruence| |by apply Forall_true].
    intros b s _. unfold run_batch, VOICE_STATE_UPDATES.
    destruct (batch_states b) as [|x0 states] eqn:Hstates; [done|].
    rewrite <- Hstates.
    destruct (currentUser (batch_host b)) as [me|]; [|apply Hpre_toasts].
    destruct (truthy _); [|apply Hpre_toasts].
    apply fold_step_quiet.
    + intros s' x Hs'. rewrite <- Hs'.
      destruct (step_toasts cfg (batch_host b) me
                  (default EmptyString (myChannelId (batch_host b))) s' x)
        as [?|[Hon _]]; [done|congruence].
    + rewrite toasts_sweep. apply Hpre_toasts.
  - apply (Hbatch _ (fun s1 s2 => logs s2 = logs s1)); [done|congruence|].
    intros b s Hfail. unfold run_batch, VOICE_STATE_UPDATES.
    destruct (batch_states b) as [|x0 states] eqn:Hstates; [done|].
    rewrite <- Hstates.
    destruct (currentUser (batch_host b)) as [me|]; [|apply Hpre_logs].
    destruct (truthy _); [|apply Hpre_logs].
    apply fold_step_quiet.
    + intros s' x Hs'. rewrite <- Hs'.
      destruct (step_logs cfg (batch_host b) me
                  (default EmptyString (myChannelId (batch_host b))) s' x)
        as [?|(e & _ & _ & _ & Hok & _)]; [done|congruence].
    + rewrite logs_sweep. apply Hpre_logs.
  - apply (Hbatch _ (fun s1 s2 => logs s2 = logs s1 /\ toasts s2 = toasts s1
                                  /\ userSessions s2 = userSessions s1)).
    + done.
    + intros s1 s2 s3 (? & ? & ?) (? & ? & ?). repeat split; congruence.
    + intros b s Hnone. unfold run_batch, VOICE_STATE_UPDATES.
      destruct (batch_states b) as [|x0 states] eqn:Hstates; [done|].
      rewrite <- Hstates.
      assert (Hpre : forall s2, s2 = track_switch cfg (batch_host b) (batch_prelude b)
                      (List.map fst (batch_states b))
                      (initialize cfg (batch_host b) (batch_prelude b) s) ->
                logs s2 = logs s /\ toasts s2 = toasts s
                /\ userSessions s2 = userSessions s).
      { intros s2 ->. rewrite Hpre_logs, Hpre_toasts.
        by rewrite sessions_track_switch, sessions_initialize. }
      destruct Hnone as [Hnone|Hnone]; rewrite Hnone.
      * by apply Hpre.
      * destruct (currentUser (batch_host b)); by apply Hpre.
Qed.

(** A join, inside the start-up window, of a user counted as seen. *)
Lemma step_seen_join cfg h me myCh st x :
  userId (fst x) ∈ processedUsersDuringInit st ->
  t_window (snd x) < initializationSuppressUntil st ->
  oldChannelId (fst x) <> Some myCh ->
  step cfg h me myCh st x = st.
Proof.
  intros Hseen Hwin Hold. unfold step, process_state.
  destruct (action_of cfg me myCh (fst x)) as [act|] eqn:Hact; [|done].
  apply action_of_Some in Hact as (_ & _ & _ & Hcase).
  destruct act; [|by destruct Hcase].
  destruct (Z.ltb_spec (t_window (snd x)) (initializationSuppressUntil st)); [|lia].
  by rewrite bool_decide_eq_true_2.
Qed.

(** X17.  The users already there.  When the first batch initialises the
    plugin, with suppressToastsForExistingUsers on, the states of users
    that were in the channel at that moment, read inside the start-up
    window and not leaving the channel, are neither logged nor shown, and
    they open no session. *)
Theorem startup_users_not_logged (cfg : Settings) (b : Batch) (st : State)
    (me myCh : string) (us : list string) :
  let h := batch_host b in
  let p := batch_prelude b in
  suppressToastsForExistingUsers cfg = true ->
  pluginInitialized st = false ->
  currentUser h = Some me ->
  myChannelId h = Some myCh -> myCh <> EmptyString ->
  usersInChannel h = Some us ->
  p_sweep p <= p_until p + INITIALIZATION_SUPPRESSION_DURATION ->
  Forall (fun x => userId (fst x) ∈ us /\ userId (fst x) <> me
                   /\ oldChannelId (fst x) <> Some myCh
                   /\ t_window (snd x)
                      < p_until p + INITIALIZATION_SUPPRESSION_DURATION)
         (batch_states b) ->
  let st' := run_batch cfg st b in
  logs st' = logs st /\ toasts st' = toasts st
  /\ userSessions st' = userSessions st
  /\ (batch_states b <> [] -> pluginInitialized st' = true).
Proof.
  intros h p Hsup Hinit Hme Hch Hne Hus Hsweep Hall st'. subst st' h p.
  set (until := p_until (batch_prelude b) + INITIALIZATION_SUPPRESSION_DURATION) in *.
  set (seen := list_to_set (List.filter (fun u => negb (String.eqb u me)) us)
               : gset string).
  assert (Hfold : forall s2,
            processedUsersDuringInit s2 = seen ->
            initializationSuppressUntil s2 = until ->
            fold_left (step cfg (batch_host b) me myCh) (batch_states b) s2 = s2).
  { intros s2 Hseen Huntil.
    induction Hall as [|x xs (Hx & Hxme & Hold & Hwin) _ IH]; [done|]. simpl.
    rewrite step_seen_join; [exact IH| | |done].
    - rewrite Hseen. subst seen. apply elem_of_list_to_set.
      apply list_elem_of_In, filter_In. split; [by apply list_elem_of_In|].
      by apply negb_true_iff, String.eqb_neq.
    - by rewrite Huntil. }
  unfold run_batch, VOICE_STATE_UPDATES.
  destruct (batch_states b) as [|x0 states] eqn:Hstates; [done|].
  rewrite Hme, Hch. cbn [truthy default].
  destruct (String.eqb_spec myCh EmptyString) as [|_]; [done|]. cbn [negb].
  set (st1 := initialize cfg (batch_host b) (batch_prelude b) st).
  set (st2 := track_switch cfg (batch_host b) (batch_prelude b)
                (List.map fst (x0 :: states)) st1).
  assert (H1 : st1 = set_init st (Some myCh) until (p_start (batch_prelude b)) seen).
  { subst st1. unfold initialize.
    rewrite Hme, Hinit, Hch, Hsup, Hus. cbn [truthy negb andb].
    destruct (String.eqb_spec myCh EmptyString); done. }
  assert (H2 : processedUsersDuringInit st2 = seen
               /\ initializationSuppressUntil st2 = until
               /\ pluginInitialized st2 = true
               /\ logs st2 = logs st /\ toasts st2 = toasts st
               /\ userSessions st2 = userSessions st).
  { subst st2. unfold track_switch. rewrite Hme, Hsup, H1.
    by destruct (List.find _ _). }
  destruct H2 as (Hseen & Huntil & Hinit2 & Hlogs & Htoasts & Hsessions).
  assert (H3 : sweep (batch_prelude b) st2 = st2).
  { unfold sweep. rewrite Huntil.
    destruct (Z.ltb_spec until (p_sweep (batch_prelude b))); [lia|done]. }
  rewrite H3. change (id myCh) with myCh.
  rewrite (Hfold st2 Hseen Huntil). by repeat split.
Qed.

(** ** The logs modal *)

Lemma LOGS_PER_PAGE_range lpp : 10 <= LOGS_PER_PAGE lpp <= 200.
Proof. unfold LOGS_PER_PAGE. destruct lpp as [n|]; [destruct (n =? 0)|]; lia. Qed.

Lemma pages_take {A} (k : nat) (l : list A) (c : nat) :
  concat (List.map (fun page => take k (drop (page * k) l)) (seq 0 c))
  = take (c * k) l.
Proof.
  induction c as [|c IH]; [done|].
  rewrite seq_S, List.map_app, concat_app, IH. cbn [List.map concat plus].
  rewrite app_nil_r, take_take_drop. f_equal. lia.
Qed.

(** X18.  The pages of the modal.  A page has between 10 and 200 entries at
    most; there is at least one page; the pages, in order, are the
    filtered logs, each entry once; no page before the last is empty when
    there are logs, and every page after the last is empty. *)
Theorem pages_partition_the_logs (logsPerPage : option Z)
    (filteredLogs : list LogEntry) :
  let per := LOGS_PER_PAGE logsPerPage in
  let pages := Z.to_nat (totalPages logsPerPage filteredLogs) in
  10 <= per <= 200
  /\ (1 <= pages)%nat
  /\ concat (List.map (currentPageLogs logsPerPage filteredLogs) (seq 0 pages))
     = filteredLogs
  /\ (forall page,
        Z.of_nat (length (currentPageLogs logsPerPage filteredLogs page)) <= per)
  /\ (forall page, (page < pages)%nat -> filteredLogs <> [] ->
        currentPageLogs logsPerPage filteredLogs page <> [])
  /\ (forall page, (pages <= page)%nat ->
        currentPageLogs logsPerPage filteredLogs page = []).
Proof.
  intros per pages. pose proof (LOGS_PER_PAGE_range logsPerPage) as Hper.
  fold per in Hper.
  set (n := Z.of_nat (length filteredLogs)).
  set (c := - (- n / per)).
  assert (Hc : n <= c * per /\ (c - 1) * per < n).
  { subst c. pose proof (Z.div_mod (- n) per ltac:(lia)) as Hdm.
    pose proof (Z.mod_pos_bound (- n) per ltac:(lia)) as Hmod. nia. }
  assert (Hc0 : 0 <= c) by (subst n; nia).
  assert (Hpages : Z.of_nat pages = Z.max 1 c).
  { subst pages. unfold totalPages. fold per n c. lia. }
  assert (Hk : Z.of_nat (Z.to_nat per) = per) by lia.
  split; [done|]. split; [lia|]. split; [|split; [|split]].
  - unfold currentPageLogs. fold per. rewrite pages_take.
    apply take_ge. subst n. nia.
  - intros page. unfold currentPageLogs. fold per. rewrite length_take. lia.
  - intros page Hpage Hne. unfold currentPageLogs. fold per.
    assert (Hlt : (page * Z.to_nat per < length filteredLogs)%nat).
    { destruct filteredLogs as [|e es]; [done|]. subst n.
      cbn [length] in *. nia. }
    intros Hnil. apply (f_equal length) in Hnil.
    rewrite length_take, length_drop in Hnil. cbn [length] in Hnil. lia.
  - intros page Hpage. unfold currentPageLogs. fold per.
    rewrite drop_ge; [apply take_nil|]. subst n. nia.
Qed.

(** ** The statistics of the dashboard *)

Lemma size_list_to_set_length (l : list string) :
  (size (list_to_set l : gset string) <= length l)%nat.
Proof.
  induction l as [|x l IH]; [by rewrite list_to_set_nil, size_empty|].
  rewrite list_to_set_cons, size_union_alt, size_singleton.
  assert (Hsub : (size ((list_to_set l : gset string) ∖ {[x]})
                  <= size (list_to_set l : gset string))%nat).
  { apply subseteq_size. apply subseteq_difference_l. done. }
  simpl. lia.
Qed.

(** X19.  The counts of the modal's statistics.  Joins and leaves add up
    to the entries; the unique users and the sessions are at most as many
    as the entries; the sessions are the entries with a duration that is
    not 0, so that a log without durations has no session and an entry with
    duration 0 is none. *)
Theorem statistics_consistent (logs : list LogEntry) :
  (joinCount logs + leaveCount logs = length logs)%nat
  /\ (uniqueUsers logs <= length logs)%nat
  /\ (totalSessions logs <= length logs)%nat
  /\ (Forall (fun e => sessionDuration e = None \/ sessionDuration e = Some 0)
             logs ->
      totalSessions logs = 0%nat)
  /\ (forall e d, e ∈ logs -> sessionDuration e = Some d -> d <> 0 ->
      (0 < totalSessions logs)%nat).
Proof.
  split; [|split; [|split; [|split]]].
  - unfold joinCount, leaveCount. induction logs as [|e logs IH]; [done|].
    cbn [List.filter].
    destruct (is_action join e) eqn:Hj, (is_action leave e) eqn:Hl;
      unfold is_action in Hj, Hl; destruct (action e);
      try discriminate; cbn [length]; lia.
  - unfold uniqueUsers. etrans; [apply size_list_to_set_length|].
    by rewrite length_fmap.
  - unfold totalSessions. apply sublist_length, filter_sublist.
  - intros Hall. unfold totalSessions.
    induction Hall as [|e logs He _ IH]; [done|]. cbn [List.filter].
    unfold has_duration at 1. by destruct He as [->| ->].
  - intros e d He Hd Hnz. unfold totalSessions.
    assert (Hin : e ∈ List.filter has_duration logs).
    { apply list_elem_of_In, filter_In. split; [by apply list_elem_of_In|].
      unfold has_duration. rewrite Hd. by apply negb_true_iff, Z.eqb_neq. }
    destruct (List.filter has_duration logs); [by apply elem_of_nil in Hin|].
    cbn [length]. lia.
Qed.

Lemma logged_entries_sound_witness :
  Samples.voice_entry 1000
  ∈ default [] (logs (run default_settings
                        [Scenarios.batch_of (Samples.joins "9") 1000]
                        initial_state))
  /\ (Samples.voice_entry 1000 ∈ default [] (logs initial_state)
      \/ exists b s tk me myCh,
           b ∈ [Scenarios.batch_of (Samples.joins "9") 1000]
           /\ (s, tk) ∈ batch_states b
           /\ currentUser (batch_host b) = Some me
           /\ myChannelId (batch_host b) = Some myCh /\ myCh <> EmptyString
           /\ enableFileLogging default_settings = true
           /\ dataStoreOk (batch_host b) = true
           /\ Samples.voice_entry 1000
              = make_entry (batch_host b) s (action (Samples.voice_entry 1000))
                  (sessionDuration (Samples.voice_entry 1000)) (t_stamp tk)
           /\ userId s <> EmptyString
           /\ (userId s = me -> logOwnActions default_settings = true)
           /\ passes_filter default_settings (userId s) = true
           /\ match action (Samples.voice_entry 1000) with
              | join => channelId s = Some myCh /\ oldChannelId s <> Some myCh
              | leave => oldChannelId s = Some myCh /\ channelId s <> Some myCh
                         /\ onlyLogJoins default_settings = false
              end).
Proof.
  assert (Hlogs : logs (run default_settings
                          [Scenarios.batch_of (Samples.joins "9") 1000]
                          initial_state)
                  = Some [Samples.voice_entry 1000])
    by (vm_compute; reflexivity).
  assert (Hin : Samples.voice_entry 1000
                ∈ default [] (logs (run default_settings
                                      [Scenarios.batch_of (Samples.joins "9") 1000]
                                      initial_state)))
    by (rewrite Hlogs; apply list_elem_of_here).
  split; [exact Hin|].
  exact (logged_entries_sound default_settings
           [Scenarios.batch_of (Samples.joins "9") 1000] initial_state
           (Samples.voice_entry 1000) Hin).
Defined.

Lemma startup_users_not_logged_witness :
  suppressToastsForExistingUsers default_settings = true
  /\ pluginInitialized initial_state = false
  /\ usersInChannel (batch_host (Scenarios.batch_of (Samples.joins "8") 1000))
     = Some ["me"; "8"]
  /\ logs (run_batch default_settings initial_state
             (Scenarios.batch_of (Samples.joins "8") 1000))
     = logs initial_state.
Proof.
  assert (Hall : Forall (fun x => userId (fst x) ∈ ["me"; "8"]
                   /\ userId (fst x) <> "me"
                   /\ oldChannelId (fst x) <> Some "vc1"
                   /\ t_window (snd x)
                      < p_until (batch_prelude
                                   (Scenarios.batch_of (Samples.joins "8") 1000))
                        + INITIALIZATION_SUPPRESSION_DURATION)
                 (batch_states (Scenarios.batch_of (Samples.joins "8") 1000))).
  { constructor; [|constructor]. split; [right; left|].
    split; [simpl; congruence|]. split; [simpl; congruence|].
    unfold INITIALIZATION_SUPPRESSION_DURATION. simpl. lia. }
  assert (Hne : "vc1" <> EmptyString) by congruence.
  assert (Hsweep : p_sweep (batch_prelude
                              (Scenarios.batch_of (Samples.joins "8") 1000))
                   <= p_until (batch_prelude
                                 (Scenarios.batch_of (Samples.joins "8") 1000))
                      + INITIALIZATION_SUPPRESSION_DURATION)
    by (unfold INITIALIZATION_SUPPRESSION_DURATION; simpl; lia).
  split; [reflexivity|]. split; [reflexivity|]. split; [reflexivity|].
  exact (proj1 (startup_users_not_logged default_settings
                  (Scenarios.batch_of (Samples.joins "8") 1000) initial_state
                  "me" "vc1" ["me"; "8"] eq_refl eq_refl eq_refl eq_refl Hne
                  eq_refl Hsweep Hall)).
Defined.

End VoiceViewFacts.

(* ===================================================================== *)
(** * AutoMuter: volumes, mutes and their timeouts                      *)
(* ===================================================================== *)

Section MuterTraceFacts.
Import AutoMuter MuterSpec.
Local Open Scope string_scope.
Local Open Scope list_scope.

Implicit Types (st : State) (cfg : Settings) (h : Host).

(** [Math.round] is within a half of its argument. *)
Lemma round_close (x : Q) : (Qabs (inject_Z (round x) - x) <= 1 # 2)%Q.
Proof.
  unfold round. apply Qabs_Qle_condition.
  pose proof (Qfloor_le (x + (1 # 2))) as Hle.
  pose proof (Qlt_floor (x + (1 # 2))) as Hlt.
  rewrite inject_Z_plus in Hlt. split.
  - apply Qlt_le_weak.
    apply (Qplus_lt_l _ _ (x + 1)). ring_simplify.
    eapply Qle_lt_trans; [|exact Hlt].
    ring_simplify. apply Qle_refl.
  - apply (Qplus_le_l _ _ x). ring_simplify.
    eapply Qle_trans; [exact Hle|]. ring_simplify. apply Qle_refl.
Qed.

(** The check of [setUserVolume] passes when the volume read back is the
    one just set. *)
Lemma setUserVolume_verified uid volume st :
  setUserVolume uid volume st = (true, set_volume uid (volume / 100) st).
Proof.
  unfold setUserVolume. cbn [localVolume set_volume].
  rewrite lookup_insert_eq. f_equal.
  apply Qle_bool_iff.
  assert (Heq : (volume / 100 * 100 == volume)%Q) by (field; done).
  assert (Hround : round (volume / 100 * 100) = round volume).
  { unfold round. apply Qfloor_comp. by rewrite Heq. }
  rewrite Hround.
  eapply Qle_trans; [apply round_close|]. done.
Qed.

Lemma processUser_acts cfg h uid st :
  enablePlugin cfg = true -> is_self h uid = false ->
  uid ∉ processedUsers st ->
  processUser cfg h uid st
  = set_processed (set_volume uid (targetVolume cfg h uid / 100) st)
                  ({[ uid ]} ∪ processedUsers st).
Proof.
  intros Hon Hself Hnew. unfold processUser.
  rewrite Hon, Hself, bool_decide_eq_false_2 by done. cbn [negb].
  by rewrite setUserVolume_verified.
Qed.

Lemma processUser_skips cfg h uid st :
  enablePlugin cfg = false \/ is_self h uid = true \/ uid ∈ processedUsers st ->
  processUser cfg h uid st = st.
Proof.
  intros Hskip. unfold processUser.
  destruct (enablePlugin cfg); cbn [negb]; [|done].
  destruct (is_self h uid); [done|].
  case_bool_decide; [done|]. by destruct Hskip as [?|[?|?]].
Qed.

(** X20.  [processUser].  For a user that is not the current user and not
    yet processed, with the plugin on, the local volume becomes the
    friend or non-friend volume, as a fraction of 100, and the user is
    marked as processed (the check of [setUserVolume] passes); otherwise
    nothing changes.  A second call changes nothing, and no call touches
    another user's volume, the mutes, the levels or the timeouts. *)
Theorem processUser_sets_volume_once (cfg : Settings) (h : Host) (uid : string)
    (st : State) :
  let st' := processUser cfg h uid st in
  let target := if isFriend h uid then friendVolume cfg else nonFriendVolume cfg in
  (enablePlugin cfg = true -> is_self h uid = false ->
   uid ∉ processedUsers st ->
   localVolume st' = <[uid := (target / 100)%Q]> (localVolume st)
   /\ processedUsers st' = {[ uid ]} ∪ processedUsers st)
  /\ (enablePlugin cfg = false \/ is_self h uid = true
      \/ uid ∈ processedUsers st -> st' = st)
  /\ (forall h', currentUserId h' = currentUserId h ->
        processUser cfg h' uid st' = st')
  /\ (forall other, other <> uid ->
        localVolume st' !! other = localVolume st !! other)
  /\ mutedUsers st' = mutedUsers st /\ audioLevels st' = audioLevels st
  /\ timers st' = timers st /\ currentChannelId st' = currentChannelId st.
Proof.
  cbn zeta. fold (targetVolume cfg h uid).
  destruct (enablePlugin cfg) eqn:Hon.
  2:{ rewrite (processUser_skips cfg h uid st) by auto.
      repeat split; try done. intros h' _. apply processUser_skips. auto. }
  destruct (is_self h uid) eqn:Hself.
  { rewrite (processUser_skips cfg h uid st) by auto.
    repeat split; try done. intros h' Hh'. apply processUser_skips.
    right. left. unfold is_self in *. by rewrite Hh'. }
  destruct (decide (uid ∈ processedUsers st)) as [Hin|Hnew].
  { rewrite (processUser_skips cfg h uid st) by auto.
    repeat split; try done. intros h' _. apply processUser_skips. auto. }
  rewrite processUser_acts by done.
  split; [done|]. split; [by intros [?|[?|?]]|]. split; [|split; [|done]].
  - intros h' _. apply processUser_skips. right. right. cbn. set_solver.
  - intros other Hne. cbn. by rewrite lookup_insert_ne.
Qed.

(** The loud case of [monitorAudioLevel]. *)
Lemma monitorAudioLevel_mutes cfg h uid x st :
  enableNoiseDetection cfg = true -> is_self h uid = false ->
  mutedUsers st !! uid = None ->
  let levels := push_level (default [] (audioLevels st !! uid)) x in
  (5 <= length levels)%nat ->
  PrimFloat.ltb (noiseThreshold cfg) (average levels) = true ->
  monitorAudioLevel cfg h uid x st
  = setTimeout (AutoUnmute uid (now h + muteDuration cfg * 1000))
      (set_muted (set_volume uid 0 (set_levels st (<[uid := levels]> (audioLevels st))))
                 (<[uid := (now h + muteDuration cfg * 1000)%Q]> (mutedUsers st))).
Proof.
  intros Hon Hself Hfree levels Hlen Hloud. unfold monitorAudioLevel.
  rewrite Hon, Hself. cbn [negb]. fold levels.
  destruct (Nat.leb_spec 5 (length levels)); [|lia].
  rewrite Hloud. cbn [negb andb set_levels mutedUsers].
  rewrite bool_decide_eq_false_2; [done|]. rewrite Hfree. by intros [? ?].
Qed.

(** While the mute lasts the samples only go to the levels. *)
Lemma monitorAudioLevel_muted cfg h uid x st :
  is_Some (mutedUsers st !! uid) ->
  mutedUsers (monitorAudioLevel cfg h uid x st) = mutedUsers st
  /\ timers (monitorAudioLevel cfg h uid x st) = timers st
  /\ localVolume (monitorAudioLevel cfg h uid x st) = localVolume st.
Proof.
  intros Hmuted. unfold monitorAudioLevel.
  destruct (negb (enableNoiseDetection cfg)); [done|].
  destruct (is_self h uid); [done|].
  destruct (5 <=? _)%nat; [|done].
  cbn [set_levels mutedUsers]. rewrite bool_decide_eq_true_2 by done.
  by rewrite andb_false_r.
Qed.

(** X21.  A mute and its unmute.  A sample after which the mean of at
    least five retained levels, as the code computes it in binary64, is
    above the threshold, for a user not muted, sets the user's volume to 0, records the unmute time (now plus
    muteDuration seconds) and schedules one timeout; while the mute lasts
    further samples change neither the mutes, the timeouts nor the
    volumes; and when that timeout fires the mute is removed, the timeouts
    are those from before the mute, and the user's volume is the friend or
    non-friend volume when the plugin is on and the user, not the current
    user, had not been processed, and 1 otherwise. *)
Theorem mute_then_unmute (cfg : Settings) (h h' : Host) (uid : string)
    (x : float) (st : State) :
  enableNoiseDetection cfg = true -> is_self h uid = false ->
  mutedUsers st !! uid = None ->
  let levels := push_level (default [] (audioLevels st !! uid)) x in
  (5 <= length levels)%nat ->
  PrimFloat.ltb (noiseThreshold cfg) (average levels) = true ->
  let unmuteTime := (now h + muteDuration cfg * 1000)%Q in
  let muted := monitorAudioLevel cfg h uid x st in
  let unmuted := step cfg muted (h', Fire (length (timers st))) in
  (mutedUsers muted !! uid = Some unmuteTime
   /\ localVolume muted !! uid = Some 0%Q
   /\ timers muted = timers st ++ [AutoUnmute uid unmuteTime])
  /\ (forall h2 y,
        let again := monitorAudioLevel cfg h2 uid y muted in
        mutedUsers again = mutedUsers muted /\ timers again = timers muted
        /\ localVolume again = localVolume muted)
  /\ (mutedUsers unmuted !! uid = None
      /\ timers unmuted = timers st
      /\ localVolume unmuted !! uid
         = Some (if enablePlugin cfg && negb (is_self h' uid)
                    && negb (bool_decide (uid ∈ processedUsers st))
                 then ((if isFriend h' uid then friendVolume cfg
                        else nonFriendVolume cfg) / 100)%Q
                 else 1%Q)).
Proof.
  intros Hon Hself Hfree levels Hlen Hloud unmuteTime muted unmuted.
  assert (Hmuted : muted
    = setTimeout (AutoUnmute uid unmuteTime)
        (set_muted (set_volume uid 0 (set_levels st (<[uid := levels]> (audioLevels st))))
                   (<[uid := unmuteTime]> (mutedUsers st))))
    by by apply monitorAudioLevel_mutes.
  assert (H1 : mutedUsers muted !! uid = Some unmuteTime)
    by (rewrite Hmuted; cbn; apply lookup_insert_eq).
  split; [|split].
  - split; [done|]. rewrite Hmuted. cbn. split; [apply lookup_insert_eq|done].
  - intros h2 y. cbn zeta. apply monitorAudioLevel_muted. by rewrite H1.
  - subst unmuted. unfold step. cbn [fst snd].
    assert (Hn : timers muted !! length (timers st) = Some (AutoUnmute uid unmuteTime)).
    { rewrite Hmuted. cbn. by rewrite list_lookup_middle. }
    rewrite Hn. cbn [run_callback]. unfold autoUnmute.
    cbn [set_timers mutedUsers]. rewrite H1.
    assert (Qeq_bool unmuteTime unmuteTime = true) as ->
      by (apply Qeq_bool_iff; reflexivity).
    set (st1 := set_muted _ _).
    assert (Hp : uid ∈ processedUsers st1 <-> uid ∈ processedUsers st)
      by (subst st1; rewrite Hmuted; done).
    assert (Ht : timers st1 = timers st).
    { subst st1. rewrite Hmuted. cbn.
      rewrite delete_middle. apply app_nil_r. }
    assert (Hm : mutedUsers st1 !! uid = None)
      by (subst st1; cbn; apply lookup_delete_eq).
    assert (Hv : localVolume st1 !! uid = Some 1%Q)
      by (subst st1; cbn; apply lookup_insert_eq).
    destruct (processUser_frame cfg h' uid st1) as (_ & -> & ->).
    split; [done|]. split; [done|].
    destruct (enablePlugin cfg) eqn:Hen; cbn [andb];
      [|by rewrite processUser_skips by auto].
    destruct (is_self h' uid) eqn:Hs; cbn [andb negb];
      [by rewrite processUser_skips by auto|].
    case_bool_decide as Hin; cbn [negb].
    + rewrite processUser_skips; [done|]. right. right. by apply Hp.
    + rewrite processUser_acts; [|done|done|by rewrite Hp].
      cbn. apply lookup_insert_eq.
Qed.

(** ** Loops that schedule *)

Lemma fold_setTimeout_spec {A} (c : A -> bool) (k : A -> Callback)
    (l : list A) st :
  fold_left (fun acc x => if c x then setTimeout (k x) acc else acc) l st
  = set_timers st (timers st ++ (k <$> List.filter c l)).
Proof.
  revert st. induction l as [|x l IH]; intros st.
  - cbn. rewrite app_nil_r. by destruct st.
  - cbn [fold_left List.filter]. rewrite IH. destruct (c x); [|done].
    cbn. by rewrite <- app_assoc.
Qed.

Lemma samples_le_length uid trace : (samples uid trace <= length trace)%nat.
Proof. unfold samples. apply sublist_length, filter_sublist. Qed.

Lemma push_level_longer levels x :
  (length (push_level levels x) <= S (length levels))%nat.
Proof.
  unfold push_level. destruct (_ <? _)%nat.
  - destruct levels; simpl; [lia|]. rewrite length_app. simpl. lia.
  - rewrite length_app. simpl. lia.
Qed.

Lemma unheard_skip st x rest :
  unheard st (x :: rest) -> unheard st rest.
Proof.
  intros (Hm & Ht & Hl). split; [done|]. split; [done|].
  intros uid. specialize (Hl uid). unfold samples in *. cbn [List.filter] in Hl.
  destruct (is_sample_of uid x); cbn [length] in Hl; lia.
Qed.

Lemma unheard_same st st' rest :
  unheard st rest ->
  mutedUsers st' = mutedUsers st ->
  (forall uid t, AutoUnmute uid t ∈ timers st' -> AutoUnmute uid t ∈ timers st) ->
  (forall uid, (length (default [] (audioLevels st' !! uid))
                <= length (default [] (audioLevels st !! uid)))%nat) ->
  unheard st' rest.
Proof.
  intros (Hm & Ht & Hl) Hm' Ht' Hl'. split; [by rewrite Hm'|].
  split; [intros uid t Hin; by apply (Ht uid t), Ht'|].
  intros uid. specialize (Hl uid). specialize (Hl' uid). lia.
Qed.

Lemma unheard_schedule st rest (l : list Callback) :
  unheard st rest -> (forall uid t, AutoUnmute uid t ∉ l) ->
  unheard (set_timers st (timers st ++ l)) rest.
Proof.
  intros Hu Hl. apply (unheard_same st); [done|done| |done].
  intros uid t Hin. cbn in Hin. apply elem_of_app in Hin as [Hin|Hin]; [done|].
  by destruct (Hl uid t).
Qed.

Lemma unheard_step cfg st h e rest :
  unheard st ((h, e) :: rest) -> unheard (step cfg st (h, e)) rest.
Proof.
  intros Hu. pose proof (unheard_skip _ _ _ Hu) as Hrest.
  pose proof Hu as (Hm & Ht & Hl).
  destruct e as [uid x|vs| | | | |n]; unfold step; cbn [fst snd].
  - unfold monitorAudioLevel.
    destruct (negb (enableNoiseDetection cfg)); [done|].
    destruct (is_self h uid); [done|].
    set (levels := push_level _ x).
    assert (Hlen : (length levels + samples uid rest < 5)%nat).
    { pose proof (push_level_longer (default [] (audioLevels st !! uid)) x).
      specialize (Hl uid). unfold samples in Hl. cbn [List.filter] in Hl.
      unfold is_sample_of at 1 in Hl. cbn [snd] in Hl.
      rewrite String.eqb_refl in Hl. cbn [length] in Hl.
      fold (samples uid rest) in Hl. subst levels. lia. }
    assert (Hst1 : unheard (set_levels st (<[uid := levels]> (audioLevels st))) rest).
    { split; [done|]. split; [done|]. intros u. cbn.
      destruct (decide (uid = u)) as [<-|Hne].
      - by rewrite lookup_insert_eq.
      - rewrite lookup_insert_ne by done. apply Hrest. }
    destruct (Nat.leb_spec 5 (length levels)); [lia|done].
  - unfold handleVoiceStateUpdate. destruct (negb (enablePlugin cfg)); [done|].
    destruct (currentUserId h) as [me|]; [|done].
    assert (Hclear : forall ch, unheard (clear_channel st ch) rest).
    { intros ch. split; [done|]. split; [done|]. intros u. cbn.
      rewrite lookup_empty. cbn. destruct Hrest as (_ & _ & Hl'). specialize (Hl' u). lia. }
    destruct (negb (truthy (myVoiceChannel h))); [apply Hclear|].
    rewrite fold_setTimeout_spec. apply unheard_schedule.
    + destruct (negb (bool_decide _)); [|done].
      apply (unheard_schedule (clear_channel st (myVoiceChannel h)) rest
               [ProcessExistingUsers]); [apply Hclear|].
      intros u t Hin. by apply list_elem_of_singleton in Hin.
    + intros u t Hin. apply list_elem_of_fmap in Hin as (? & ? & _). done.
  - unfold handleRelationshipUpdate. destruct (negb (enablePlugin cfg)); [done|].
    apply (unheard_same st); [done|done| |done].
    intros u t Hin. cbn in Hin. apply elem_of_app in Hin as [Hin|Hin]; [done|].
    by apply list_elem_of_singleton in Hin.
  - apply (unheard_same st); [done| |done|].
    + cbn. rewrite Hm. apply map_filter_empty.
    + intros u. cbn.
      destruct (filter _ (audioLevels st) !! u) as [l|] eqn:Hu'.
      * apply map_lookup_filter_Some in Hu' as [-> _]. done.
      * cbn. lia.
  - apply (unheard_same st); [done|done| |done].
    intros u t Hin. cbn in Hin. apply elem_of_app in Hin as [Hin|Hin]; [done|].
    by apply list_elem_of_singleton in Hin.
  - split; [done|]. split; [done|]. intros u. cbn.
    rewrite lookup_empty. cbn. destruct Hrest as (_ & _ & Hl'). specialize (Hl' u). lia.
  - destruct (timers st !! n) as [cb|] eqn:Hn; [|done].
    assert (Hu' : unheard (set_timers st (delete n (timers st))) rest).
    { apply (unheard_same st); [done|done| |done].
      intros u t Hin. cbn in Hin. by apply list_elem_of_delete_inv in Hin. }
    destruct cb as [u t|u|]; cbn [run_callback].
    + exfalso. apply (Ht u t). by eapply list_elem_of_lookup_2.
    + destruct (processUser_frame cfg h u (set_timers st (delete n (timers st))))
        as (Ha & Hmu & Hti).
      apply (unheard_same (set_timers st (delete n (timers st)))); [done|done| |].
      * intros u' t'. by rewrite Hti.
      * intros u'. by rewrite Ha.
    + unfold processExistingUsers. destruct (negb (enablePlugin cfg)); [done|].
      destruct (currentUserId h) as [me|]; [|done].
      destruct (negb (truthy (myVoiceChannel h))); [done|].
      destruct (channelUsers h) as [uids|]; [|done].
      rewrite (fold_setTimeout_spec (fun uid => negb (String.eqb uid me)) ProcessUser).
      apply (unheard_schedule (set_timers st (delete n (timers st)))); [done|].
      intros u' t Hin. apply list_elem_of_fmap in Hin as (? & ? & _). done.
Qed.

(** X22.  No mute before the fifth sample.  From the initial state, along
    any events among which no user has five audio samples, nobody is muted
    and no unmute is scheduled, however loud the samples are. *)
Theorem no_mute_before_five_samples (cfg : Settings)
    (trace : list (Host * Event)) :
  (forall uid, (samples uid trace < 5)%nat) ->
  let st := run cfg trace initial_state in
  mutedUsers st = ∅ /\ (forall uid t, AutoUnmute uid t ∉ timers st).
Proof.
  intros Hfew. cbn zeta.
  assert (Hgen : forall st, unheard st trace -> unheard (run cfg trace st) []).
  { clear Hfew. unfold run. induction trace as [|[h e] trace IH]; intros st Hst;
      [done|]. cbn [fold_left]. by apply IH, unheard_step. }
  destruct (Hgen initial_state) as (Hm & Ht & _); [|done].
  split; [done|]. split.
  - intros uid t Hin. by apply elem_of_nil in Hin.
  - intros uid. cbn. rewrite lookup_empty. cbn. apply Hfew.
Qed.

(** ** Every mute has its unmute pending *)

Lemma elem_of_delete_other {A} (l : list A) n x y :
  x ∈ l -> l !! n = Some y -> x <> y -> x ∈ delete n l.
Proof.
  intros Hx Hn Hne. apply list_elem_of_lookup in Hx as [i Hi].
  destruct (decide (i < n)%nat) as [Hlt|Hge].
  - apply (list_elem_of_lookup_2 _ i). by rewrite list_lookup_delete_lt.
  - assert (i <> n) by (intros ->; congruence).
    destruct i as [|i]; [lia|].
    apply (list_elem_of_lookup_2 _ i).
    rewrite list_lookup_delete_ge by lia. done.
Qed.

Lemma pending_weaken st st' :
  unmute_pending st ->
  (forall uid t, mutedUsers st' !! uid = Some t -> mutedUsers st !! uid = Some t) ->
  (forall uid t, is_Some (mutedUsers st' !! uid) ->
     AutoUnmute uid t ∈ timers st -> AutoUnmute uid t ∈ timers st') ->
  unmute_pending st'.
Proof.
  intros Hp Hm Ht uid t Hu. destruct (Hp uid t (Hm uid t Hu)) as (t' & Hin & Heq).
  exists t'. split; [|done]. apply Ht; [by rewrite Hu|done].
Qed.

Lemma pending_schedule st (l : list Callback) :
  unmute_pending st -> unmute_pending (set_timers st (timers st ++ l)).
Proof.
  intros Hp. apply (pending_weaken st); [done|done|].
  intros uid t _ Hin. cbn. apply elem_of_app. by left.
Qed.

Lemma pending_processUser cfg h uid st :
  unmute_pending st -> unmute_pending (processUser cfg h uid st).
Proof.
  intros Hp. destruct (processUser_frame cfg h uid st) as (_ & Hm & Ht).
  apply (pending_weaken st); [done| |]; intros u t; by rewrite ?Hm, ?Ht.
Qed.

Lemma pending_step cfg st x :
  unmute_pending st -> unmute_pending (step cfg st x).
Proof.
  intros Hp. destruct x as [h [uid lvl|vs| | | | |n]]; unfold step; cbn [fst snd].
  - unfold monitorAudioLevel.
    destruct (negb (enableNoiseDetection cfg)); [done|].
    destruct (is_self h uid); [done|].
    destruct (5 <=? _)%nat; [|done].
    destruct (PrimFloat.ltb _ _ && _); [|done].
    cbn [setUserMuted]. intros u t. cbn.
    destruct (decide (uid = u)) as [->|Hne].
    + rewrite lookup_insert_eq. intros [= <-].
      eexists. split; [apply elem_of_app; right; by left|].
      apply Qeq_bool_iff. reflexivity.
    + rewrite lookup_insert_ne by done. intros Hu.
      destruct (Hp u t Hu) as (t' & Hin & Heq). exists t'.
      split; [apply elem_of_app; by left|done].
  - unfold handleVoiceStateUpdate. destruct (negb (enablePlugin cfg)); [done|].
    destruct (currentUserId h) as [me|]; [|done].
    destruct (negb (truthy (myVoiceChannel h))).
    { intros u t. cbn. by rewrite lookup_empty. }
    rewrite fold_setTimeout_spec. apply pending_schedule.
    destruct (negb (bool_decide _)); [|done].
    intros u t. cbn. by rewrite lookup_empty.
  - unfold handleRelationshipUpdate. destruct (negb (enablePlugin cfg)); [done|].
    apply (pending_weaken st); [done|done|].
    intros u t _ Hin. cbn. apply elem_of_app. by left.
  - apply (pending_weaken st); [done| |done].
    intros u t. cbn. intros Hu. by apply map_lookup_filter_Some in Hu as [Hu _].
  - apply (pending_weaken st); [done|done|].
    intros u t _ Hin. cbn. apply elem_of_app. by left.
  - intros u t. cbn. by rewrite lookup_empty.
  - destruct (timers st !! n) as [cb|] eqn:Hn; [|done].
    destruct cb as [u t|u|]; cbn [run_callback].
    + unfold autoUnmute. cbn [set_timers mutedUsers].
      destruct (mutedUsers st !! u) as [t0|] eqn:Hu.
      * destruct (Qeq_bool t0 t) eqn:Heq.
        -- apply pending_processUser. intros u' t1. cbn.
           destruct (decide (u = u')) as [->|Hne]; [by rewrite lookup_delete_eq|].
           rewrite lookup_delete_ne by done. intros Hu'.
           destruct (Hp u' t1 Hu') as (t' & Hin & Heq'). exists t'.
           split; [|done]. eapply elem_of_delete_other; [done|exact Hn|congruence].
        -- intros u' t1. cbn. intros Hu'.
           destruct (Hp u' t1 Hu') as (t' & Hin & Heq'). exists t'.
           split; [|done]. eapply elem_of_delete_other; [done|exact Hn|].
           intros [= -> ->]. congruence.
      * intros u' t1. cbn. intros Hu'.
        destruct (Hp u' t1 Hu') as (t' & Hin & Heq'). exists t'.
        split; [|done]. eapply elem_of_delete_other; [done|exact Hn|].
        intros [= -> ->]. congruence.
    + apply pending_processUser. intros u' t1. cbn. intros Hu'.
      destruct (Hp u' t1 Hu') as (t' & Hin & Heq'). exists t'.
      split; [|done]. by eapply elem_of_delete_other.
    + assert (Hp' : unmute_pending (set_timers st (delete n (timers st)))).
      { intros u' t1. cbn. intros Hu'.
        destruct (Hp u' t1 Hu') as (t' & Hin & Heq'). exists t'.
        split; [|done]. by eapply elem_of_delete_other. }
      unfold processExistingUsers. destruct (negb (enablePlugin cfg)); [done|].
      destruct (currentUserId h) as [me|]; [|done].
      destruct (negb (truthy (myVoiceChannel h))); [done|].
      destruct (channelUsers h) as [uids|]; [|done].
      rewrite (fold_setTimeout_spec (fun uid => negb (String.eqb uid me)) ProcessUser).
      by apply (pending_schedule (set_timers st (delete n (timers st)))).
Qed.

(** X23.  Every mute is temporary.  In every state reached from the initial
    one, a muted user has a pending timeout that unmutes that user, for
    the unmute time recorded with the mute. *)
Theorem muted_users_have_unmute_pending (cfg : Settings)
    (trace : list (Host * Event)) (uid : string) (t : Q) :
  mutedUsers (run cfg trace initial_state) !! uid = Some t ->
  exists t', AutoUnmute uid t' ∈ timers (run cfg trace initial_state)
             /\ Qeq_bool t t' = true.
Proof.
  assert (Hp : unmute_pending (run cfg trace initial_state)).
  { unfold run.
    assert (Hgen : forall st, unmute_pending st ->
              unmute_pending (fold_left (step cfg) trace st)).
    { induction trace as [|x trace IH]; intros st Hst; [done|].
      cbn [fold_left]. by apply IH, pending_step. }
    apply Hgen. intros u t0. cbn. by rewrite lookup_empty. }
  apply Hp.
Qed.

(** X24.  What leaves the volumes alone.  Voice state updates,
    relationship updates, the periodic clean-up, [start] and [stop] change
    no local volume: only an audio sample or a timeout that fires does. *)
Theorem volumes_change_only_by_samples_and_timeouts (cfg : Settings)
    (trace : list (Host * Event)) (st : State) :
  Forall (fun x => leaves_volumes (snd x) = true) trace ->
  localVolume (run cfg trace st) = localVolume st.
Proof.
  intros Hall. revert st. unfold run.
  induction Hall as [|[h e] trace He _ IH]; intros st; [done|].
  cbn [fold_left]. rewrite IH. cbn [snd] in He.
  destruct e as [uid lvl|vs| | | | |n]; try discriminate; unfold step; cbn [fst snd].
  - unfold handleVoiceStateUpdate. destruct (negb (enablePlugin cfg)); [done|].
    destruct (currentUserId h) as [me|]; [|done].
    destruct (negb (truthy (myVoiceChannel h))); [done|].
    rewrite fold_setTimeout_spec. cbn. by destruct (negb (bool_decide _)).
  - unfold handleRelationshipUpdate. by destruct (negb (enablePlugin cfg)).
  - done.
  - done.
  - done.
Qed.

Lemma mute_then_unmute_witness :
  enableNoiseDetection default_settings = true
  /\ is_self (Samples.muter_host 1400) "9" = false
  /\ mutedUsers Scenarios.nearly_muted !! "9" = None
  /\ (5 <= length (push_level
                     (default [] (audioLevels Scenarios.nearly_muted !! "9")) 95))%nat
  /\ PrimFloat.ltb (noiseThreshold default_settings)
       (average (push_level
                   (default [] (audioLevels Scenarios.nearly_muted !! "9")) 95))
     = true
  /\ mutedUsers (monitorAudioLevel default_settings (Samples.muter_host 1400)
                   "9" 95 Scenarios.nearly_muted) !! "9"
     = Some (now (Samples.muter_host 1400)
             + muteDuration default_settings * 1000)%Q.
Proof.
  assert (H1 : is_self (Samples.muter_host 1400) "9" = false)
    by (vm_compute; reflexivity).
  assert (H2 : mutedUsers Scenarios.nearly_muted !! "9" = None)
    by (vm_compute; reflexivity).
  assert (H3 : (5 <= length (push_level
                  (default [] (audioLevels Scenarios.nearly_muted !! "9")) 95))%nat)
    by (vm_compute; lia).
  assert (H4 : PrimFloat.ltb (noiseThreshold default_settings)
                 (average (push_level
                    (default [] (audioLevels Scenarios.nearly_muted !! "9")) 95))
               = true)
    by (vm_compute; reflexivity).
  split; [reflexivity|]. split; [exact H1|]. split; [exact H2|].
  split; [exact H3|]. split; [exact H4|].
  exact (proj1 (proj1 (mute_then_unmute default_settings
                  (Samples.muter_host 1400) (Samples.muter_host 6400) "9" 95
                  Scenarios.nearly_muted eq_refl H1 H2 H3 H4))).
Defined.

Lemma no_mute_before_five_samples_witness :
  (forall uid, (samples uid Scenarios.four_loud < 5)%nat)
  /\ mutedUsers (run default_settings Scenarios.four_loud initial_state) = ∅.
Proof.
  assert (H : forall uid, (samples uid Scenarios.four_loud < 5)%nat).
  { intros uid. pose proof (samples_le_length uid Scenarios.four_loud) as Hle.
    change (length Scenarios.four_loud) with 4%nat in Hle. lia. }
  split; [exact H|].
  exact (proj1 (no_mute_before_five_samples default_settings
                  Scenarios.four_loud H)).
Defined.

Lemma muted_users_have_unmute_pending_witness :
  mutedUsers (run default_settings Samples.loud initial_state) !! "9"
  = Some 6400%Q
  /\ exists t', AutoUnmute "9" t'
                ∈ timers (run default_settings Samples.loud initial_state)
                /\ Qeq_bool 6400 t' = true.
Proof.
  assert (H : mutedUsers (run default_settings Samples.loud initial_state) !! "9"
              = Some 6400%Q) by (vm_compute; reflexivity).
  split; [exact H|].
  exact (muted_users_have_unmute_pending default_settings Samples.loud "9"
           6400%Q H).
Defined.

Lemma volumes_change_only_by_samples_and_timeouts_witness :
  Forall (fun x => leaves_volumes (snd x) = true) Scenarios.stop_and_sweep
  /\ localVolume (run default_settings Scenarios.stop_and_sweep Samples.muted_state)
     = localVolume Samples.muted_state.
Proof.
  assert (H : Forall (fun x => leaves_volumes (snd x) = true)
                Scenarios.stop_and_sweep) by (repeat constructor).
  split; [exact H|].
  exact (volumes_change_only_by_samples_and_timeouts default_settings
           Scenarios.stop_and_sweep Samples.muted_state H).
Defined.

End MuterTraceFacts.
